(** * Wildfire frontend: the detection-event pipeline

    A shallow embedding of the event pipeline of the browser client:
    - [Api]      : the chunked stream decoder of [src/services/api.js]
                   ([detectFireSmokeStreaming]);
    - [Audio]    : the alarm engine of [src/utils/audioAlert.js]
                   ([AudioAlertSystem]);
    - [App]      : the alert orchestration, emergency stop and persistence of
                   [src/App.jsx] (and of its later revision that adds the
                   satellite alerts);
    - [Webcam]   : the capture loop and the network-camera connection of the
                   [WebcamDetection] component;
    - [AlertStatus], [DetectionLog], [DetectionResult] : what the three
                   panels of [src/components] compute from the ledger, the
                   log and the stored result;
    - [Monitoring] : the camera and monitoring controls of
                   [WebcamDetection], with the timers they start and stop;
    - [JsonText] : the texts [JSON.stringify] writes and [JSON.parse]
                   reads, for the lists kept in [localStorage].

    JavaScript numbers are binary64 floats ([PrimFloat]); text is a [string]
    of code units; React state is threaded explicitly; platform services the
    repository calls but does not define ([JSON.parse], [Date.now], ...)
    are variables of the sections that use them. *)

From Stdlib Require Import ZArith Lia Bool Ascii String List.
From Stdlib Require Import Floats.PrimFloat Numbers.Cyclic.Int63.Uint63.
From Stdlib Require Floats.SpecFloat Floats.FloatOps Floats.FloatAxioms.
From Stdlib Require DecimalString DecimalPos DecimalZ.
From stdpp Require Import base strings list gmap pretty.
Import ListNotations.

Local Open Scope string_scope.
Local Open Scope list_scope.

(** ** JavaScript values produced by [JSON.parse] *)

#[local] Set Warnings "-register-all,-inexact-float".

Inductive json : Type :=
| JNull
| JBool (b : bool)
| JNum (x : float)
| JStr (s : string)
| JArr (items : list json)
| JObj (fields : list (string * json)).

(** ** Strings *)

Module Str.

(** The line feed, ['\n']. *)
Definition LF : ascii := "010"%char.

Definition is_LF (c : ascii) : bool := Ascii.eqb c LF.

(** [s.substring(n)]: the string without its first [n] code units. *)
Fixpoint substring_from (n : nat) (s : string) : string :=
  match n, s with
  | O, _ => s
  | S _, EmptyString => EmptyString
  | S n', String _ s' => substring_from n' s'
  end.

(** [s.startsWith(p)]. *)
Fixpoint startsWith (p s : string) : bool :=
  match p, s with
  | EmptyString, _ => true
  | String _ _, EmptyString => false
  | String a p', String b s' => Ascii.eqb a b && startsWith p' s'
  end.

(** Prepends a code unit to the first piece of a split. *)
Definition cons_head (c : ascii) (pieces : list string) : list string :=
  match pieces with
  | [] => [String c EmptyString]
  | p :: ps => String c p :: ps
  end.

(** [s.split('\n\n')]: the pieces between the non-overlapping occurrences
    of two consecutive line feeds, found from left to right. The result
    is never empty: a string without the separator is its own only
    piece. *)
Fixpoint split_nn (s : string) : list string :=
  match s with
  | EmptyString => [EmptyString]
  | String c s' =>
      match s' with
      | EmptyString => [String c EmptyString]
      | String c' s'' =>
          if is_LF c && is_LF c'
          then EmptyString :: split_nn s''
          else cons_head c (split_nn s')
      end
  end.

Fixpoint has_LF (s : string) : bool :=
  match s with
  | EmptyString => false
  | String c s' => is_LF c || has_LF s'
  end.

(** [chunks.join('')]. *)
Fixpoint concat (chunks : list string) : string :=
  match chunks with
  | [] => EmptyString
  | c :: cs => c +:+ concat cs
  end.

(** [s.replace(pat, rep)] when [pat] occurs in [s] (the first occurrence
    is replaced), [None] when it does not: [s.includes(pat)] is whether
    the result is [Some]. *)
Fixpoint replace_first (pat rep s : string) : option string :=
  if startsWith pat s
  then Some (rep +:+ substring_from (String.length pat) s)
  else match s with
       | EmptyString => None
       | String c s' => option_map (String c) (replace_first pat rep s')
       end.

(** [s.endsWith(c)] for a single code unit [c]. *)
Fixpoint endsWith_char (c : ascii) (s : string) : bool :=
  match s with
  | EmptyString => false
  | String x EmptyString => Ascii.eqb x c
  | String _ s' => endsWith_char c s'
  end.

End Str.

(** ** The stream decoder ([src/services/api.js]) *)

Module Api.
Import Str.

(** [v.k] for a value that is not [null]: the own data property of a
    parsed object, [None] standing for [undefined]. *)
Fixpoint assoc (k : string) (fields : list (string * json)) : option json :=
  match fields with
  | [] => None
  | (k', v) :: rest => if String.eqb k k' then Some v else assoc k rest
  end.

Definition prop (v : json) (k : string) : option json :=
  match v with
  | JObj fields => assoc k fields
  | _ => None
  end.

(** JavaScript truthiness. *)
Definition truthy (v : json) : bool :=
  match v with
  | JNull => false
  | JBool b => b
  | JNum x => negb (PrimFloat.eqb x 0%float) && PrimFloat.eqb x x
  | JStr s => negb (String.eqb s "")
  | JArr _ | JObj _ => true
  end.

Definition truthy_opt (o : option json) : bool :=
  match o with
  | Some v => truthy v
  | None => false
  end.

(** What the decoder does to its caller, in order: the three callbacks
    and the [console.error] of the inner [catch]. [OnError v] is
    [onError(new Error(v))]. *)
Inductive callback : Type :=
  | OnFrameDetection (frameData : json)
  | OnComplete
  | OnError (err : json)
  | ConsoleError (data : string).

(** The fetch response: [ok], and the chunks its body reader yields
    before it reports [done]. The [TextDecoder] runs in streaming mode, so
    the decoded text of the chunks is the text of the whole body cut at
    the same places: a chunk is modelled by its decoded text. *)
Record response : Type := Response {
    ok : bool;
    status : nat;
    body : list string
  }.

Inductive outcome : Type :=
  | Returned            (* [{ success: true }] *)
  | Thrown (status : nat).

Section Decoder.

(** [JSON.parse]; [None] is a [SyntaxError]. *)
Variable JSON_parse : string -> option json.

(** What the three-way branch does with a parsed payload. Reading a
    property of [null] throws, which the inner [catch] logs. *)
Definition dispatch (data : string) (frameData : json) : list callback :=
  match frameData with
  | JNull => [ConsoleError data]
  | _ =>
      if truthy_opt (prop frameData "done") then [OnComplete]
      else match prop frameData "error" with
           | Some e => if truthy e then [OnError e]
                       else [OnFrameDetection frameData]
           | None => [OnFrameDetection frameData]
           end
  end.

(** The [try] block run on the text after the marker. *)
Definition on_payload (data : string) : list callback :=
  match JSON_parse data with
  | None => [ConsoleError data]
  | Some frameData => dispatch data frameData
  end.

(** The body of [for (const event of events)]. *)
Definition handle_event (event : string) : list callback :=
  if startsWith "data: " event
  then on_payload (substring_from 6 event)
  else [].

(** The [while (true)] loop: one iteration per chunk read, the last
    read reporting [done]. *)
Fixpoint read_loop (buffer : string) (chunks : list string)
  : list callback :=
  match chunks with
  | [] => [OnComplete]
  | value :: rest =>
      let buffer := buffer +:+ value in
      let events := split_nn buffer in
      let buffer := default "" (last events) in
      flat_map handle_event (removelast events) ++ read_loop buffer rest
  end.

(** [detectFireSmokeStreaming]: the callbacks it makes and how it
    ends. A response that is not [ok] throws; the outer [catch] reports
    the error and throws it again. *)
Definition detectFireSmokeStreaming (r : response)
  : list callback * outcome :=
  if ok r then (read_loop "" (body r), Returned)
  else ([OnError (JStr "HTTP error!")], Thrown (status r)).

End Decoder.

(** The producer's framing of one event. *)
Definition encode_event (payload : string) : string :=
  "data: " +:+ payload +:+ String LF (String LF "").

Definition encode_events (payloads : list string) : string :=
  concat (map encode_event payloads).

End Api.

(** ** The alarm engine ([src/utils/audioAlert.js]) *)

Module Audio.

Inductive waveform : Type := Sine | Square | Triangle.

(** How the node's [onended] handler was written: the three siren voices
    remove themselves from the engine's arrays, the bass voice only
    disconnects. *)
Inductive voice : Type := Siren | Bass.

(** An oscillator node once [start] and [stop] have been called on it. *)
Record OscillatorNode : Type := {
    osc_id : nat;
    osc_voice : voice;
    osc_type : waveform;
    osc_frequency : float;
    osc_start : float;
    osc_stop : float
  }.

(** A gain node; [gain_fade] is the end of the ramp to zero that
    [stopAlarm] schedules on it. *)
Record GainNode : Type := {
    gain_id : nat;
    gain_fade : option float
  }.

(** The [Audio] element of the clip. [paused] is [false] exactly while the
    clip sounds: an element whose [play()] was rejected stays silent, which
    is recorded as paused. *)
Record AudioElement : Type := {
    src : string;
    volume : float;
    paused : bool;
    currentTime : float;
    listeners : bool     (* the [ended] and [error] listeners are attached *)
  }.

(** The audio context: the number of nodes it has created. *)
Record AudioContext : Type := { created : nat }.

Record AudioAlertSystem : Type := {
    audioContext : option AudioContext;
    isPlaying : bool;
    oscillators : list OscillatorNode;
    gainNodes : list GainNode;
    audioElement : option AudioElement
  }.

Definition mp3Path : string := "/fire-alarm.wav".

(** [constructor()]. *)
Definition constructor : AudioAlertSystem :=
  {| audioContext := None; isPlaying := false; oscillators := [];
     gainNodes := []; audioElement := None |}.

Definition set_isPlaying (b : bool) (a : AudioAlertSystem) :=
  {| audioContext := audioContext a; isPlaying := b;
     oscillators := oscillators a; gainNodes := gainNodes a;
     audioElement := audioElement a |}.

Definition set_audioElement (e : option AudioElement) (a : AudioAlertSystem) :=
  {| audioContext := audioContext a; isPlaying := isPlaying a;
     oscillators := oscillators a; gainNodes := gainNodes a;
     audioElement := e |}.

Definition set_nodes (ctx : option AudioContext) (os : list OscillatorNode)
    (gs : list GainNode) (a : AudioAlertSystem) :=
  {| audioContext := ctx; isPlaying := isPlaying a;
     oscillators := os; gainNodes := gs; audioElement := audioElement a |}.

(** [init()]. *)
Definition init (a : AudioAlertSystem) : AudioAlertSystem :=
  match audioContext a with
  | Some _ => a
  | None => set_nodes (Some {| created := 0 |}) (oscillators a) (gainNodes a) a
  end.

(** [playMP3Alarm()] up to its [await this.audioElement.play()]: the
    element is created or reused and rewound, and the flag is raised. *)
Definition playMP3Alarm_begin (a : AudioAlertSystem) : AudioAlertSystem :=
  let e := match audioElement a with
           | Some e => e
           | None => {| src := mp3Path; volume := 1%float; paused := true;
                        currentTime := 0%float; listeners := false |}
           end in
  let e := {| src := src e; volume := volume e; paused := paused e;
              currentTime := 0%float; listeners := listeners e |} in
  set_isPlaying true (set_audioElement (Some e) a).

(** [playMP3Alarm()] after the promise of [play()] settles: fulfilled, the
    clip plays and the listeners are attached; rejected, the [catch]
    lowers the flag. The result is the returned boolean. *)
Definition playMP3Alarm_settle (fulfilled : bool) (a : AudioAlertSystem)
  : AudioAlertSystem * bool :=
  if fulfilled then
    let e := option_map (fun e =>
               {| src := src e; volume := volume e; paused := false;
                  currentTime := currentTime e; listeners := true |})
               (audioElement a) in
    (set_audioElement e a, true)
  else (set_isPlaying false a, false).

Definition frequencies : list (float * waveform) :=
  [(800%float, Sine); (1000%float, Square); (1200%float, Sine)].

(** One pass of the [forEach] over [frequencies]: the oscillator and its
    gain node are created, started, scheduled to stop at [endTime], and
    pushed. *)
Definition add_voice (v : voice) (now endTime : float)
    (ft : float * waveform) (a : AudioAlertSystem) : AudioAlertSystem :=
  let n := match audioContext a with Some c => created c | None => 0 end in
  let osc := {| osc_id := n; osc_voice := v; osc_type := snd ft;
                osc_frequency := fst ft; osc_start := now;
                osc_stop := endTime |} in
  let gn := {| gain_id := S n; gain_fade := None |} in
  set_nodes (Some {| created := S (S n) |})
    (oscillators a ++ [osc]) (gainNodes a ++ [gn]) a.

(** [playGeneratedSiren(duration)], [now] being [ctx.currentTime]. *)
Definition playGeneratedSiren (duration now : float) (a : AudioAlertSystem)
  : AudioAlertSystem :=
  let a := set_isPlaying true (init a) in
  let endTime := (now + duration / 1000)%float in
  let a := fold_left (fun a ft => add_voice Siren now endTime ft a) frequencies a in
  add_voice Bass now endTime (200%float, Triangle) a.

(** [playFireAlarm(duration)] up to its first suspension. [None]: the call
    returned at the guard; [Some d]: it awaits [play()] and will resume
    with duration [d]. *)
Definition playFireAlarm_begin (duration : float) (a : AudioAlertSystem)
  : AudioAlertSystem * option float :=
  if isPlaying a then (a, None)
  else (playMP3Alarm_begin a, Some duration).

(** [playFireAlarm(duration)] from the settlement of [play()] on. *)
Definition playFireAlarm_resume (duration : float) (fulfilled : bool)
    (now : float) (a : AudioAlertSystem) : AudioAlertSystem :=
  let '(a, mp3Success) := playMP3Alarm_settle fulfilled a in
  if mp3Success then a else playGeneratedSiren duration now a.

(** A call that is not overlapped by anything else. *)
Definition playFireAlarm (duration : float) (fulfilled : bool) (now : float)
    (a : AudioAlertSystem) : AudioAlertSystem :=
  match playFireAlarm_begin duration a with
  | (a, None) => a
  | (a, Some d) => playFireAlarm_resume d fulfilled now a
  end.

(** The [ended] (or [error]) listener of the clip. *)
Definition clip_onEnded (a : AudioAlertSystem) : AudioAlertSystem :=
  let e := option_map (fun e =>
             {| src := src e; volume := volume e; paused := true;
                currentTime := currentTime e; listeners := false |})
             (audioElement a) in
  set_isPlaying false (set_audioElement e a).

(** The [onended] handler of the oscillator [osc], whose gain node is
    the next node created. *)
Definition oscillator_onended (osc : OscillatorNode) (a : AudioAlertSystem)
  : AudioAlertSystem :=
  match osc_voice osc with
  | Bass => a
  | Siren =>
      let os := filter (fun o => osc_id o <> osc_id osc) (oscillators a) in
      let gs := filter (fun g => gain_id g <> S (osc_id osc)) (gainNodes a) in
      let a := set_nodes (audioContext a) os gs a in
      if decide (length os = 0) then set_isPlaying false a else a
  end.

(** [stopAlarm()], [now] being [ctx.currentTime] when there is a
    context. *)
Definition stopAlarm (now : float) (a : AudioAlertSystem) : AudioAlertSystem :=
  let a :=
    match audioElement a with
    | Some e =>
        if negb (paused e)
        then set_audioElement
               (Some {| src := src e; volume := volume e; paused := true;
                        currentTime := 0%float; listeners := listeners e |}) a
        else a
    | None => a
    end in
  match audioContext a with
  | None => a                                   (* [if (!ctx) return;] *)
  | Some ctx =>
      let gs := map (fun g => {| gain_id := gain_id g;
                                 gain_fade := Some (now + 0.1)%float |})
                    (gainNodes a) in
      let os := map (fun o => {| osc_id := osc_id o; osc_voice := osc_voice o;
                                 osc_type := osc_type o;
                                 osc_frequency := osc_frequency o;
                                 osc_start := osc_start o;
                                 osc_stop := (now + 0.1)%float |})
                    (oscillators a) in
      set_isPlaying false (set_nodes (Some ctx) os gs a)
  end.

(** *** Overlapping calls

    Calls of [playFireAlarm] interleave at the [await]: a call begins,
    other calls may begin while it is suspended, and it resumes when the
    promise of [play()] settles. What follows the settlement (the [catch]
    of [playMP3Alarm], then the rest of [playFireAlarm]) runs in
    consecutive microtasks, with no other call in between. *)

Inductive action : Type :=
  | Call (duration : float)
  | Settle (fulfilled : bool) (now : float).

Record engine : Type := {
    system : AudioAlertSystem;
    suspended : list float          (* durations of the calls awaiting [play()] *)
  }.

Definition step (g : engine) (act : action) : engine :=
  match act with
  | Call d =>
      match playFireAlarm_begin d (system g) with
      | (a, None) => {| system := a; suspended := suspended g |}
      | (a, Some d) => {| system := a; suspended := suspended g ++ [d] |}
      end
  | Settle fulfilled now =>
      match suspended g with
      | [] => g
      | d :: rest =>
          {| system := playFireAlarm_resume d fulfilled now (system g);
             suspended := rest |}
      end
  end.

Definition run (acts : list action) (g : engine) : engine :=
  fold_left step acts g.

(** The playbacks that sound: the clip when it is not paused, and the
    group of synthesized voices when there is one. *)
Definition clip_active (a : AudioAlertSystem) : bool :=
  match audioElement a with
  | Some e => negb (paused e)
  | None => false
  end.

Definition voices_active (a : AudioAlertSystem) : bool :=
  negb (Nat.eqb (length (oscillators a)) 0).

Definition playbacks (a : AudioAlertSystem) : nat :=
  (if clip_active a then 1 else 0) + (if voices_active a then 1 else 0).

End Audio.

(** ** The alert orchestration ([src/App.jsx]) *)

Module App.
Import Api.

(** *** Detection data *)

Record Detection : Type := { class : string; confidence : float }.

(** A frame event of the stream, or the result of one captured frame. *)
Record FrameData : Type := {
    frame : float;
    total_frames : option float;
    has_fire : bool;
    detections : list Detection
  }.

Definition Detection_of_json (v : json) : option Detection :=
  match prop v "class", prop v "confidence" with
  | Some (JStr c), Some (JNum x) => Some {| class := c; confidence := x |}
  | _, _ => None
  end.

Definition total_frames_of_json (v : json) : option float :=
  match prop v "total_frames" with
  | Some (JNum n) => Some n
  | _ => None
  end.

(** The frame a payload of the documented shape
    [{frame, total_frames, detections, has_fire}] stands for; [None] for
    any other payload, which the model of the handlers does not cover. *)
Definition FrameData_of_json (v : json) : option FrameData :=
  match prop v "frame", prop v "has_fire", prop v "detections" with
  | Some (JNum f), Some (JBool b), Some (JArr ds) =>
      match mapM Detection_of_json ds with
      | Some l => Some {| frame := f; total_frames := total_frames_of_json v;
                          has_fire := b; detections := l |}
      | None => None
      end
  | _, _, _ => None
  end.

(** The number [n] as a JavaScript number. *)
Definition of_nat (n : nat) : float :=
  PrimFloat.of_uint63 (Uint63.of_Z (Z.of_nat n)).

(** [ds.reduce((sum, d) => sum + d.confidence, 0) / ds.length]. *)
Definition sum_confidence (ds : list Detection) : float :=
  fold_left (fun sum d => (sum + confidence d)%float) ds 0%float.

Definition average_confidence (ds : list Detection) : float :=
  (sum_confidence ds / of_nat (length ds))%float.

(** *** Alerts and history *)

(** The text of a template literal, by its template and the values
    interpolated in it. *)
Inductive text : Type :=
  | FireDetectedInFrame (frame : float)
  | DetectionsWithConfidence (n : nat) (avgConfidence : float)
  | FireOrSmokeDetectedIn (filename : string)
  | HighWildfireRiskIn (filename : string)
  | DetectionsWithAvgConfidence (n : nat) (avgConfidence : float)
  | WildfireProbability (wildfire : float)
  | SatelliteAlertHotspots (count : float)
  | NasaModisDetected
  | FireDetectedInCamera (network : bool)
  | FireFoundInFrameOf (frame : float) (filename : string)
  | AlertWithDetails (message details : text)
  | HotspotsDetectedBySatellite (count : float)
  | ErrorDuringStreaming (err : json)
  | ErrorProcessingFile.

(** An identifier [`${kind}-${Date.now()}-${random}`]. *)
Record ident : Type := {
    kind : string;
    at_time : Z;
    random : option string
  }.

Record Alert : Type := {
    alert_id : option ident;
    message : text;
    details : text;
    severity : string;
    timestamp : string;
    frameNumber : option float;
    source : option string
  }.

Inductive riskLevel : Type := High | Medium | Low.

Inductive history_details : Type :=
  | StreamingDetails (ds : list Detection) (detectionCount framesWithFire : nat)
      (firstFireFrame : option float) (avgConfidence : float)
  | FireSmokeDetails (ds : option (list Detection)) (detectionCount : nat)
      (avgConfidence : float)
  | SatelliteDetails (wildfireProb : option float) (risk : riskLevel)
  | CameraDetails (source : string) (message : text).

Record HistoryItem : Type := {
    history_id : ident;
    history_type : string;
    filename : string;
    history_timestamp : string;
    detected : bool;
    history_details_of : history_details
  }.

Definition detectionCount (h : HistoryItem) : option nat :=
  match history_details_of h with
  | StreamingDetails _ n _ _ _ | FireSmokeDetails _ n _ => Some n
  | _ => None
  end.

Definition avgConfidence (h : HistoryItem) : option float :=
  match history_details_of h with
  | StreamingDetails _ _ _ _ a | FireSmokeDetails _ _ a => Some a
  | _ => None
  end.

(** *** The platform *)

Inductive permission : Type := Granted | Denied | Default.

(** What the platform answers during one handler call: the clock, the
    random source, the locale rendering of the date, and the
    notification interface ([None] when [window] has no [Notification])
    with the answer a permission request would get. *)
Record platform : Type := {
    Date_now : Z;
    Math_random : string;
    toLocaleString : string;
    toLocaleTimeString : string;
    Notification_permission : option permission;
    requestPermission : permission
  }.

(** Calls that leave the component: into the alarm engine, the
    notification surface and [window.alert]. *)
Inductive effect : Type :=
  | PlayFireAlarm (duration : nat)
  | StopAlarm
  | NewNotification (title : string) (body : text)
  | RequestPermission
  | WindowAlert (msg : text).

Inductive batch_result : Type :=
  | FireSmokeResult (ds : option (list Detection))   (* [/detect/fire-smoke] *)
  | SatelliteResult (wildfire : option float).       (* [/detect/satellite-fire] *)

Inductive detection_result : Type :=
  | StreamSummary (ds : list Detection) (totalFrames : nat)
      (firstFireFrame : option float)
  | BatchResult (r : batch_result).

(** *** The component state, and the calls made so far *)

Record state : Type := {
    alerts : list Alert;
    detectionHistory : list HistoryItem;
    instantAlert : option Alert;
    isEmergencyStop : bool;
    isMonitoring : bool;
    isLoading : bool;
    detectionResult : option detection_result;
    effects : list effect
  }.

(** [useState] defaults, for the restored lists [al] and [hs]. *)
Definition initial (al : list Alert) (hs : list HistoryItem) : state :=
  {| alerts := al; detectionHistory := hs; instantAlert := None;
     isEmergencyStop := false; isMonitoring := false; isLoading := false;
     detectionResult := None; effects := [] |}.

Definition setAlerts (f : list Alert -> list Alert) (s : state) : state :=
  {| alerts := f (alerts s); detectionHistory := detectionHistory s;
     instantAlert := instantAlert s; isEmergencyStop := isEmergencyStop s;
     isMonitoring := isMonitoring s; isLoading := isLoading s;
     detectionResult := detectionResult s; effects := effects s |}.

Definition setDetectionHistory (f : list HistoryItem -> list HistoryItem)
    (s : state) : state :=
  {| alerts := alerts s; detectionHistory := f (detectionHistory s);
     instantAlert := instantAlert s; isEmergencyStop := isEmergencyStop s;
     isMonitoring := isMonitoring s; isLoading := isLoading s;
     detectionResult := detectionResult s; effects := effects s |}.

Definition setInstantAlert (a : option Alert) (s : state) : state :=
  {| alerts := alerts s; detectionHistory := detectionHistory s;
     instantAlert := a; isEmergencyStop := isEmergencyStop s;
     isMonitoring := isMonitoring s; isLoading := isLoading s;
     detectionResult := detectionResult s; effects := effects s |}.

Definition setIsEmergencyStop (b : bool) (s : state) : state :=
  {| alerts := alerts s; detectionHistory := detectionHistory s;
     instantAlert := instantAlert s; isEmergencyStop := b;
     isMonitoring := isMonitoring s; isLoading := isLoading s;
     detectionResult := detectionResult s; effects := effects s |}.

Definition setIsMonitoring (b : bool) (s : state) : state :=
  {| alerts := alerts s; detectionHistory := detectionHistory s;
     instantAlert := instantAlert s; isEmergencyStop := isEmergencyStop s;
     isMonitoring := b; isLoading := isLoading s;
     detectionResult := detectionResult s; effects := effects s |}.

Definition setIsLoading (b : bool) (s : state) : state :=
  {| alerts := alerts s; detectionHistory := detectionHistory s;
     instantAlert := instantAlert s; isEmergencyStop := isEmergencyStop s;
     isMonitoring := isMonitoring s; isLoading := b;
     detectionResult := detectionResult s; effects := effects s |}.

Definition setDetectionResult (r : option detection_result) (s : state)
  : state :=
  {| alerts := alerts s; detectionHistory := detectionHistory s;
     instantAlert := instantAlert s; isEmergencyStop := isEmergencyStop s;
     isMonitoring := isMonitoring s; isLoading := isLoading s;
     detectionResult := r; effects := effects s |}.

(** Records a call that leaves the component. *)
Definition perform (e : effect) (s : state) : state :=
  {| alerts := alerts s; detectionHistory := detectionHistory s;
     instantAlert := instantAlert s; isEmergencyStop := isEmergencyStop s;
     isMonitoring := isMonitoring s; isLoading := isLoading s;
     detectionResult := detectionResult s; effects := effects s ++ [e] |}.

Definition new_id (k : string) (pf : platform) : ident :=
  {| kind := k; at_time := Date_now pf; random := Some (Math_random pf) |}.

(** ['Notification' in window && Notification.permission === 'granted']. *)
Definition notification_granted (pf : platform) : bool :=
  match Notification_permission pf with
  | Some Granted => true
  | _ => false
  end.

(** *** The streaming branch of [handleDetection] *)

(** The three [let] variables the callbacks close over. *)
Record run : Type := {
    allDetections : list Detection;
    firstFireFrame : option float;
    totalFramesWithFire : nat
  }.

Definition run_start : run :=
  {| allDetections := []; firstFireFrame := None; totalFramesWithFire := 0 |}.

(** The guard of the frame callback:
    [frameData.has_fire && frameData.detections.length > 0]. *)
Definition fires (frameData : FrameData) : bool :=
  has_fire frameData && Nat.ltb 0 (length (detections frameData)).

(** [!firstFireFrame]: [null], zero and [NaN] are falsy. *)
Definition not_firstFireFrame (o : option float) : bool :=
  match o with
  | None => true
  | Some f => PrimFloat.eqb f 0%float || negb (PrimFloat.eqb f f)
  end.

Section Streaming.

(** The value of [isEmergencyStop] in the render whose [handleDetection]
    is running: the callbacks are closures of that render. *)
Variable captured_isEmergencyStop : bool.
Variable selectedFile_name : string.

(** The [onFrameDetection] callback. *)
Definition onFrameDetection (pf : platform) (frameData : FrameData)
    (rs : run * state) : run * state :=
  let '(r, s) := rs in
  if fires frameData then
    let total := S (totalFramesWithFire r) in
    let first := if not_firstFireFrame (firstFireFrame r)
                 then Some (frame frameData) else firstFireFrame r in
    let avg := average_confidence (detections frameData) in
    let s :=
      if negb captured_isEmergencyStop then
        let alert :=
          {| alert_id := Some (new_id "alert" pf);
             message := FireDetectedInFrame (frame frameData);
             details := DetectionsWithConfidence
                          (length (detections frameData)) avg;
             severity := "high";
             timestamp := toLocaleString pf;
             frameNumber := Some (frame frameData);
             source := None |} in
        let s := if Nat.eqb total 1
                 then perform (PlayFireAlarm 3000) s else s in
        let s := setInstantAlert (Some alert) s in
        let s := setAlerts (cons alert) s in
        if Nat.eqb total 1 && notification_granted pf
        then perform (NewNotification "FIRE DETECTED!"
                        (FireFoundInFrameOf (frame frameData)
                           selectedFile_name)) s
        else s
      else s in
    ({| allDetections := allDetections r ++ detections frameData;
        firstFireFrame := first;
        totalFramesWithFire := total |}, s)
  else (r, s).

(** The [onComplete] callback. *)
Definition onComplete (pf : platform) (rs : run * state) : run * state :=
  let '(r, s) := rs in
  let s := setDetectionResult
             (Some (StreamSummary (allDetections r)
                      (totalFramesWithFire r) (firstFireFrame r))) s in
  let historyItem :=
    {| history_id := new_id "detection" pf;
       history_type := "Fire & Smoke Detection (Streaming)";
       filename := selectedFile_name;
       history_timestamp := toLocaleString pf;
       detected := Nat.ltb 0 (length (allDetections r));
       history_details_of :=
         StreamingDetails (allDetections r) (length (allDetections r))
           (totalFramesWithFire r) (firstFireFrame r)
           (if Nat.ltb 0 (length (allDetections r))
            then average_confidence (allDetections r)
            else 0%float) |} in
  let s := setDetectionHistory (cons historyItem) s in
  (r, setIsLoading false s).

(** The [onError] callback. *)
Definition onError (err : json) (rs : run * state) : run * state :=
  let '(r, s) := rs in
  (r, setIsLoading false (perform (WindowAlert (ErrorDuringStreaming err)) s)).

(** The callbacks the decoder makes, applied in order; the [n]-th one
    reads the platform as [pf n]. [None]: a frame payload outside the
    documented shape. *)
Fixpoint deliver (pf : nat -> platform) (n : nat) (cbs : list callback)
    (rs : run * state) : option (run * state) :=
  match cbs with
  | [] => Some rs
  | cb :: rest =>
      match cb with
      | OnFrameDetection v =>
          match FrameData_of_json v with
          | Some frameData =>
              deliver pf (S n) rest (onFrameDetection (pf n) frameData rs)
          | None => None
          end
      | OnComplete => deliver pf (S n) rest (onComplete (pf n) rs)
      | OnError e => deliver pf (S n) rest (onError e rs)
      | ConsoleError _ => deliver pf (S n) rest rs
      end
  end.

(** The typed frames of a run, handled in order from the [n]-th
    callback on. *)
Fixpoint handle_frames (pf : nat -> platform) (n : nat)
    (frames : list FrameData) (rs : run * state) : run * state :=
  match frames with
  | [] => rs
  | frameData :: rest =>
      handle_frames pf (S n) rest (onFrameDetection (pf n) frameData rs)
  end.

End Streaming.

(** [handleDetection] for a video on the fire-and-smoke tab. *)
Definition handleDetection_streaming (JSON_parse : string -> option json)
    (pf : nat -> platform) (selectedFile_name : string) (r : response)
    (s : state) : option state :=
  let captured := isEmergencyStop s in
  let s := setDetectionResult None (setIsLoading true s) in
  let '(cbs, out) := detectFireSmokeStreaming JSON_parse r in
  match deliver captured selectedFile_name pf 0 cbs (run_start, s) with
  | None => None
  | Some (_, s) =>
      match out with
      | Returned => Some s
      | Thrown _ =>
          Some (setIsLoading false (perform (WindowAlert ErrorProcessingFile) s))
      end
  end.

(** *** The batch branch of [handleDetection] *)

Definition threatDetected (result : batch_result) : bool :=
  match result with
  | FireSmokeResult (Some ds) => Nat.ltb 0 (length ds)
  | FireSmokeResult None => false
  | SatelliteResult (Some w) =>
      (negb (PrimFloat.eqb w 0%float) && PrimFloat.eqb w w)
      && PrimFloat.ltb 0.5%float w
  | SatelliteResult None => false
  end.

Definition batch_details (result : batch_result) : history_details :=
  match result with
  | FireSmokeResult ds =>
      FireSmokeDetails ds
        (match ds with Some l => length l | None => 0 end)
        (match ds with
         | Some l => if Nat.ltb 0 (length l) then average_confidence l
                     else 0%float
         | None => 0%float
         end)
  | SatelliteResult w =>
      SatelliteDetails w
        (match w with
         | Some x => if PrimFloat.ltb 0.7%float x then High
                     else if PrimFloat.ltb 0.5%float x then Medium else Low
         | None => Low
         end)
  end.

Definition batch_alert_details (result : batch_result) : text :=
  match result with
  | FireSmokeResult ds =>
      let l := default [] ds in
      DetectionsWithAvgConfidence (length l)
        (if Nat.ltb 0 (length l) then average_confidence l else 0%float)
  | SatelliteResult w => WildfireProbability (default 0%float w)
  end.

(** The image and satellite branch for the answer [result] of the
    request. [isEmergencyStop] is the flag of the render whose handler
    runs, which is the state [s] the handler starts in. *)
Definition handleDetection_answered (pf : platform) (selectedFile_name : string)
    (result : batch_result) (s : state) : state :=
  let captured := isEmergencyStop s in
  let isFireSmoke := match result with FireSmokeResult _ => true
                                     | SatelliteResult _ => false end in
  let s := setDetectionResult None (setIsLoading true s) in
  let s := setDetectionResult (Some (BatchResult result)) s in
  let historyItem :=
    {| history_id := new_id "detection" pf;
       history_type := if isFireSmoke then "Fire & Smoke Detection"
                       else "Satellite Analysis";
       filename := selectedFile_name;
       history_timestamp := toLocaleString pf;
       detected := threatDetected result;
       history_details_of := batch_details result |} in
  let s := setDetectionHistory (cons historyItem) s in
  let s :=
    if threatDetected result && negb captured then
      let detailsText := batch_alert_details result in
      let alert :=
        {| alert_id := Some (new_id "alert" pf);
           message := if isFireSmoke
                      then FireOrSmokeDetectedIn selectedFile_name
                      else HighWildfireRiskIn selectedFile_name;
           details := detailsText;
           severity := "high";
           timestamp := toLocaleString pf;
           frameNumber := None;
           source := None |} in
      let s := setAlerts (cons alert) s in
      let s := perform (PlayFireAlarm 3000) s in
      let s := setInstantAlert (Some alert) s in
      let note := NewNotification "Wildfire Alert"
                    (AlertWithDetails (message alert) detailsText) in
      match Notification_permission pf with
      | Some Granted => perform note s
      | Some Default =>
          let s := perform RequestPermission s in
          match requestPermission pf with
          | Granted => perform note s
          | _ => s
          end
      | _ => s
      end
    else s in
  setIsLoading false s.

(** [handleDetection] for an image or on the satellite tab; [None] is a
    request that fails, which the [catch] reports. *)
Definition handleDetection_batch (pf : platform) (selectedFile_name : string)
    (answer : option batch_result) (s : state) : state :=
  match answer with
  | Some result => handleDetection_answered pf selectedFile_name result s
  | None =>
      let s := setDetectionResult None (setIsLoading true s) in
      setIsLoading false (perform (WindowAlert ErrorProcessingFile) s)
  end.

(** The batch branch from the answer of the request on. The handler is
    suspended while the request is made: what follows the [await] runs in
    the state [s] of the moment the answer arrives, with the
    [isEmergencyStop] of the render whose handler started the request. *)
Definition handleDetection_settled (captured_isEmergencyStop : bool)
    (pf : platform) (selectedFile_name : string) (result : batch_result)
    (s : state) : state :=
  let isFireSmoke := match result with FireSmokeResult _ => true
                                     | SatelliteResult _ => false end in
  let s := setDetectionResult (Some (BatchResult result)) s in
  let historyItem :=
    {| history_id := new_id "detection" pf;
       history_type := if isFireSmoke then "Fire & Smoke Detection"
                       else "Satellite Analysis";
       filename := selectedFile_name;
       history_timestamp := toLocaleString pf;
       detected := threatDetected result;
       history_details_of := batch_details result |} in
  let s := setDetectionHistory (cons historyItem) s in
  let s :=
    if threatDetected result && negb captured_isEmergencyStop then
      let detailsText := batch_alert_details result in
      let alert :=
        {| alert_id := Some (new_id "alert" pf);
           message := if isFireSmoke
                      then FireOrSmokeDetectedIn selectedFile_name
                      else HighWildfireRiskIn selectedFile_name;
           details := detailsText;
           severity := "high";
           timestamp := toLocaleString pf;
           frameNumber := None;
           source := None |} in
      let s := setAlerts (cons alert) s in
      let s := perform (PlayFireAlarm 3000) s in
      let s := setInstantAlert (Some alert) s in
      let note := NewNotification "Wildfire Alert"
                    (AlertWithDetails (message alert) detailsText) in
      match Notification_permission pf with
      | Some Granted => perform note s
      | Some Default =>
          let s := perform RequestPermission s in
          match requestPermission pf with
          | Granted => perform note s
          | _ => s
          end
      | _ => s
      end
    else s in
  setIsLoading false s.

(** *** The live camera and the satellite alerts *)

(** The [onFireDetected] prop given to [WebcamDetection];
    [captured_isEmergencyStop] is the flag of the render that made the
    closure. *)
Definition onFireDetected (captured_isEmergencyStop : bool) (pf : platform)
    (alert : Alert) (s : state) : state :=
  if negb captured_isEmergencyStop then
    let s := perform (PlayFireAlarm 3000) s in
    let s := setAlerts (cons alert) s in
    let s := setInstantAlert (Some alert) s in
    let historyItem :=
      {| history_id := new_id "detection" pf;
         history_type := "Live Camera Detection";
         filename := "Webcam Feed";
         history_timestamp := timestamp alert;
         detected := true;
         history_details_of := CameraDetails "webcam" (message alert) |} in
    setDetectionHistory (cons historyItem) s
  else s.

(** [handleSatelliteFireDetected(data)], [count] being [data.count]. *)
Definition handleSatelliteFireDetected (pf : platform) (count : float)
    (s : state) : state :=
  let satelliteAlert :=
    {| alert_id := Some {| kind := "satellite-alert"; at_time := Date_now pf;
                           random := None |};
       message := SatelliteAlertHotspots count;
       details := NasaModisDetected;
       severity := "critical";
       timestamp := toLocaleString pf;
       frameNumber := None;
       source := Some "NASA FIRMS" |} in
  let s := setAlerts (cons satelliteAlert) s in
  let s := setInstantAlert (Some satelliteAlert) s in
  let s := perform (PlayFireAlarm 2000) s in
  if notification_granted pf
  then perform (NewNotification "SATELLITE FIRE ALERT"
                  (HotspotsDetectedBySatellite count)) s
  else s.

(** [loadSatelliteAlerts()] from the parsed answer on. *)
Definition loadSatelliteAlerts (pf : platform) (count : float) (s : state)
  : state :=
  if PrimFloat.ltb 0%float count
  then handleSatelliteFireDetected pf count s
  else s.

(** *** Emergency stop, resume, and the clear buttons *)

Definition handleEmergencyStop (s : state) : state :=
  let s := perform StopAlarm s in
  let s := setIsMonitoring false s in
  let s := setInstantAlert None s in
  let s := setIsEmergencyStop true s in
  setIsLoading false s.


(** [prev.filter((_, i) => i !== index)]. *)
Fixpoint remove_at {A : Type} (index : nat) (l : list A) : list A :=
  match l, index with
  | [], _ => []
  | _ :: rest, O => rest
  | x :: rest, S i => x :: remove_at i rest
  end.

Definition handleClearAlert (index : nat) (s : state) : state :=
  setAlerts (remove_at index) s.

Definition handleClearAllAlerts (s : state) : state :=
  setAlerts (fun _ => []) s.

Definition handleClearLog (s : state) : state :=
  setDetectionHistory (fun _ => []) s.

(** How many times the alarm engine was asked to play, and how many
    notifications were shown. *)
Definition is_PlayFireAlarm (e : effect) : bool :=
  match e with PlayFireAlarm _ => true | _ => false end.

Definition is_NewNotification (e : effect) : bool :=
  match e with NewNotification _ _ => true | _ => false end.

Definition alarms (s : state) : nat :=
  length (List.filter is_PlayFireAlarm (effects s)).

Definition notifications (s : state) : nat :=
  length (List.filter is_NewNotification (effects s)).

End App.

(** ** The camera component ([WebcamDetection]) *)

Module Webcam.
Import Str App.

Inductive cameraMode : Type := Local | Network.

(** *** Connecting a network camera *)

(** The handlers [startNetworkCamera] installs on the image element,
    with the constants of the call they close over. *)
Inductive onload_handler : Type :=
  | NoOnload
  | ProxyOnload (captured_hasPermission : bool) (proxyUrl : string)
  | DirectOnload (snapshotUrl : string).

Inductive onerror_handler : Type :=
  | NoOnerror
  | ProxyOnerror (snapshotUrl : string)
  | DirectOnerror (snapshotUrl : string).

(** The function given to [setInterval(..., 500)]. *)
Inductive poller : Type :=
  | RefreshSnapshot (captured_hasPermission : bool) (proxyUrl : string)
  | RefreshDirect (snapshotUrl : string).

Inductive error_message : Type :=
  | EnterValidUrl
  | InvalidUrl
  | ProxyFailedTryingDirect
  | FailedToConnect (snapshotUrl : string)
  | FailedToLoadStream.

Record camera : Type := {
    networkCameraUrl : string;
    hasPermission : bool;
    error : option error_message;
    imgRef : bool;                        (* [imgRef.current] is an element *)
    requests : list string;               (* every value assigned to [img.src] *)
    onload : onload_handler;
    onerror : onerror_handler;
    proxyFailed : bool;
    refreshIntervalRef : option poller
  }.

Definition set_status (hp : bool) (e : option error_message) (c : camera) :=
  {| networkCameraUrl := networkCameraUrl c; hasPermission := hp; error := e;
     imgRef := imgRef c; requests := requests c; onload := onload c;
     onerror := onerror c; proxyFailed := proxyFailed c;
     refreshIntervalRef := refreshIntervalRef c |}.

(** [imgRef.current.src = url]: the element requests [url]. *)
Definition set_src (url : string) (c : camera) :=
  {| networkCameraUrl := networkCameraUrl c; hasPermission := hasPermission c;
     error := error c; imgRef := imgRef c; requests := requests c ++ [url];
     onload := onload c; onerror := onerror c; proxyFailed := proxyFailed c;
     refreshIntervalRef := refreshIntervalRef c |}.

Definition set_handlers (l : onload_handler) (e : onerror_handler)
    (failed : bool) (c : camera) :=
  {| networkCameraUrl := networkCameraUrl c; hasPermission := hasPermission c;
     error := error c; imgRef := imgRef c; requests := requests c;
     onload := l; onerror := e; proxyFailed := failed;
     refreshIntervalRef := refreshIntervalRef c |}.

Definition set_interval (p : option poller) (c : camera) :=
  {| networkCameraUrl := networkCameraUrl c; hasPermission := hasPermission c;
     error := error c; imgRef := imgRef c; requests := requests c;
     onload := onload c; onerror := onerror c; proxyFailed := proxyFailed c;
     refreshIntervalRef := p |}.

(** The snapshot endpoint of the camera at [url]. *)
Definition snapshot_of (url : string) : string :=
  match replace_first "/video" "/shot.jpg" url with
  | Some replaced => replaced
  | None => if endsWith_char "/"%char url then url +:+ "shot.jpg"
            else url +:+ "/shot.jpg"
  end.

Section Connection.

(** [new URL(s)] does not throw; [encodeURIComponent]. *)
Variable URL_valid : string -> bool.
Variable encodeURIComponent : string -> string.

Definition proxy_of (snapshotUrl : string) : string :=
  "http://localhost:8000/proxy/camera?url=" +:+ encodeURIComponent snapshotUrl.

(** [startNetworkCamera()]. *)
Definition startNetworkCamera (c : camera) : camera :=
  if String.eqb (networkCameraUrl c) "" then
    set_status (hasPermission c) (Some EnterValidUrl) c
  else if negb (URL_valid (networkCameraUrl c)) then
    set_status false (Some InvalidUrl) c
  else
    let snapshotUrl := snapshot_of (networkCameraUrl c) in
    let proxyUrl := proxy_of snapshotUrl in
    if imgRef c then
      let c := set_handlers (ProxyOnload (hasPermission c) proxyUrl)
                 (ProxyOnerror snapshotUrl) false c in
      set_src proxyUrl c
    else c.

End Connection.

(** [stopCamera()] in network mode: the handlers are removed, the source
    is cleared and the timer is stopped. *)
Definition stopCamera_network (c : camera) : camera :=
  let c := if imgRef c
           then set_src "" (set_handlers NoOnload NoOnerror (proxyFailed c) c)
           else c in
  set_status false (error c) (set_interval None c).

(** What happens to the image element and the polling timer. *)
Inductive event : Type :=
  | ImgLoad
  | ImgError
  | IntervalTick (timestamp : Z).     (* [new Date().getTime()] at the tick *)

(** The [onError] prop of the [<img>]. *)
Definition img_onError (c : camera) : camera :=
  if hasPermission c then set_status false (Some FailedToLoadStream) c else c.

Definition fire_onload (c : camera) : camera :=
  match onload c with
  | NoOnload => c
  | ProxyOnload hp proxyUrl =>
      let c := set_status true None c in
      match refreshIntervalRef c with
      | None => set_interval (Some (RefreshSnapshot hp proxyUrl)) c
      | Some _ => c
      end
  | DirectOnload snapshotUrl =>
      let c := set_status true None c in
      match refreshIntervalRef c with
      | None => set_interval (Some (RefreshDirect snapshotUrl)) c
      | Some _ => c
      end
  end.

Definition fire_onerror (c : camera) : camera :=
  match onerror c with
  | NoOnerror => c
  | ProxyOnerror snapshotUrl =>
      if negb (proxyFailed c) then
        let c := set_status (hasPermission c) (Some ProxyFailedTryingDirect) c in
        let c := set_src snapshotUrl c in
        set_handlers (DirectOnload snapshotUrl) (DirectOnerror snapshotUrl)
          true c
      else c
  | DirectOnerror snapshotUrl =>
      let c := set_status false (Some (FailedToConnect snapshotUrl)) c in
      set_interval None c
  end.

Definition fire_interval (timestamp : Z) (c : camera) : camera :=
  match refreshIntervalRef c with
  | None => c
  | Some (RefreshSnapshot hp proxyUrl) =>
      if imgRef c && hp
      then set_src (proxyUrl +:+ "&t=" +:+ pretty timestamp) c
      else c
  | Some (RefreshDirect snapshotUrl) =>
      if imgRef c
      then set_src (snapshotUrl +:+ "?t=" +:+ pretty timestamp) c
      else c
  end.

Definition handle (c : camera) (ev : event) : camera :=
  match ev with
  | ImgLoad => fire_onload c
  | ImgError => fire_onerror (img_onError c)
  | IntervalTick t => fire_interval t c
  end.

Definition handle_all (evs : list event) (c : camera) : camera :=
  fold_left handle evs c.

(** The requests [c'] issued after [c]. *)
Definition requests_since (c c' : camera) : list string :=
  drop (length (requests c)) (requests c').

(** A poll of the direct strategy. *)
Definition is_direct_poll (snapshotUrl url : string) : Prop :=
  exists timestamp : Z, url = snapshotUrl +:+ "?t=" +:+ pretty timestamp.

(** The component polls the camera at [snapshotUrl] directly: the handlers
    of the direct connection are installed, and the timer, when it runs,
    runs the direct poller. *)
Definition direct_strategy (snapshotUrl : string) (c : camera) : Prop :=
  imgRef c = true
  /\ onload c = DirectOnload snapshotUrl
  /\ onerror c = DirectOnerror snapshotUrl
  /\ (refreshIntervalRef c = None
      \/ refreshIntervalRef c = Some (RefreshDirect snapshotUrl)).

(** *** The capture loop *)

Record stats : Type := {
    framesProcessed : nat;
    fireDetections : nat;
    lastDetection : option string;
    fps : nat
  }.

Definition stats_initial : stats :=
  {| framesProcessed := 0; fireDetections := 0; lastDetection := None;
     fps := 0 |}.

(** The elements the tick reads: the canvas, the video with its
    [readyState], the image with [complete] and its natural size. *)
Record elements : Type := {
    canvasRef : bool;
    videoRef : option nat;
    imageRef : option (bool * nat)
  }.

(** The answer of [/detect/frame]. *)
Record frame_result : Type := {
    result_has_fire : bool;
    result_detections : option (list Detection)
  }.

(** What the [try] block meets: drawing or encoding the frame throws,
    the request fails, or the request answers. *)
Inductive attempt : Type :=
  | CaptureThrows
  | RequestFails
  | Answers (result : frame_result).

Definition source_ready (mode : cameraMode) (els : elements) : bool :=
  canvasRef els &&
  match mode, videoRef els, imageRef els with
  | Local, Some readyState, _ => Nat.leb 2 readyState
  | Network, _, Some (complete, naturalWidth) =>
      complete && Nat.ltb 0 naturalWidth
  | _, _, _ => false
  end.

(** The updater given to [setStats] after an answer. *)
Definition update_stats (pf : platform) (result : frame_result) (prev : stats)
  : stats :=
  {| framesProcessed := framesProcessed prev + 1;
     fireDetections := if result_has_fire result
                       then fireDetections prev + 1 else fireDetections prev;
     lastDetection := if result_has_fire result
                      then Some (toLocaleTimeString pf) else lastDetection prev;
     fps := fps prev |}.

Definition camera_alert (mode : cameraMode) (pf : platform)
    (ds : list Detection) : Alert :=
  {| alert_id := None;
     message := FireDetectedInCamera
                  (match mode with Local => false | Network => true end);
     details := DetectionsWithConfidence (length ds) (average_confidence ds);
     severity := "high";
     timestamp := toLocaleString pf;
     frameNumber := None;
     source := Some (match mode with
                     | Local => "webcam"
                     | Network => "network-camera"
                     end) |}.

(** [captureAndDetect()]: the new statistics, and the alert handed to
    [onFireDetected] when there is one. *)
Definition captureAndDetect (mode : cameraMode) (pf : platform)
    (els : elements) (att : attempt) (st : stats) : stats * option Alert :=
  if source_ready mode els then
    match att with
    | CaptureThrows | RequestFails => (st, None)
    | Answers result =>
        (update_stats pf result st,
         match result_detections result with
         | Some ds =>
             if result_has_fire result && Nat.ltb 0 (length ds)
             then Some (camera_alert mode pf ds) else None
         | None => None
         end)
    end
  else (st, None).

(** [startMonitoring]'s [setStats(prev => ({ ...prev, fps: 1 }))]. *)
Definition start_stats (prev : stats) : stats :=
  {| framesProcessed := framesProcessed prev;
     fireDetections := fireDetections prev;
     lastDetection := lastDetection prev; fps := 1 |}.

(** One tick of the capture timer: what it reads and meets. *)
Record tick : Type := {
    tick_platform : platform;
    tick_elements : elements;
    tick_attempt : attempt
  }.

Definition tick_stats (mode : cameraMode) (st : stats) (t : tick) : stats :=
  fst (captureAndDetect mode (tick_platform t) (tick_elements t)
         (tick_attempt t) st).

Definition monitor (mode : cameraMode) (ticks : list tick) (st : stats)
  : stats :=
  fold_left (tick_stats mode) ticks st.

(** A tick with the component that hosts the camera:
    [captured_isEmergencyStop] is the flag in the closure of the
    [onFireDetected] prop the timer calls. *)
Definition tick_app (captured_isEmergencyStop : bool) (mode : cameraMode)
    (t : tick) (ss : stats * state) : stats * state :=
  let '(st, s) := ss in
  match captureAndDetect mode (tick_platform t) (tick_elements t)
          (tick_attempt t) st with
  | (st, Some alert) =>
      (st, onFireDetected captured_isEmergencyStop (tick_platform t) alert s)
  | (st, None) => (st, s)
  end.

End Webcam.

(** ** JSON text ([JSON.stringify] and [JSON.parse])

    The two platform functions on the values of [json], after ECMA-262:
    [stringify] writes a value without indentation, [parse] reads a text.
    The decimal text of a number is the platform's ([Number::toString]
    and the value of a numeric literal): the two conversions are
    variables. Text is a string of 8-bit code units; objects whose keys
    are array indices, which JavaScript enumerates first, are outside the
    model. *)

Module JsonText.
Import Str.

(** The double quote and the backslash. *)
Definition dq : ascii := ascii_of_nat 34.
Definition backslash : ascii := ascii_of_nat 92.

Definition hex_digits : list ascii :=
  ["0"; "1"; "2"; "3"; "4"; "5"; "6"; "7"; "8"; "9";
   "a"; "b"; "c"; "d"; "e"; "f"]%char.

Definition hex (n : nat) : ascii := nth n hex_digits "0"%char.

(** [QuoteJSONString] on one code unit. *)
Definition escape_char (c : ascii) : string :=
  if Ascii.eqb c dq then String backslash (String dq "")
  else if Ascii.eqb c backslash then String backslash (String backslash "")
  else
    let n := nat_of_ascii c in
    if Nat.ltb n 32 then
      match n with
      | 8 => String backslash "b"
      | 9 => String backslash "t"
      | 10 => String backslash "n"
      | 12 => String backslash "f"
      | 13 => String backslash "r"
      | _ => String backslash "u00"
             +:+ String (hex (n / 16)) (String (hex (n mod 16)) "")
      end
    else String c "".

Fixpoint escape (s : string) : string :=
  match s with
  | EmptyString => EmptyString
  | String c s' => escape_char c +:+ escape s'
  end.

Definition quote (s : string) : string :=
  String dq (escape s +:+ String dq "").

(** [l.join(sep)]. *)
Fixpoint join (sep : string) (l : list string) : string :=
  match l with
  | [] => EmptyString
  | [x] => x
  | x :: rest => x +:+ sep +:+ join sep rest
  end.

(** The IEEE 754 datum of a number says whether it is finite. *)
Definition finite (x : float) : bool :=
  match FloatOps.Prim2SF x with
  | SpecFloat.S754_finite _ _ _ | SpecFloat.S754_zero _ => true
  | _ => false
  end.

(** A number that a JSON text carries unchanged: finite, and not the
    negative zero (which is written as [0]). *)
Definition storable_number (x : float) : bool :=
  match FloatOps.Prim2SF x with
  | SpecFloat.S754_finite _ _ _ => true
  | SpecFloat.S754_zero s => negb s
  | _ => false
  end.

(** White space, and the characters of a numeric literal. *)
Definition is_ws (c : ascii) : bool :=
  Ascii.eqb c " " || Ascii.eqb c "009" || Ascii.eqb c "010"
  || Ascii.eqb c "013".

Fixpoint skip_ws (s : string) : string :=
  match s with
  | EmptyString => EmptyString
  | String c s' => if is_ws c then skip_ws s' else s
  end.

Definition is_digit (c : ascii) : bool :=
  Nat.leb 48 (nat_of_ascii c) && Nat.leb (nat_of_ascii c) 57.

Definition is_number_char (c : ascii) : bool :=
  is_digit c || Ascii.eqb c "-" || Ascii.eqb c "+" || Ascii.eqb c "."
  || Ascii.eqb c "e" || Ascii.eqb c "E".

Fixpoint all_number_chars (s : string) : bool :=
  match s with
  | EmptyString => true
  | String c s' => is_number_char c && all_number_chars s'
  end.

(** What may follow a value in a text: no character that would extend a
    numeric token. *)
Definition follows (rest : string) : bool :=
  match rest with
  | EmptyString => true
  | String c _ => negb (is_number_char c)
  end.

(** The longest numeric token at the head of a text, and what follows. *)
Fixpoint span_number (s : string) : string * string :=
  match s with
  | EmptyString => (EmptyString, EmptyString)
  | String c s' =>
      if is_number_char c
      then let (tok, rest) := span_number s' in (String c tok, rest)
      else (EmptyString, s)
  end.

Definition hex_value (c : ascii) : option nat :=
  let n := nat_of_ascii c in
  if Nat.leb 48 n && Nat.leb n 57 then Some (n - 48)
  else if Nat.leb 97 n && Nat.leb n 102 then Some (n - 87)
  else if Nat.leb 65 n && Nat.leb n 70 then Some (n - 55)
  else None.

(** The escape [\uXXXX] for a code unit below 256: the model has no
    other. *)
Definition unicode_escape (h1 h2 h3 h4 : ascii) : option ascii :=
  match hex_value h1, hex_value h2, hex_value h3, hex_value h4 with
  | Some 0, Some 0, Some a, Some b => Some (ascii_of_nat (16 * a + b))
  | _, _, _, _ => None
  end.

(** The code units of a string literal from behind its opening quote to
    its closing quote, and what follows the literal. A control character
    or a bad escape is a [SyntaxError]. *)
Fixpoint parse_chars (s : string) : option (string * string) :=
  match s with
  | EmptyString => None
  | String c s' =>
      if Ascii.eqb c dq then Some (EmptyString, s')
      else if Ascii.eqb c backslash then
        match s' with
        | EmptyString => None
        | String e s'' =>
            if Ascii.eqb e "u" then
              match s'' with
              | String h1 (String h2 (String h3 (String h4 rest))) =>
                  match unicode_escape h1 h2 h3 h4, parse_chars rest with
                  | Some x, Some (str, after) => Some (String x str, after)
                  | _, _ => None
                  end
              | _ => None
              end
            else
              let unescaped :=
                if Ascii.eqb e dq then Some dq
                else if Ascii.eqb e backslash then Some backslash
                else if Ascii.eqb e "/" then Some "/"%char
                else if Ascii.eqb e "b" then Some "008"%char
                else if Ascii.eqb e "f" then Some "012"%char
                else if Ascii.eqb e "n" then Some "010"%char
                else if Ascii.eqb e "r" then Some "013"%char
                else if Ascii.eqb e "t" then Some "009"%char
                else None in
              match unescaped, parse_chars s'' with
              | Some x, Some (str, after) => Some (String x str, after)
              | _, _ => None
              end
        end
      else if Nat.ltb (nat_of_ascii c) 32 then None
      else
        match parse_chars s' with
        | Some (str, after) => Some (String c str, after)
        | None => None
        end
  end.

(** [obj[k] = v] on the properties read so far: a repeated key keeps its
    place and takes the later value. *)
Definition set_field (fields : list (string * json)) (kv : string * json)
  : list (string * json) :=
  if existsb (fun f => String.eqb (fst f) (fst kv)) fields
  then map (fun f => if String.eqb (fst f) (fst kv) then kv else f) fields
  else fields ++ [kv].

Section Numbers.

(** [Number::toString(x)] for a finite [x], and the value of a numeric
    token ([None]: the token is no numeric literal). *)
Variable Number_toString : float -> string.
Variable Number_parse : string -> option float.

(** [JSON.stringify(v)]. *)
Fixpoint stringify (v : json) : string :=
  match v with
  | JNull => "null"
  | JBool b => if b then "true" else "false"
  | JNum x => if finite x then Number_toString x else "null"
  | JStr s => quote s
  | JArr items => "[" +:+ join "," (map stringify items) +:+ "]"
  | JObj fields =>
      "{" +:+ join ","
                (map (fun kv => let (k, x) := kv : string * json in
                                quote k +:+ ":" +:+ stringify x)
                   fields) +:+ "}"
  end.

(** The parser, by recursive descent; [fuel] bounds the depth of the
    calls, and the length of the text is always enough. *)
Fixpoint parse_value (fuel : nat) (s : string) {struct fuel}
  : option (json * string) :=
  match fuel with
  | O => None
  | S fuel =>
      match skip_ws s with
      | EmptyString => None
      | String c s' =>
          if Ascii.eqb c dq then
            match parse_chars s' with
            | Some (str, rest) => Some (JStr str, rest)
            | None => None
            end
          else if Ascii.eqb c "[" then
            if startsWith "]" (skip_ws s')
            then Some (JArr [], substring_from 1 (skip_ws s'))
            else match parse_elements fuel s' with
                 | Some (items, rest) => Some (JArr items, rest)
                 | None => None
                 end
          else if Ascii.eqb c "{" then
            if startsWith "}" (skip_ws s')
            then Some (JObj [], substring_from 1 (skip_ws s'))
            else match parse_members fuel s' with
                 | Some (members, rest) =>
                     Some (JObj (fold_left set_field members []), rest)
                 | None => None
                 end
          else if startsWith "null" (String c s')
          then Some (JNull, substring_from 3 s')
          else if startsWith "true" (String c s')
          then Some (JBool true, substring_from 3 s')
          else if startsWith "false" (String c s')
          then Some (JBool false, substring_from 4 s')
          else
            match span_number (String c s') with
            | (EmptyString, _) => None
            | (tok, rest) =>
                match Number_parse tok with
                | Some x => Some (JNum x, rest)
                | None => None
                end
            end
      end
  end
with parse_elements (fuel : nat) (s : string) {struct fuel}
  : option (list json * string) :=
  match fuel with
  | O => None
  | S fuel =>
      match parse_value fuel s with
      | Some (v, rest) =>
          match skip_ws rest with
          | EmptyString => None
          | String c rest' =>
              if Ascii.eqb c "," then
                match parse_elements fuel rest' with
                | Some (items, after) => Some (v :: items, after)
                | None => None
                end
              else if Ascii.eqb c "]" then Some ([v], rest')
              else None
          end
      | None => None
      end
  end
with parse_members (fuel : nat) (s : string) {struct fuel}
  : option (list (string * json) * string) :=
  match fuel with
  | O => None
  | S fuel =>
      match skip_ws s with
      | EmptyString => None
      | String q s' =>
          if Ascii.eqb q dq then
            match parse_chars s' with
            | Some (k, rest) =>
                match skip_ws rest with
                | EmptyString => None
                | String colon rest' =>
                    if Ascii.eqb colon ":" then
                      match parse_value fuel rest' with
                      | Some (v, rest'') =>
                          match skip_ws rest'' with
                          | EmptyString => None
                          | String c after =>
                              if Ascii.eqb c "," then
                                match parse_members fuel after with
                                | Some (members, final) =>
                                    Some ((k, v) :: members, final)
                                | None => None
                                end
                              else if Ascii.eqb c "}"
                              then Some ([(k, v)], after)
                              else None
                          end
                      | None => None
                      end
                    else None
                end
            | None => None
            end
          else None
      end
  end.

(** [JSON.parse(text)]; [None] is a [SyntaxError]. *)
Definition parse (text : string) : option json :=
  match parse_value (S (String.length text)) text with
  | Some (v, rest) =>
      match skip_ws rest with
      | EmptyString => Some v
      | String _ _ => None
      end
  | None => None
  end.

(** What the platform promises of the two conversions: the text of a
    storable number is a numeric token that reads back as the number. *)
Definition number_text_law : Prop :=
  forall x : float,
    storable_number x = true ->
    Number_toString x <> EmptyString
    /\ all_number_chars (Number_toString x) = true
    /\ Number_parse (Number_toString x) = Some x.

End Numbers.

(** The numbers of a value, and the keys of its objects. *)
Fixpoint numbers (v : json) : list float :=
  match v with
  | JNum x => [x]
  | JArr items => flat_map numbers items
  | JObj fields => flat_map (fun kv => numbers (snd kv)) fields
  | _ => []
  end.

(** A key that is no array index, and the keys of the objects of a
    value: none is an index, and no object repeats one. *)
Definition plain_key (k : string) : bool :=
  match k with
  | EmptyString => true
  | String c _ => negb (is_digit c)
  end.

Fixpoint distinct (keys : list string) : bool :=
  match keys with
  | [] => true
  | k :: rest => negb (existsb (String.eqb k) rest) && distinct rest
  end.

Fixpoint plain_keys (v : json) : bool :=
  match v with
  | JArr items => forallb plain_keys items
  | JObj fields =>
      forallb plain_key (map fst fields) && distinct (map fst fields)
      && forallb (fun kv => plain_keys (snd kv)) fields
  | _ => true
  end.

(** A size that bounds the fuel the parser needs. *)
Fixpoint size (v : json) : nat :=
  match v with
  | JArr items => S (list_sum (map (fun x => S (size x)) items))
  | JObj fields => S (list_sum (map (fun kv => S (size (snd kv))) fields))
  | _ => 1
  end.

End JsonText.

(** ** A number text to run the examples with

    The integer mantissa and the binary exponent of the number, both in
    decimal. It is not the decimal text a browser writes, but it keeps
    what the platform promises of that text, which is all the parser asks
    of the two conversions. *)

Module BinaryText.

Definition toString (x : float) : string :=
  match FloatOps.Prim2SF x with
  | SpecFloat.S754_finite s m e =>
      (if s then "-" else "")
      +:+ DecimalString.NilEmpty.string_of_uint (Pos.to_uint m)
      +:+ String "e" (DecimalString.NilEmpty.string_of_int (Z.to_int e))
  | _ => "0"
  end.

(** The text before the first [e], and the text behind it. *)
Fixpoint split_e (s : string) : string * option string :=
  match s with
  | EmptyString => (EmptyString, None)
  | String c s' =>
      if Ascii.eqb c "e" then (EmptyString, Some s')
      else let (before, behind) := split_e s' in (String c before, behind)
  end.

Definition of_parts (negative : bool) (body : string) : option float :=
  match split_e body with
  | (digits, None) =>
      if String.eqb digits "0" && negb negative then Some 0%float else None
  | (digits, Some exponent) =>
      match DecimalString.NilEmpty.uint_of_string digits,
            DecimalString.NilEmpty.int_of_string exponent with
      | Some d, Some i =>
          match Pos.of_uint d with
          | Npos m =>
              Some (FloatOps.SF2Prim
                      (SpecFloat.S754_finite negative m (Z.of_int i)))
          | N0 => None
          end
      | _, _ => None
      end
  end.

Definition parse (token : string) : option float :=
  match token with
  | EmptyString => None
  | String c body =>
      if Ascii.eqb c "-" then of_parts true body else of_parts false token
  end.

End BinaryText.

(** ** Persistence of the two lists ([localStorage]) *)

Module Storage.
Import Api App.

Definition alerts_key : string := "wildfire-alerts".
Definition history_key : string := "wildfire-detection-history".

Section Codec.

(** [JSON.stringify] and [JSON.parse] ([None]: it throws), and the
    text a template literal renders to. *)
Variable JSON_stringify : json -> string.
Variable JSON_parse : string -> option json.
Variable show : text -> string.

(** The property [k] of an object literal, absent when the value is
    not there. *)
Definition field {A : Type} (k : string) (f : A -> json) (o : option A)
  : list (string * json) :=
  match o with
  | Some x => [(k, f x)]
  | None => []
  end.

Definition ident_json (i : ident) : json :=
  JStr (kind i +:+ "-" +:+ pretty (at_time i) +:+
        match random i with Some r => "-" +:+ r | None => "" end).

Definition Detection_json (d : Detection) : json :=
  JObj [("class", JStr (class d)); ("confidence", JNum (confidence d))].

Definition detections_json (ds : list Detection) : json :=
  JArr (map Detection_json ds).

(** The JavaScript object an alert is. *)
Definition Alert_json (a : Alert) : json :=
  JObj (field "id" ident_json (alert_id a) ++
        [("message", JStr (show (message a)));
         ("details", JStr (show (details a)));
         ("severity", JStr (severity a));
         ("timestamp", JStr (timestamp a))] ++
        field "frameNumber" JNum (frameNumber a) ++
        field "source" JStr (source a)).

Definition of_nat_json (n : nat) : json := JNum (of_nat n).

Definition details_json (d : history_details) : json :=
  match d with
  | StreamingDetails ds n frames first avg =>
      JObj [("detections", detections_json ds);
            ("detectionCount", of_nat_json n);
            ("framesWithFire", of_nat_json frames);
            ("firstFireFrame",
             match first with Some f => JNum f | None => JNull end);
            ("avgConfidence", JNum avg)]
  | FireSmokeDetails ds n avg =>
      JObj (field "detections" detections_json ds ++
            [("detectionCount", of_nat_json n);
             ("avgConfidence", JNum avg)])
  | SatelliteDetails w risk =>
      JObj (field "wildfireProb" JNum w ++
            [("riskLevel",
              JStr match risk with
                   | High => "High" | Medium => "Medium" | Low => "Low"
                   end)])
  | CameraDetails src msg =>
      JObj [("source", JStr src); ("message", JStr (show msg))]
  end.

(** The value the handlers put in [detected]. A batch run stores
    [threatDetected], which is [a && b]: nothing ([undefined]) when the
    answer lacks the field tested first, that number when the probability
    is falsy, and the boolean otherwise; the other handlers store a
    boolean. *)
Definition detected_value (h : HistoryItem) : option json :=
  match history_details_of h with
  | FireSmokeDetails None _ _ | SatelliteDetails None _ => None
  | SatelliteDetails (Some w) _ =>
      if truthy (JNum w) then Some (JBool (detected h)) else Some (JNum w)
  | _ => Some (JBool (detected h))
  end.

(** The JavaScript object a history item is. *)
Definition HistoryItem_json (h : HistoryItem) : json :=
  JObj ([("id", ident_json (history_id h));
         ("type", JStr (history_type h));
         ("filename", JStr (filename h));
         ("timestamp", JStr (history_timestamp h))] ++
        field "detected" (fun v : json => v) (detected_value h) ++
        [("details", details_json (history_details_of h))]).

Definition alerts_json (al : list Alert) : json :=
  JArr (map Alert_json al).

Definition history_json (hs : list HistoryItem) : json :=
  JArr (map HistoryItem_json hs).

(** The two [useEffect]s: each list is written under its key whenever
    it changes. *)
Definition save_alerts (al : list Alert) (ls : gmap string string)
  : gmap string string :=
  <[alerts_key := JSON_stringify (alerts_json al)]> ls.

Definition save_history (hs : list HistoryItem) (ls : gmap string string)
  : gmap string string :=
  <[history_key := JSON_stringify (history_json hs)]> ls.

Definition save (s : state) (ls : gmap string string)
  : gmap string string :=
  save_history (detectionHistory s) (save_alerts (alerts s) ls).

(** The initializer of [useState]:
    [saved ? JSON.parse(saved) : []], [saved] being
    [localStorage.getItem(key)]. [None]: [JSON.parse] throws. *)
Definition restore (key : string) (ls : gmap string string) : option json :=
  match ls !! key with
  | Some saved =>
      if negb (String.eqb saved "") then JSON_parse saved
      else Some (JArr [])
  | None => Some (JArr [])
  end.

End Codec.

(** What the page reads of a restored alert and of a restored history
    item: its properties, by name. *)
Definition Alert_fields (o : json) : list (option json) :=
  map (prop o)
    ["id"; "message"; "details"; "severity"; "timestamp"; "frameNumber";
     "source"].

Definition HistoryItem_fields (o : json) : list (option json) :=
  map (prop o) ["id"; "type"; "filename"; "timestamp"; "detected"; "details"].

End Storage.

(** ** Sample payloads *)

Module Sample.
Import Str Api App.

(** The double quote, and a quoted name. *)
Definition dq : string := String (ascii_of_nat 34) "".
Definition quoted (s : string) : string := dq +:+ s +:+ dq.

Definition fire_text (n confidence : string) : string :=
  "{" +:+ quoted "frame" +:+ ":" +:+ n +:+ "," +:+
  quoted "has_fire" +:+ ":true," +:+
  quoted "detections" +:+ ":[{" +:+ quoted "class" +:+ ":" +:+
  quoted "fire" +:+ "," +:+ quoted "confidence" +:+ ":" +:+ confidence +:+
  "}]}".

Definition fire_value (n confidence : float) : json :=
  JObj [("frame", JNum n); ("has_fire", JBool true);
        ("detections",
         JArr [JObj [("class", JStr "fire");
                     ("confidence", JNum confidence)]])].

Definition frame1_text : string := fire_text "1" "0.9".
Definition frame1_value : json := fire_value 1%float 0.9%float.
Definition frame2_text : string := fire_text "2" "0.8".
Definition frame2_value : json := fire_value 2%float 0.8%float.

Definition done_text : string := "{" +:+ quoted "done" +:+ ":true}".
Definition done_value : json := JObj [("done", JBool true)].

Definition error_text : string :=
  "{" +:+ quoted "error" +:+ ":" +:+ quoted "model failed" +:+ "}".
Definition error_value : json := JObj [("error", JStr "model failed")].

(** A parser that knows the sample texts and rejects every other. *)
Definition parse_samples (s : string) : option json :=
  assoc s [(frame1_text, frame1_value); (frame2_text, frame2_value);
           (done_text, done_value); (error_text, error_value)].

(** A stream of two events cut inside the first payload and between the
    two line feeds of the first delimiter. *)
Definition cut_stream : list string :=
  [ "data: {";
    substring_from 1 frame1_text +:+ String LF "";
    String LF "" +:+ encode_event done_text ].

(** A run of ten frames with fire in frames 2, 5 and 9. *)
Definition quiet_frame (n : float) : FrameData :=
  {| frame := n; total_frames := Some 10%float; has_fire := false;
     detections := [] |}.

Definition fire_frame (n : float) : FrameData :=
  {| frame := n; total_frames := Some 10%float; has_fire := true;
     detections := [{| class := "fire"; confidence := 0.9%float |}] |}.

Definition ten_frames : list FrameData :=
  [quiet_frame 1; fire_frame 2; quiet_frame 3; quiet_frame 4; fire_frame 5;
   quiet_frame 6; quiet_frame 7; quiet_frame 8; fire_frame 9; quiet_frame 10].

(** The scenario stream in one chunk. *)
Definition scenario_stream : list string :=
  [encode_events [frame1_text; frame2_text; done_text]].

(** An alert of the camera component. *)
Definition camera_alert0 : Alert :=
  {| alert_id := None; message := FireDetectedInCamera false;
     details := DetectionsWithConfidence 1 0.9%float; severity := "high";
     timestamp := "1/1/2026, 12:00:00 PM"; frameNumber := None;
     source := Some "webcam" |}.


(** A camera component in network mode, with a URL typed in and nothing
    connected. *)
Definition camera0 : Webcam.camera :=
  {| Webcam.networkCameraUrl := "http://192.168.1.100:8080";
     Webcam.hasPermission := false; Webcam.error := None;
     Webcam.imgRef := true; Webcam.requests := [];
     Webcam.onload := Webcam.NoOnload; Webcam.onerror := Webcam.NoOnerror;
     Webcam.proxyFailed := false; Webcam.refreshIntervalRef := None |}.

(** A validity test and an encoder to run the connection with: the URL
    names the [http] scheme, and nothing is escaped. *)
Definition http_url (s : string) : bool := startsWith "http://" s.
Definition unescaped (s : string) : string := s.

(** The state after one live-camera detection on a fresh page: one alert
    and one history item. *)
Definition camera_state : state :=
  onFireDetected false
    {| Date_now := 1700000000000; Math_random := "k3j9x2m1q";
       toLocaleString := "1/1/2026, 12:00:00 PM";
       toLocaleTimeString := "12:00:00 PM";
       Notification_permission := None; requestPermission := Denied |}
    camera_alert0 (initial [] []).

(** A rendering of the camera texts. *)
Definition show_sample (t : text) : string :=
  match t with
  | FireDetectedInCamera false => "FIRE DETECTED in webcam!"
  | FireDetectedInCamera true => "FIRE DETECTED in network camera!"
  | DetectionsWithConfidence _ _ => "1 detection(s) with 90.0% confidence"
  | _ => "text"
  end.

(** Ticks of the capture loop: an answer with fire, a failed request. *)
Definition elements_ready : Webcam.elements :=
  {| Webcam.canvasRef := true; Webcam.videoRef := Some 4;
     Webcam.imageRef := None |}.

Definition platform0 : platform :=
  {| Date_now := 1700000000000; Math_random := "k3j9x2m1q";
     toLocaleString := "1/1/2026, 12:00:00 PM";
     toLocaleTimeString := "12:00:00 PM";
     Notification_permission := Some Granted;
     requestPermission := Granted |}.

Definition tick_fire : Webcam.tick :=
  {| Webcam.tick_platform := platform0;
     Webcam.tick_elements := elements_ready;
     Webcam.tick_attempt :=
       Webcam.Answers
         {| Webcam.result_has_fire := true;
            Webcam.result_detections :=
              Some [{| class := "fire"; confidence := 0.9%float |}] |} |}.

Definition tick_failed : Webcam.tick :=
  {| Webcam.tick_platform := platform0;
     Webcam.tick_elements := elements_ready;
     Webcam.tick_attempt := Webcam.RequestFails |}.

End Sample.

(** ** The alert panel ([src/components/AlertStatus.jsx]) *)

Module AlertStatus.
Import App.

Section Active.

(** [new Date(text).getTime()]: milliseconds, [NaN] for a text that is no
    date. *)
Variable Date_getTime : string -> float.

(** The test of the [filter] that makes [activeAlerts]; [now] is
    [new Date().getTime()]. *)
Definition is_active (now : float) (alert : Alert) : bool :=
  PrimFloat.ltb (now - Date_getTime (timestamp alert))%float 30000%float
  || String.eqb (severity alert) "high".

Definition activeAlerts (now : float) (alerts : list Alert) : list Alert :=
  List.filter (is_active now) alerts.

(** [alerts.slice(activeAlerts.length)], shown as the older alerts. *)
Definition olderAlerts (now : float) (alerts : list Alert) : list Alert :=
  drop (length (activeAlerts now alerts)) alerts.

End Active.

(** [clearAllAlerts()]: after the confirmation, [onClearAlert(index)] for
    every index of the [alerts] prop, which is the ledger of the state;
    [onClearAlert] is [handleClearAlert], whose updates apply in turn. *)
Definition clearAllAlerts (confirmed : bool) (s : state) : state :=
  if confirmed
  then fold_left (fun s index => handleClearAlert index s)
         (seq 0 (length (alerts s))) s
  else s.

(** The elements at the positions 1, 3, 5, ... of a list. *)
Fixpoint odd_positions {A : Type} (l : list A) : list A :=
  match l with
  | _ :: x :: rest => x :: odd_positions rest
  | _ => []
  end.

End AlertStatus.

(** ** The detection log ([src/components/DetectionLog.jsx]) *)

Module DetectionLog.
Import Str App.

(** [s.toLowerCase()] on the letters A to Z; the other code units are
    kept. *)
Definition lower (c : ascii) : ascii :=
  let n := nat_of_ascii c in
  if Nat.leb 65 n && Nat.leb n 90 then ascii_of_nat (n + 32) else c.

Fixpoint toLowerCase (s : string) : string :=
  match s with
  | EmptyString => EmptyString
  | String c s' => String (lower c) (toLowerCase s')
  end.

(** [s.includes(pat)]. *)
Fixpoint includes (pat s : string) : bool :=
  startsWith pat s
  || match s with
     | EmptyString => false
     | String _ s' => includes pat s'
     end.

(** The test of the [filter] that makes [filteredHistory]. *)
Definition keeps (filterType : string) (item : HistoryItem) : bool :=
  if String.eqb filterType "all" then true
  else if String.eqb filterType "threats-only" then detected item
  else includes filterType (toLowerCase (history_type item)).

Definition filteredHistory (filterType : string) (hs : list HistoryItem)
  : list HistoryItem :=
  List.filter (keeps filterType) hs.

Definition threatCount (hs : list HistoryItem) : nat :=
  length (List.filter detected hs).

Definition safeCount (hs : list HistoryItem) : nat :=
  length hs - threatCount hs.

(** [toggleExpand(index)]. *)
Definition toggleExpand (index : nat) (expandedIndex : option nat)
  : option nat :=
  match expandedIndex with
  | Some i => if Nat.eqb i index then None else Some index
  | None => Some index
  end.

(** [clearLog()], [onClearLog] being [handleClearLog]. *)
Definition clearLog (confirmed : bool) (s : state) : state :=
  if confirmed then handleClearLog s else s.

End DetectionLog.

(** ** The result card ([src/components/DetectionResult.jsx]) *)

Module DetectionResult.
Import App.

(** [hasDetections] of [renderFireSmokeResult], on [result.detections]. *)
Definition hasDetections (ds : option (list Detection)) : bool :=
  Nat.ltb 0 (length (default [] ds)).

(** [isHighRisk] of [renderSatelliteResult]: [result.wildfire || 0]
    compared with one half. *)
Definition isHighRisk (wildfire : option float) : bool :=
  let wildfireProb :=
    match wildfire with
    | Some w => if negb (PrimFloat.eqb w 0%float) && PrimFloat.eqb w w
                then w else 0%float
    | None => 0%float
    end in
  PrimFloat.ltb 0.5%float wildfireProb.

(** The [type] prop of the card: the tab the page shows when the card is
    rendered. *)
Inductive tab : Type := FireSmokeTab | SatelliteTab.

(** [activeTab] when the handler of the run started: [isFireSmoke] decides
    which request is made. *)
Definition run_tab (result : batch_result) : tab :=
  match result with
  | FireSmokeResult _ => FireSmokeTab
  | SatelliteResult _ => SatelliteTab
  end.

Definition other_tab (t : tab) : tab :=
  match t with
  | FireSmokeTab => SatelliteTab
  | SatelliteTab => FireSmokeTab
  end.

(** [result.detections] and [result.wildfire] of the stored result,
    [None] standing for [undefined]. *)
Definition stored_detections (result : detection_result)
  : option (list Detection) :=
  match result with
  | StreamSummary ds _ _ => Some ds
  | BatchResult (FireSmokeResult ds) => ds
  | BatchResult (SatelliteResult _) => None
  end.

Definition stored_wildfire (result : detection_result) : option float :=
  match result with
  | BatchResult (SatelliteResult w) => w
  | _ => None
  end.

(** Whether the card rendered for [result] announces a threat: the
    renderer is chosen by the [type] prop, not by the result. *)
Definition shows_threat (type : tab) (result : detection_result) : bool :=
  match type with
  | FireSmokeTab => hasDetections (stored_detections result)
  | SatelliteTab => isHighRisk (stored_wildfire result)
  end.

End DetectionResult.

(** ** The camera component: camera and monitoring controls *)

Module Monitoring.
Import App Webcam.

(** The component around the network connection: the selected mode, the
    local stream (the number of its tracks that are live) and whether the
    video element shows it, the capture timer held in [intervalRef], and
    the interval timers of the page that are running. *)
Record component : Type := {
  mode : cameraMode;
  network : camera;
  streamRef : option nat;
  video_srcObject : bool;
  intervalRef : option nat;
  running : list nat;
  next_timer : nat;
  statistics : stats
}.

Definition with_network (c : camera) (w : component) : component :=
  {| mode := mode w; network := c; streamRef := streamRef w;
     video_srcObject := video_srcObject w; intervalRef := intervalRef w;
     running := running w; next_timer := next_timer w;
     statistics := statistics w |}.

Definition with_stream (st : option nat) (shown : bool) (w : component)
  : component :=
  {| mode := mode w; network := network w; streamRef := st;
     video_srcObject := shown; intervalRef := intervalRef w;
     running := running w; next_timer := next_timer w;
     statistics := statistics w |}.

Definition with_timer (ref : option nat) (timers : list nat) (next : nat)
    (w : component) : component :=
  {| mode := mode w; network := network w; streamRef := streamRef w;
     video_srcObject := video_srcObject w; intervalRef := ref;
     running := timers; next_timer := next; statistics := statistics w |}.

Definition with_statistics (st : stats) (w : component) : component :=
  {| mode := mode w; network := network w; streamRef := streamRef w;
     video_srcObject := video_srcObject w; intervalRef := intervalRef w;
     running := running w; next_timer := next_timer w; statistics := st |}.

(** [stopCamera()] as written for the mode [m] its closure holds. *)
Definition stopCamera (m : cameraMode) (w : component) : component :=
  match m with
  | Local =>
      with_network (set_status false (error (network w)) (network w))
        (with_stream None false w)
  | Network => with_network (stopCamera_network (network w)) w
  end.

(** [stopMonitoring()] for the component; the parent's [setIsMonitoring]
    is [App.setIsMonitoring false]. *)
Definition stopMonitoring (w : component) : component :=
  match intervalRef w with
  | Some id =>
      with_timer None (List.filter (fun t => negb (Nat.eqb t id)) (running w))
        (next_timer w) w
  | None => w
  end.

Section Controls.

Variable URL_valid : string -> bool.
Variable encodeURIComponent : string -> string.

(** [startMonitoring()]: a camera that is not connected is started first
    (in local mode [startWebcam()] only asks for the stream, which changes
    nothing before the request settles); then a new interval timer is
    started and stored in [intervalRef], whatever it held. *)
Definition startMonitoring (w : component) : component :=
  let w :=
    if hasPermission (network w) then w
    else match mode w with
         | Local => w
         | Network =>
             with_network
               (startNetworkCamera URL_valid encodeURIComponent (network w)) w
         end in
  with_statistics (start_stats (statistics w))
    (with_timer (Some (next_timer w)) (running w ++ [next_timer w])
       (S (next_timer w)) w).

(** The cleanup of the mount effect: its closure is the one of the first
    render, where the mode is the initial one, [Local]. *)
Definition unmount (w : component) : component :=
  stopMonitoring (stopCamera Local w).

(** What the user, or React, does to the component. *)
Inductive control : Type :=
  | StartMonitoring
  | StopMonitoring
  | StopCamera
  | Unmount.

Definition apply_control (w : component) (c : control) : component :=
  match c with
  | StartMonitoring => startMonitoring w
  | StopMonitoring => stopMonitoring w
  | StopCamera => stopCamera (mode w) w
  | Unmount => unmount w
  end.

End Controls.

(** "Start Monitoring" is the button offered when the camera is connected
    and the parent's [isMonitoring] is false. *)
Definition offers_start (w : component) (s : state) : bool :=
  hasPermission (network w) && negb (isMonitoring s).

End Monitoring.

(** ** States and runs of the camera component *)

Module Capture.
Import App Webcam Monitoring.

(** A camera with no handler on the image and no polling timer. *)
Definition inert (c : camera) : Prop :=
  onload c = NoOnload /\ onerror c = NoOnerror /\ refreshIntervalRef c = None.

(** The ticks of the capture timer, in order. *)
Definition run_ticks (captured_isEmergencyStop : bool) (mode : cameraMode)
    (ticks : list tick) (ss : stats * state) : stats * state :=
  fold_left (fun ss t => tick_app captured_isEmergencyStop mode t ss) ticks ss.

(** A timer that runs while the component holds no handle to it. *)
Definition orphaned (id : nat) (w : component) : Prop :=
  In id (running w) /\ intervalRef w <> Some id /\ id < next_timer w.

End Capture.

(** ** Further sample data *)

Module Cases.
Import App Webcam Monitoring Sample.

(** The alert [handleSatelliteFireDetected] makes for two hotspots. *)
Definition satellite_alert0 : Alert :=
  {| alert_id := Some {| kind := "satellite-alert";
                         at_time := 1700000000000; random := None |};
     message := SatelliteAlertHotspots 2;
     details := NasaModisDetected;
     severity := "critical";
     timestamp := "1/1/2026, 12:00:00 PM";
     frameNumber := None;
     source := Some "NASA FIRMS" |}.

(** A clock for the panel: every alert was raised at time 0, and it is
    now 100 seconds later. *)
Definition raised_at_zero (timestamp : string) : float := 0%float.
Definition later : float := 100000%float.

(** A camera component in network mode where the address was typed
    without its scheme. *)
Definition camera_typo : camera :=
  {| networkCameraUrl := "192.168.1.100:8080"; hasPermission := false;
     error := None; imgRef := true; requests := []; onload := NoOnload;
     onerror := NoOnerror; proxyFailed := false; refreshIntervalRef := None |}.

(** The camera component in local mode with the webcam connected and
    nothing started. *)
Definition component0 : component :=
  {| mode := Local;
     network :=
       {| networkCameraUrl := ""; hasPermission := true; error := None;
          imgRef := false; requests := []; onload := NoOnload;
          onerror := NoOnerror; proxyFailed := false;
          refreshIntervalRef := None |};
     streamRef := Some 1;
     video_srcObject := true;
     intervalRef := None;
     running := [];
     next_timer := 1;
     statistics := stats_initial |}.

(** The page after a video run of ten frames followed by a satellite
    image the backend rates [w]. *)
Definition video_state : state :=
  snd (onComplete "clip.mp4" platform0
         (handle_frames false "clip.mp4" (fun _ => platform0) 0 ten_frames
            (run_start, initial [] []))).

Definition satellite_state (w : float) (s : state) : state :=
  handleDetection_batch platform0 "tile.png" (Some (SatelliteResult (Some w)))
    s.

End Cases.

(** * Properties *)

(** ** Splitting on the event delimiter *)

Section SplitFacts.
Import Str.

Lemma string_ind2 (P : string -> Prop) :
  P "" ->
  (forall c, P (String c "")) ->
  (forall c c' s, P (String c' s) -> P s -> P (String c (String c' s))) ->
  forall s, P s.
Proof.
  intros H0 H1 H2 s.
  assert (H : P s /\ forall c, P (String c s)).
  { induction s as [|c' s [IHs IHc]]; split; auto. }
  exact (proj1 H).
Qed.

Lemma append_cons (x : ascii) (a b : string) :
  String x a +:+ b = String x (a +:+ b).
Proof. reflexivity. Qed.

Lemma append_empty_l (a : string) : "" +:+ a = a.
Proof. reflexivity. Qed.

Lemma append_assoc (a b c : string) : (a +:+ b) +:+ c = a +:+ (b +:+ c).
Proof.
  induction a as [|x a IH]; [reflexivity|].
  rewrite !append_cons. now f_equal.
Qed.

Lemma append_empty_r (a : string) : a +:+ "" = a.
Proof.
  induction a as [|x a IH]; [reflexivity|].
  rewrite append_cons. now f_equal.
Qed.

Lemma concat_app (l1 l2 : list string) :
  concat (l1 ++ l2) = concat l1 +:+ concat l2.
Proof.
  induction l1 as [|x l1 IH]; [reflexivity|].
  change (x +:+ concat (l1 ++ l2) = (x +:+ concat l1) +:+ concat l2).
  now rewrite IH, append_assoc.
Qed.

Lemma split_nn_step (c c' : ascii) (s : string) :
  split_nn (String c (String c' s))
  = if is_LF c && is_LF c'
    then "" :: split_nn s
    else cons_head c (split_nn (String c' s)).
Proof. reflexivity. Qed.

Lemma split_nn_nonempty (s : string) : split_nn s <> [].
Proof.
  induction s as [|c|c c' s IH1 IH2] using string_ind2;
    [intros H; discriminate H .. |].
  rewrite split_nn_step. destruct (is_LF c && is_LF c').
  - intros H; discriminate H.
  - destruct (split_nn (String c' s)); [congruence|].
    intros H; discriminate H.
Qed.

(** A code unit that does not open a delimiter goes to the first piece. *)
Lemma split_nn_cons (c : ascii) (s : string) :
  is_LF c && match s with String c' _ => is_LF c' | EmptyString => false end
    = false ->
  split_nn (String c s) = cons_head c (split_nn s).
Proof.
  destruct s as [|c' s]; [reflexivity|].
  rewrite split_nn_step. now intros ->.
Qed.

Lemma split_nn_delim (s : string) :
  split_nn (String LF (String LF s)) = "" :: split_nn s.
Proof. reflexivity. Qed.

(** Three line feeds hold one delimiter, found at the left; four hold
    two, with an empty piece between them. *)
Example split_nn_three_LF :
  split_nn ("a" +:+ String LF (String LF (String LF "b")))
  = ["a"; String LF "b"].
Proof. reflexivity. Qed.

Example split_nn_four_LF :
  split_nn ("a" +:+ String LF (String LF (String LF (String LF "b"))))
  = ["a"; ""; "b"].
Proof. reflexivity. Qed.

(** A string that splits into one piece is that piece. *)
Lemma split_nn_single (s x : string) : split_nn s = [x] -> x = s.
Proof.
  revert x. induction s as [|c|c c' s IH1 IH2] using string_ind2;
    intros x.
  - cbn. congruence.
  - cbn. congruence.
  - rewrite split_nn_step. destruct (is_LF c && is_LF c') eqn:E.
    + intros H. injection H as _ H. now apply split_nn_nonempty in H.
    + destruct (split_nn (String c' s)) as [|p ps] eqn:Es.
      * now apply split_nn_nonempty in Es.
      * simpl. intros H. injection H as <- ->.
        now rewrite (IH1 p eq_refl).
Qed.

(** Splitting a concatenation: the complete pieces of the first part are
    final, and its last piece is continued by the second part. *)
Lemma split_nn_app (a b : string) :
  split_nn (a +:+ b)
  = removelast (split_nn a) ++ split_nn (default "" (last (split_nn a)) +:+ b).
Proof.
  induction a as [|c|c c' a IH1 IH2] using string_ind2.
  - reflexivity.
  - reflexivity.
  - change (String c (String c' a) +:+ b)
      with (String c (String c' (a +:+ b))).
    rewrite !split_nn_step. destruct (is_LF c && is_LF c') eqn:E.
    + rewrite IH2.
      destruct (split_nn a) as [|p ps] eqn:Es.
      { now apply split_nn_nonempty in Es. }
      reflexivity.
    + change (String c' (a +:+ b)) with (String c' a +:+ b).
      rewrite IH1.
      destruct (split_nn (String c' a)) as [|p [|q ps]] eqn:Es.
      * now apply split_nn_nonempty in Es.
      * apply split_nn_single in Es. subst p.
        change (cons_head c (split_nn (String c' a +:+ b))
                = split_nn (String c (String c' a +:+ b))).
        symmetry. apply split_nn_cons. exact E.
      * reflexivity.
Qed.

(** The piece kept in the buffer holds no complete event. *)
Lemma split_nn_last (s : string) :
  split_nn (default "" (last (split_nn s))) = [default "" (last (split_nn s))].
Proof.
  pose proof (split_nn_app s "") as H.
  rewrite !append_empty_r in H.
  destruct (split_nn s) as [|p ps] eqn:Es using rev_ind.
  { now apply split_nn_nonempty in Es. }
  clear IHps. rewrite removelast_last, last_snoc in H. simpl in *.
  rewrite last_snoc. simpl.
  now apply app_inv_head in H.
Qed.

End SplitFacts.

(** ** The decoder over a chunked stream *)

Section DecoderFacts.
Import Str Api.

Variable JSON_parse : string -> option json.

(** With a buffer that holds no complete event, the loop decodes the
    complete events of the buffer followed by all the chunks, and
    completes once. *)
Lemma read_loop_whole (chunks : list string) : forall buffer : string,
  split_nn buffer = [buffer] ->
  read_loop JSON_parse buffer chunks
  = flat_map (handle_event JSON_parse)
      (removelast (split_nn (buffer +:+ concat chunks)))
    ++ [OnComplete].
Proof.
  induction chunks as [|value rest IH]; intros buffer Hb.
  - change (concat []) with "". rewrite append_empty_r, Hb. reflexivity.
  - cbn [read_loop concat].
    rewrite (IH _ (split_nn_last (buffer +:+ value))).
    rewrite <- append_assoc, (split_nn_app (buffer +:+ value)).
    rewrite removelast_app by apply split_nn_nonempty.
    rewrite flat_map_app, <- app_assoc. reflexivity.
Qed.

(** Any stream, cut anywhere, decodes as the stream in one chunk. *)
Lemma read_loop_chunking (chunks : list string) :
  read_loop JSON_parse "" chunks
  = read_loop JSON_parse "" [concat chunks].
Proof.
  rewrite !read_loop_whole by reflexivity.
  change (concat [concat chunks]) with (concat chunks +:+ "").
  now rewrite append_empty_r.
Qed.

Lemma split_nn_no_LF (x rest : string) :
  has_LF x = false ->
  split_nn (x +:+ String LF (String LF rest)) = x :: split_nn rest.
Proof.
  induction x as [|c x IH]; intros H.
  - reflexivity.
  - cbn [has_LF] in H. apply orb_false_iff in H as [Hc Hx].
    rewrite append_cons, split_nn_cons by now rewrite Hc.
    now rewrite IH.
Qed.

Lemma encode_event_app (p rest : string) :
  encode_event p +:+ rest
  = ("data: " +:+ p) +:+ String LF (String LF rest).
Proof. unfold encode_event. rewrite !append_assoc. reflexivity. Qed.

Lemma has_LF_data (p : string) : has_LF ("data: " +:+ p) = has_LF p.
Proof. reflexivity. Qed.

Lemma split_nn_encode_events (payloads : list string) :
  Forall (fun p => has_LF p = false) payloads ->
  split_nn (encode_events payloads)
  = map (fun p => "data: " +:+ p) payloads ++ [""].
Proof.
  induction 1 as [|p ps Hp _ IH]; [reflexivity|].
  change (encode_events (p :: ps))
    with (encode_event p +:+ encode_events ps).
  rewrite encode_event_app, split_nn_no_LF, IH; [reflexivity|].
  now rewrite has_LF_data.
Qed.

Lemma handle_event_data (p : string) :
  handle_event JSON_parse ("data: " +:+ p) = on_payload JSON_parse p.
Proof. reflexivity. Qed.

Lemma flat_map_handle_event (payloads : list string) :
  flat_map (handle_event JSON_parse)
    (map (fun p => "data: " +:+ p) payloads)
  = flat_map (on_payload JSON_parse) payloads.
Proof.
  induction payloads as [|p ps IH]; [reflexivity|].
  cbn [map flat_map]. now rewrite handle_event_data, IH.
Qed.

(** An encoded event sequence decodes to its events in order, however it
    is cut into chunks. *)
Lemma read_loop_encoded (payloads chunks : list string) :
  Forall (fun p => has_LF p = false) payloads ->
  concat chunks = encode_events payloads ->
  read_loop JSON_parse "" chunks
  = flat_map (on_payload JSON_parse) payloads ++ [OnComplete].
Proof.
  intros Hp Hc. rewrite read_loop_whole by reflexivity.
  rewrite append_empty_l, Hc, split_nn_encode_events by exact Hp.
  now rewrite removelast_last, flat_map_handle_event.
Qed.

End DecoderFacts.

(** ** The decoder: chunking, and the sentinels *)

Section DecoderClaims.
Import Str Api Sample.

(** C1. Chunk-boundary invariance: for every sequence of events encoded as
    [data: <json>] blocks closed by two line feeds, and for every way of
    cutting the encoded stream into chunks (inside a payload or inside a
    delimiter as well), the decoder makes the same callbacks, in the same
    order, as on the stream delivered in one chunk; and when no payload
    holds a line feed, these are the callback of each event, once, in the
    order of the events, then the completion at the end of the stream. *)
Theorem chunk_boundary_invariance (JSON_parse : string -> option json)
    (payloads chunks : list string) (st : nat) :
  concat chunks = encode_events payloads ->
  detectFireSmokeStreaming JSON_parse (Response true st chunks)
  = detectFireSmokeStreaming JSON_parse
      (Response true st [encode_events payloads])
  /\ (Forall (fun p => has_LF p = false) payloads ->
      fst (detectFireSmokeStreaming JSON_parse (Response true st chunks))
      = flat_map (on_payload JSON_parse) payloads ++ [OnComplete]).
Proof.
  intros Hc. unfold detectFireSmokeStreaming. cbn [ok body fst].
  split.
  - now rewrite read_loop_chunking, Hc.
  - intros Hp. now apply read_loop_encoded.
Qed.

Lemma chunk_boundary_invariance_witness :
  concat cut_stream = encode_events [frame1_text; done_text]
  /\ detectFireSmokeStreaming parse_samples (Response true 200 cut_stream)
     = detectFireSmokeStreaming parse_samples
         (Response true 200 [encode_events [frame1_text; done_text]])
  /\ fst (detectFireSmokeStreaming parse_samples (Response true 200 cut_stream))
     = [OnFrameDetection frame1_value; OnComplete; OnComplete].
Proof.
  split; [reflexivity|].
  destruct (chunk_boundary_invariance parse_samples
              [frame1_text; done_text] cut_stream 200 eq_refl) as (H1 & H2).
  split; [exact H1|]. apply H2. repeat constructor.
Defined.

(** C3. The sentinels do not end the iteration: after a [done] payload
    the loop goes on, so a later event is still delivered and the
    completion callback is made again at the end of the stream (twice in
    all for a stream that ends with the sentinel); after an [error]
    payload the error callback is made once, later frames are still
    delivered and the completion callback is still made. *)
Theorem sentinels_do_not_end_iteration (JSON_parse : string -> option json) :
  JSON_parse frame1_text = Some frame1_value ->
  JSON_parse done_text = Some done_value ->
  JSON_parse error_text = Some error_value ->
  read_loop JSON_parse "" [encode_events [done_text]]
  = [OnComplete; OnComplete]
  /\ read_loop JSON_parse "" [encode_events [done_text; frame1_text]]
     = [OnComplete; OnFrameDetection frame1_value; OnComplete]
  /\ read_loop JSON_parse "" [encode_events [error_text; frame1_text]]
     = [OnError (JStr "model failed"); OnFrameDetection frame1_value;
        OnComplete].
Proof.
  intros Hf Hd He.
  rewrite !read_loop_encoded with (payloads := [done_text])
    by (repeat constructor || reflexivity).
  rewrite (read_loop_encoded JSON_parse [done_text; frame1_text])
    by (repeat constructor || reflexivity).
  rewrite (read_loop_encoded JSON_parse [error_text; frame1_text])
    by (repeat constructor || reflexivity).
  unfold flat_map, on_payload. rewrite Hf, Hd, He. repeat split.
Qed.

Lemma sentinels_do_not_end_iteration_witness :
  read_loop parse_samples "" [encode_events [done_text]]
  = [OnComplete; OnComplete]
  /\ read_loop parse_samples "" [encode_events [done_text; frame1_text]]
     = [OnComplete; OnFrameDetection frame1_value; OnComplete]
  /\ read_loop parse_samples "" [encode_events [error_text; frame1_text]]
     = [OnError (JStr "model failed"); OnFrameDetection frame1_value;
        OnComplete].
Proof.
  apply (sentinels_do_not_end_iteration parse_samples); reflexivity.
Defined.

End DecoderClaims.

(** ** The orchestrator: what a streaming run does *)

Section OrchestratorFacts.
Import Api App.

Lemma filter_app_bool {A : Type} (f : A -> bool) (l1 l2 : list A) :
  List.filter f (l1 ++ l2) = List.filter f l1 ++ List.filter f l2.
Proof.
  induction l1 as [|x l1 IH]; [reflexivity|].
  cbn. destruct (f x); cbn; now rewrite IH.
Qed.

Lemma alarms_perform (e : effect) (s : state) :
  alarms (perform e s) = alarms s + (if is_PlayFireAlarm e then 1 else 0).
Proof.
  unfold alarms, perform. cbn [effects].
  rewrite filter_app_bool, length_app. cbn.
  destruct (is_PlayFireAlarm e); reflexivity.
Qed.

Lemma notifications_perform (e : effect) (s : state) :
  notifications (perform e s)
  = notifications s + (if is_NewNotification e then 1 else 0).
Proof.
  unfold notifications, perform. cbn [effects].
  rewrite filter_app_bool, length_app. cbn.
  destruct (is_NewNotification e); reflexivity.
Qed.

Variable name : string.

Lemma onFrameDetection_quiet (c : bool) (pf : platform) (f : FrameData)
    (rs : run * state) :
  fires f = false -> onFrameDetection c name pf f rs = rs.
Proof.
  unfold onFrameDetection. destruct rs as [r s]. now intros ->.
Qed.

Lemma handle_frames_app (c : bool) (pf : nat -> platform)
    (l1 l2 : list FrameData) : forall (n : nat) (rs : run * state),
  handle_frames c name pf n (l1 ++ l2) rs
  = handle_frames c name pf (n + length l1) l2 (handle_frames c name pf n l1 rs).
Proof.
  induction l1 as [|f l1 IH]; intros n rs; cbn [handle_frames app length].
  - now rewrite Nat.add_0_r.
  - rewrite IH. now rewrite Nat.add_succ_comm.
Qed.

Lemma handle_frames_quiet (c : bool) (pf : nat -> platform)
    (frames : list FrameData) : forall (n : nat) (rs : run * state),
  List.filter fires frames = [] ->
  handle_frames c name pf n frames rs = rs.
Proof.
  induction frames as [|f frames IH]; intros n rs H; [reflexivity|].
  cbn [List.filter] in H. destruct (fires f) eqn:E; [discriminate|].
  cbn [handle_frames]. rewrite onFrameDetection_quiet by exact E.
  now apply IH.
Qed.

(** The first fire frame of a run that is not stopped: the alarm, one
    alert, and the notification when it is granted. *)
Lemma onFrameDetection_first (pf : platform) (f : FrameData) (r : run)
    (s : state) :
  fires f = true ->
  totalFramesWithFire r = 0 ->
  let rs := onFrameDetection false name pf f (r, s) in
  totalFramesWithFire (fst rs) = 1
  /\ effects (snd rs)
     = effects s ++ PlayFireAlarm 3000 ::
         (if notification_granted pf
          then [NewNotification "FIRE DETECTED!"
                  (FireFoundInFrameOf (frame f) name)]
          else [])
  /\ (exists a, alerts (snd rs) = a :: alerts s
                /\ frameNumber a = Some (frame f))
  /\ detectionHistory (snd rs) = detectionHistory s
  /\ allDetections (fst rs) = allDetections r ++ detections f.
Proof.
  intros Hf H0. unfold onFrameDetection. rewrite Hf, H0. cbn [negb Nat.eqb andb].
  destruct (notification_granted pf); cbn.
  - rewrite <- app_assoc. repeat split; eauto.
  - repeat split; eauto.
Qed.

(** A later fire frame: one alert, silently. *)
Lemma onFrameDetection_later (pf : platform) (f : FrameData) (r : run)
    (s : state) :
  fires f = true ->
  1 <= totalFramesWithFire r ->
  let rs := onFrameDetection false name pf f (r, s) in
  totalFramesWithFire (fst rs) = S (totalFramesWithFire r)
  /\ effects (snd rs) = effects s
  /\ (exists a, alerts (snd rs) = a :: alerts s
                /\ frameNumber a = Some (frame f))
  /\ detectionHistory (snd rs) = detectionHistory s
  /\ allDetections (fst rs) = allDetections r ++ detections f.
Proof.
  intros Hf H1. unfold onFrameDetection. rewrite Hf.
  destruct (totalFramesWithFire r) as [|k]; [lia|].
  cbn. repeat split; eauto.
Qed.

Lemma handle_frames_later (pf : nat -> platform) (frames : list FrameData) :
  forall (n : nat) (r : run) (s : state),
  1 <= totalFramesWithFire r ->
  let rs := handle_frames false name pf n frames (r, s) in
  effects (snd rs) = effects s
  /\ map frameNumber (alerts (snd rs))
     = rev (map (fun f => Some (frame f)) (List.filter fires frames))
       ++ map frameNumber (alerts s)
  /\ detectionHistory (snd rs) = detectionHistory s.
Proof.
  induction frames as [|f frames IH]; intros n r s H1; [now cbn|].
  cbn [handle_frames List.filter]. destruct (fires f) eqn:E.
  - pose proof (onFrameDetection_later (pf n) f r s E H1) as (Ht & He & (a & Ha & Hn) & Hh & _).
    destruct (onFrameDetection false name (pf n) f (r, s)) as [r1 s1].
    cbn [fst snd] in *.
    destruct (IH (S n) r1 s1) as (IHe & IHa & IHh); [lia|].
    cbn zeta in *. rewrite IHe, IHa, IHh, He, Hh, Ha. cbn [map rev].
    rewrite Hn, <- app_assoc. repeat split.
  - rewrite onFrameDetection_quiet by exact E. now apply IH.
Qed.

Lemma filter_cons_split {A : Type} (f : A -> bool) (l : list A) (x : A)
    (xs : list A) :
  List.filter f l = x :: xs ->
  exists pre post, l = pre ++ x :: post /\ List.filter f pre = []
                   /\ f x = true /\ List.filter f post = xs.
Proof.
  induction l as [|y l IH]; [discriminate|].
  cbn. destruct (f y) eqn:E.
  - intros H. injection H as -> <-. exists [], l. now repeat split.
  - intros H. destruct (IH H) as (pre & post & -> & Hp & Hx & Hq).
    exists (y :: pre), post. cbn. rewrite E. now repeat split.
Qed.

End OrchestratorFacts.

(** ** The orchestrator: throttle, scenario, emergency stop *)

Section OrchestratorClaims.
Import Str Api App Sample.

(** C5. First-fire throttle: in a streaming run that is not stopped and
    whose fire frames are exactly the frames 2, 5 and 9, nothing leaves the
    component before frame 2; while frame 2 is handled the alarm is asked to
    play once and the notification is shown at most once (when it is
    granted); nothing leaves the component afterwards; and the ledger gains
    exactly three alerts, for the frames 9, 5 and 2 from the newest. *)
Theorem first_fire_throttle (name : string) (pf : nat -> platform)
    (frames : list FrameData) (s : state) :
  map frame (List.filter fires frames) = [2%float; 5%float; 9%float] ->
  exists pre f2 post,
    frames = pre ++ f2 :: post
    /\ frame f2 = 2%float
    /\ effects (snd (handle_frames false name pf 0 pre (run_start, s)))
       = effects s
    /\ effects (snd (handle_frames false name pf 0 (pre ++ [f2]) (run_start, s)))
       = effects s ++ PlayFireAlarm 3000 ::
           (if notification_granted (pf (length pre))
            then [NewNotification "FIRE DETECTED!"
                    (FireFoundInFrameOf 2%float name)]
            else [])
    /\ effects (snd (handle_frames false name pf 0 frames (run_start, s)))
       = effects (snd (handle_frames false name pf 0 (pre ++ [f2]) (run_start, s)))
    /\ alarms (snd (handle_frames false name pf 0 frames (run_start, s)))
       = alarms s + 1
    /\ notifications (snd (handle_frames false name pf 0 frames (run_start, s)))
       <= notifications s + 1
    /\ map frameNumber
         (alerts (snd (handle_frames false name pf 0 frames (run_start, s))))
       = [Some 9%float; Some 5%float; Some 2%float] ++ map frameNumber (alerts s)
    /\ length (alerts (snd (handle_frames false name pf 0 frames (run_start, s))))
       = length (alerts s) + 3.
Proof.
  intros H.
  destruct (List.filter fires frames) as [|f2 rest] eqn:Hfil; [discriminate|].
  cbn [map] in H. injection H as H2 Hrest.
  destruct (filter_cons_split fires frames f2 rest Hfil)
    as (pre & post & -> & Hpre & Hf2 & Hpost).
  exists pre, f2, post.
  assert (Hq : forall l, handle_frames false name pf 0 (pre ++ l) (run_start, s)
                 = handle_frames false name pf (length pre) l (run_start, s)).
  { intros l. rewrite handle_frames_app, (handle_frames_quiet _ _ _ pre) by exact Hpre.
    reflexivity. }
  rewrite handle_frames_quiet by exact Hpre.
  rewrite !Hq. cbn [handle_frames].
  pose proof (onFrameDetection_first name (pf (length pre)) f2 run_start s
                Hf2 eq_refl) as (Ht & He & (a & Ha & Hn) & _ & _).
  destruct (onFrameDetection false name (pf (length pre)) f2 (run_start, s))
    as [r1 s1]. cbn [fst snd] in *.
  pose proof (handle_frames_later name pf post (S (length pre)) r1 s1)
    as Hl. cbn zeta in Hl. destruct Hl as (Le & La & _); [lia|].
  rewrite Hpost in La. rewrite Ha in La. cbn [map] in La.
  rewrite Hn, H2 in La.
  assert (Hr : rev (map (fun f => Some (frame f)) rest)
               = [Some 9%float; Some 5%float]).
  { destruct rest as [|x [|y [|z rest]]]; try discriminate.
    cbn in Hrest |- *. injection Hrest as Hx Hy. now rewrite Hx, Hy. }
  rewrite Hr in La.
  repeat split.
  - exact H2.
  - rewrite He, H2. reflexivity.
  - exact Le.
  - unfold alarms. rewrite Le, He, filter_app_bool, length_app.
    destruct (notification_granted (pf (length pre))); reflexivity.
  - unfold notifications. rewrite Le, He, filter_app_bool, length_app.
    destruct (notification_granted (pf (length pre))); cbn; lia.
  - exact La.
  - apply (f_equal (@length _)) in La.
    rewrite length_map in La. rewrite La. cbn. rewrite length_map. lia.
Qed.

Lemma first_fire_throttle_witness :
  map frame (List.filter fires ten_frames) = [2%float; 5%float; 9%float]
  /\ alarms (snd (handle_frames false "clip.mp4" (fun _ => platform0) 0
                    ten_frames (run_start, initial [] []))) = 1
  /\ length (alerts (snd (handle_frames false "clip.mp4" (fun _ => platform0) 0
                            ten_frames (run_start, initial [] [])))) = 3.
Proof.
  split; [reflexivity|].
  destruct (first_fire_throttle "clip.mp4" (fun _ => platform0) ten_frames
              (initial [] []) eq_refl)
    as (pre & f2 & post & _ & _ & _ & _ & _ & Ha & _ & _ & Hl).
  split; [exact Ha | exact Hl].
Defined.

End OrchestratorClaims.

Section ScenarioClaims.
Import Str Api App Sample.

Lemma onComplete_spec (name : string) (pf : platform) (r : run)
    (s : state) :
  let rs := onComplete name pf (r, s) in
  fst rs = r
  /\ effects (snd rs) = effects s
  /\ alerts (snd rs) = alerts s
  /\ exists h, detectionHistory (snd rs) = h :: detectionHistory s
               /\ detectionCount h = Some (length (allDetections r))
               /\ avgConfidence h
                  = Some (if Nat.ltb 0 (length (allDetections r))
                          then average_confidence (allDetections r)
                          else 0%float).
Proof. cbn. repeat split. eexists. repeat split. Qed.

(** C4. The concrete streaming scenario, as the code runs it. For the
    stream of the frame 1 (fire, confidence 0.9), the frame 2 (fire,
    confidence 0.8) and the [done] sentinel, cut into chunks in any way, a
    run that is not stopped asks the alarm to play exactly once, puts
    exactly two alerts on the ledger (frame 2 above frame 1), and every
    history item it records has [detectionCount] 2 and, as [avgConfidence],
    the binary64 value of [(0 + 0.9 + 0.8) / 2], which is
    0.8500000000000001 and not 0.85. *)
Theorem streaming_scenario (JSON_parse : string -> option json)
    (pf : nat -> platform) (name : string) (chunks : list string) (st : nat)
    (s : state) :
  JSON_parse frame1_text = Some frame1_value ->
  JSON_parse frame2_text = Some frame2_value ->
  JSON_parse done_text = Some done_value ->
  concat chunks = encode_events [frame1_text; frame2_text; done_text] ->
  isEmergencyStop s = false ->
  exists s',
    handleDetection_streaming JSON_parse pf name (Response true st chunks) s
    = Some s'
    /\ alarms s' = alarms s + 1
    /\ (exists a2 a1, alerts s' = a2 :: a1 :: alerts s
                      /\ frameNumber a2 = Some 2%float
                      /\ frameNumber a1 = Some 1%float)
    /\ (exists new, detectionHistory s' = new ++ detectionHistory s
                    /\ new <> []
                    /\ Forall (fun h =>
                                 detectionCount h = Some 2
                                 /\ avgConfidence h
                                    = Some 0.8500000000000001%float) new).
Proof.
  intros H1 H2 H3 Hc Hs.
  unfold handleDetection_streaming, detectFireSmokeStreaming.
  cbn [ok body]. rewrite Hs.
  rewrite (read_loop_encoded JSON_parse [frame1_text; frame2_text; done_text])
    by (repeat constructor || exact Hc).
  unfold flat_map, on_payload. rewrite H1, H2, H3.
  set (s0 := setDetectionResult None (setIsLoading true s)).
  change (deliver false name pf 0 _ (run_start, s0))
    with (Some (onComplete name (pf 3)
                  (onComplete name (pf 2)
                     (onFrameDetection false name (pf 1)
                        {| frame := 2; total_frames := None; has_fire := true;
                           detections := [{| class := "fire";
                                             confidence := 0.8 |}] |}
                        (onFrameDetection false name (pf 0)
                           {| frame := 1; total_frames := None;
                              has_fire := true;
                              detections := [{| class := "fire";
                                                confidence := 0.9 |}] |}
                           (run_start, s0)))))).
  match goal with
  | |- context [onFrameDetection false name (pf 0) ?f (run_start, s0)] =>
      pose proof (onFrameDetection_first name (pf 0) f run_start s0
                    eq_refl eq_refl) as (T1 & E1 & (a1 & A1 & N1) & D1 & L1);
      destruct (onFrameDetection false name (pf 0) f (run_start, s0))
        as [r1 s1]
  end.
  cbn [fst snd] in *.
  match goal with
  | |- context [onFrameDetection false name (pf 1) ?f (r1, s1)] =>
      pose proof (onFrameDetection_later name (pf 1) f r1 s1 eq_refl)
        as (T2 & E2 & (a2 & A2 & N2) & D2 & L2); [lia|];
      destruct (onFrameDetection false name (pf 1) f (r1, s1)) as [r2 s2]
  end.
  cbn [fst snd] in *.
  pose proof (onComplete_spec name (pf 2) r2 s2)
    as (R3 & E3 & A3 & (h3 & D3 & C3 & V3)).
  destruct (onComplete name (pf 2) (r2, s2)) as [r3 s3].
  cbn [fst snd] in *. subst r3.
  pose proof (onComplete_spec name (pf 3) r2 s3)
    as (R4 & E4 & A4 & (h4 & D4 & C4 & V4)).
  destruct (onComplete name (pf 3) (r2, s3)) as [r4 s4].
  cbn [fst snd] in *.
  rewrite L2, L1 in C3, V3, C4, V4. cbn in C3, V3, C4, V4.
  exists s4. split; [reflexivity|]. split; [|split].
  - unfold alarms. rewrite E4, E3, E2, E1, filter_app_bool, length_app.
    destruct (notification_granted (pf 0)); reflexivity.
  - exists a2, a1. rewrite A4, A3, A2, A1. repeat split; assumption.
  - exists [h4; h3]. rewrite D4, D3, D2, D1. split; [reflexivity|].
    split; [discriminate|]. repeat constructor; assumption.
Qed.

Lemma streaming_scenario_witness :
  exists s',
    handleDetection_streaming parse_samples (fun _ => platform0) "clip.mp4"
      (Response true 200 scenario_stream) (initial [] [])
    = Some s'
    /\ alarms s' = alarms (initial [] []) + 1
    /\ (exists a2 a1, alerts s' = a2 :: a1 :: alerts (initial [] [])
                      /\ frameNumber a2 = Some 2%float
                      /\ frameNumber a1 = Some 1%float)
    /\ (exists new, detectionHistory s' = new ++ detectionHistory (initial [] [])
                    /\ new <> []
                    /\ Forall (fun h =>
                                 detectionCount h = Some 2
                                 /\ avgConfidence h
                                    = Some 0.8500000000000001%float) new).
Proof.
  apply (streaming_scenario parse_samples (fun _ => platform0) "clip.mp4"
           scenario_stream 200 (initial [] [])); reflexivity.
Defined.

(** C4 as stated fails on the scenario: the run records two history items,
    not one, and none of them has [avgConfidence] 0.85. *)
Lemma streaming_scenario_counterexample :
  exists s',
    handleDetection_streaming parse_samples (fun _ => platform0) "clip.mp4"
      (Response true 200 scenario_stream) (initial [] [])
    = Some s'
    /\ length (detectionHistory s') = 2
    /\ Forall (fun h => avgConfidence h <> Some 0.85%float)
         (detectionHistory s').
Proof.
  eexists. split; [vm_compute; reflexivity|]. split; [reflexivity|].
  repeat constructor; cbn; intros H;
    apply (f_equal (fun o => match o with
                             | Some x => PrimFloat.eqb x 0.85%float
                             | None => false
                             end)) in H;
    vm_compute in H; discriminate H.
Qed.


(** The callbacks of a run test the flag of the render that started the
    run: an emergency stop pressed during the run does not reach them, and
    the next fire frame still raises its alert. *)
Lemma emergency_stop_during_run (name : string) (pf : platform)
    (frameData : FrameData) (r : run) (s : state) :
  fires frameData = true ->
  isEmergencyStop (handleEmergencyStop s) = true
  /\ exists a,
       alerts (snd (onFrameDetection false name pf frameData
                      (r, handleEmergencyStop s)))
       = a :: alerts s.
Proof.
  intros Hf. split; [reflexivity|].
  unfold onFrameDetection. rewrite Hf. cbn [negb].
  destruct (Nat.eqb (S (totalFramesWithFire r)) 1); cbn;
    destruct (notification_granted pf); eexists; reflexivity.
Qed.




End ScenarioClaims.

(** ** The alarm engine *)

Section AlarmClaims.
Import Audio.

Lemma playFireAlarm_begin_playing (d : float) (a : AudioAlertSystem) :
  isPlaying a = true -> playFireAlarm_begin d a = (a, None).
Proof. unfold playFireAlarm_begin. now intros ->. Qed.

Lemma playGeneratedSiren_spec (d now : float) (a : AudioAlertSystem) :
  isPlaying (playGeneratedSiren d now a) = true
  /\ audioElement (playGeneratedSiren d now a) = audioElement a
  /\ length (oscillators (playGeneratedSiren d now a))
     = length (oscillators a) + 4.
Proof.
  unfold playGeneratedSiren, init.
  destruct (audioContext a); cbn; rewrite !length_app; cbn;
    repeat split; lia.
Qed.

(** After a synthesized siren, the natural end of its three siren voices
    and of its bass voice leaves the bass nodes in the arrays, so the flag
    is not lowered. *)
Lemma siren_natural_end (d now : float) :
  let a := playGeneratedSiren d now constructor in
  isPlaying (fold_right oscillator_onended a (oscillators a)) = true
  /\ length (oscillators (fold_right oscillator_onended a (oscillators a))) = 1.
Proof. cbn. split; reflexivity. Qed.

(** With a context, [stopAlarm] lowers the flag. *)
Lemma stopAlarm_with_context (now : float) (a : AudioAlertSystem) :
  audioContext a <> None -> isPlaying (stopAlarm now a) = false.
Proof.
  intros H. unfold stopAlarm.
  destruct (audioElement a) as [e|]; [destruct (paused e)|]; cbn;
    destruct (audioContext a); try congruence; reflexivity.
Qed.

(** With nothing playing and no stale node, [stopAlarm] changes nothing. *)
Lemma stopAlarm_idle (now : float) (a : AudioAlertSystem) :
  isPlaying a = false -> clip_active a = false ->
  oscillators a = [] -> gainNodes a = [] ->
  stopAlarm now a = a.
Proof.
  intros Hp Hc Ho Hg. unfold stopAlarm, clip_active in *.
  destruct a as [ctx p os gs el]; cbn in *. subst.
  destruct el as [e|]; [destruct (paused e); [|discriminate]|];
    destruct ctx; reflexivity.
Qed.

(** C6. [stopAlarm] while the clip plays on an engine that never
    synthesized a siren: the engine has no audio context, so the call
    pauses the clip and returns before lowering the flag. [isPlaying]
    stays [true] with nothing playing, and every later [playFireAlarm] is
    refused at its guard. *)
Theorem stopAlarm_clip_keeps_isPlaying (d now stop_time : float) :
  audioContext (playFireAlarm d true now constructor) = None
  /\ isPlaying (playFireAlarm d true now constructor) = true
  /\ clip_active (playFireAlarm d true now constructor) = true
  /\ isPlaying (stopAlarm stop_time (playFireAlarm d true now constructor))
     = true
  /\ playbacks (stopAlarm stop_time (playFireAlarm d true now constructor)) = 0
  /\ forall (d' : float) (fulfilled : bool) (now' : float),
       playFireAlarm d' fulfilled now'
         (stopAlarm stop_time (playFireAlarm d true now constructor))
       = stopAlarm stop_time (playFireAlarm d true now constructor).
Proof. repeat split. Qed.

Lemma step_invariant (g : engine) (act : action) :
  (isPlaying (system g) = false /\ suspended g = []
   /\ clip_active (system g) = false /\ oscillators (system g) = [])
  \/ (isPlaying (system g) = true /\ (exists d, suspended g = [d])
      /\ clip_active (system g) = false /\ oscillators (system g) = [])
  \/ (isPlaying (system g) = true /\ suspended g = []
      /\ playbacks (system g) <= 1) ->
  (isPlaying (system (step g act)) = false /\ suspended (step g act) = []
   /\ clip_active (system (step g act)) = false
   /\ oscillators (system (step g act)) = [])
  \/ (isPlaying (system (step g act)) = true
      /\ (exists d, suspended (step g act) = [d])
      /\ clip_active (system (step g act)) = false
      /\ oscillators (system (step g act)) = [])
  \/ (isPlaying (system (step g act)) = true /\ suspended (step g act) = []
      /\ playbacks (system (step g act)) <= 1).
Proof.
  destruct g as [a q]. cbn [system suspended].
  intros [(Hp & -> & Hc & Ho) | [(Hp & (d0 & ->) & Hc & Ho) | (Hp & -> & Hb)]];
    destruct act as [d | fulfilled now]; cbn [step system suspended].
  - right; left. unfold playFireAlarm_begin. rewrite Hp. cbn.
    repeat split; eauto.
    unfold clip_active in *. cbn. destruct (audioElement a); cbn in *; auto.
  - left. auto.
  - right; left. rewrite playFireAlarm_begin_playing by exact Hp. cbn. eauto.
  - right; right. unfold playFireAlarm_resume, playMP3Alarm_settle.
    destruct fulfilled.
    + cbn. repeat split; [exact Hp|].
      unfold playbacks, voices_active. cbn. rewrite Ho. cbn.
      match goal with |- context [if ?b then _ else _] => destruct b end; lia.
    + destruct (playGeneratedSiren_spec d0 now (set_isPlaying false a))
        as (H1 & H2 & H3).
      cbv beta iota zeta. split; [exact H1|]. split; [reflexivity|].
      unfold playbacks, clip_active. rewrite H2. cbn [set_isPlaying audioElement].
      unfold clip_active in Hc. rewrite Hc. cbn.
      match goal with |- context [if ?b then _ else _] => destruct b end; lia.
  - right; right. rewrite playFireAlarm_begin_playing by exact Hp. cbn. auto.
  - right; right. auto.
Qed.

(** C7. Mutual exclusion: a [playFireAlarm] called while [isPlaying] is
    [true] returns at once and leaves the engine exactly as it was (no clip
    started, no oscillator created); and on an engine that starts new,
    however many calls overlap and however each [play()] settles, at most
    one playback (the clip, or one group of synthesized voices) is
    active. *)
Theorem playFireAlarm_mutual_exclusion (a : AudioAlertSystem) (d : float)
    (fulfilled : bool) (now : float) (acts : list action) :
  isPlaying a = true ->
  playFireAlarm_begin d a = (a, None)
  /\ playFireAlarm d fulfilled now a = a
  /\ playbacks (system (run acts {| system := constructor; suspended := [] |}))
     <= 1.
Proof.
  intros Hp. split; [now apply playFireAlarm_begin_playing|].
  split; [unfold playFireAlarm; now rewrite playFireAlarm_begin_playing|].
  assert (H : forall g,
    (isPlaying (system g) = false /\ suspended g = []
     /\ clip_active (system g) = false /\ oscillators (system g) = [])
    \/ (isPlaying (system g) = true /\ (exists d, suspended g = [d])
        /\ clip_active (system g) = false /\ oscillators (system g) = [])
    \/ (isPlaying (system g) = true /\ suspended g = []
        /\ playbacks (system g) <= 1) ->
    playbacks (system (run acts g)) <= 1).
  { induction acts as [|act acts IH]; intros g Hg.
    - cbn. unfold playbacks, voices_active.
      destruct Hg as [(_ & _ & -> & ->) | [(_ & _ & -> & ->) | (_ & _ & Hb)]];
        [cbn; lia .. | exact Hb].
    - cbn [run fold_left]. apply IH. now apply step_invariant. }
  apply H. left. repeat split.
Qed.

Lemma playFireAlarm_mutual_exclusion_witness :
  isPlaying (playFireAlarm 3000 true 0 constructor) = true
  /\ playFireAlarm 3000 false 1 (playFireAlarm 3000 true 0 constructor)
     = playFireAlarm 3000 true 0 constructor
  /\ playbacks (system (run [Call 3000; Call 3000; Settle false 0; Call 2000]
                          {| system := constructor; suspended := [] |})) <= 1.
Proof.
  split; [reflexivity|].
  destruct (playFireAlarm_mutual_exclusion
              (playFireAlarm 3000 true 0 constructor) 3000 false 1
              [Call 3000; Call 3000; Settle false 0; Call 2000] eq_refl)
    as (_ & H2 & H3).
  split; [exact H2 | exact H3].
Defined.

End AlarmClaims.

(** ** The camera component *)

Section CameraClaims.
Import Str App Webcam.

Lemma requests_since_app (c c' : camera) (new : list string) :
  requests c' = requests c ++ new -> requests_since c c' = new.
Proof.
  intros H. unfold requests_since. rewrite H. apply drop_app_length.
Qed.

Lemma direct_strategy_handle (u : string) (c : camera) (ev : event) :
  direct_strategy u c ->
  direct_strategy u (handle c ev)
  /\ exists new, requests (handle c ev) = requests c ++ new
                 /\ Forall (is_direct_poll u) new.
Proof.
  intros (Hi & Hl & He & Hr).
  destruct c as [url hp err img reqs ol oe failed timer].
  cbn in Hi, Hl, He, Hr. subst img ol oe.
  destruct ev as [| |t]; cbn [handle].
  - unfold fire_onload. cbn.
    destruct Hr as [-> | ->]; cbn;
      (split; [unfold direct_strategy; cbn; auto
              | exists []; now rewrite app_nil_r]).
  - unfold img_onError. cbn. destruct hp; unfold fire_onerror; cbn;
      (split; [unfold direct_strategy; cbn; auto
              | exists []; now rewrite app_nil_r]).
  - unfold fire_interval. cbn. destruct Hr as [-> | ->]; cbn.
    + split; [unfold direct_strategy; cbn; auto
             | exists []; now rewrite app_nil_r].
    + split; [unfold direct_strategy; cbn; auto|].
      exists [u +:+ "?t=" +:+ pretty t]. split; [reflexivity|].
      constructor; [now exists t | constructor].
Qed.

Lemma direct_strategy_handle_all (u : string) (evs : list event) :
  forall c : camera,
  direct_strategy u c ->
  exists new, requests (handle_all evs c) = requests c ++ new
              /\ Forall (is_direct_poll u) new.
Proof.
  induction evs as [|ev evs IH]; intros c Hc.
  - exists []. now rewrite app_nil_r.
  - destruct (direct_strategy_handle u c ev Hc) as (Hc' & new1 & R1 & F1).
    destruct (IH _ Hc') as (new2 & R2 & F2).
    exists (new1 ++ new2).
    change (handle_all (ev :: evs) c) with (handle_all evs (handle c ev)).
    rewrite R2, R1, <- app_assoc. split; [reflexivity|].
    now apply Forall_app.
Qed.

(** C9. Network-camera connection fallback: for a connection attempt with
    a valid URL, an image element and no polling timer left running, the
    first request goes to the proxy URL; if that request loads, no direct
    request is made; if it fails, exactly one request to the direct
    snapshot URL is made, and a failure of that one makes no further
    request; when the direct attempt loads, the direct poller is the one
    installed on the timer, each of its ticks requests the direct URL, and
    whatever happens afterwards every request is a poll of the direct URL
    and none goes through the proxy. *)
Theorem network_camera_fallback (URL_valid : string -> bool)
    (encodeURIComponent : string -> string) (c : camera) (evs : list event)
    (timestamp : Z) :
  networkCameraUrl c <> "" ->
  URL_valid (networkCameraUrl c) = true ->
  imgRef c = true ->
  refreshIntervalRef c = None ->
  requests_since c (startNetworkCamera URL_valid encodeURIComponent c)
  = [proxy_of encodeURIComponent (snapshot_of (networkCameraUrl c))]
  /\ requests_since (startNetworkCamera URL_valid encodeURIComponent c)
       (handle (startNetworkCamera URL_valid encodeURIComponent c) ImgLoad)
     = []
  /\ requests_since (startNetworkCamera URL_valid encodeURIComponent c)
       (handle (startNetworkCamera URL_valid encodeURIComponent c) ImgError)
     = [snapshot_of (networkCameraUrl c)]
  /\ requests_since
       (handle_all [ImgError]
          (startNetworkCamera URL_valid encodeURIComponent c))
       (handle_all [ImgError; ImgError]
          (startNetworkCamera URL_valid encodeURIComponent c))
     = []
  /\ refreshIntervalRef
       (handle_all [ImgError; ImgLoad]
          (startNetworkCamera URL_valid encodeURIComponent c))
     = Some (RefreshDirect (snapshot_of (networkCameraUrl c)))
  /\ requests_since
       (handle_all [ImgError; ImgLoad]
          (startNetworkCamera URL_valid encodeURIComponent c))
       (handle_all [ImgError; ImgLoad; IntervalTick timestamp]
          (startNetworkCamera URL_valid encodeURIComponent c))
     = [snapshot_of (networkCameraUrl c) +:+ "?t=" +:+ pretty timestamp]
  /\ Forall (is_direct_poll (snapshot_of (networkCameraUrl c)))
       (requests_since
          (handle_all [ImgError; ImgLoad]
             (startNetworkCamera URL_valid encodeURIComponent c))
          (handle_all (ImgError :: ImgLoad :: evs)
             (startNetworkCamera URL_valid encodeURIComponent c))).
Proof.
  intros Hne Hv Hi Hr.
  assert (Hs : startNetworkCamera URL_valid encodeURIComponent c
               = set_src (proxy_of encodeURIComponent
                            (snapshot_of (networkCameraUrl c)))
                   (set_handlers
                      (ProxyOnload (hasPermission c)
                         (proxy_of encodeURIComponent
                            (snapshot_of (networkCameraUrl c))))
                      (ProxyOnerror (snapshot_of (networkCameraUrl c)))
                      false c)).
  { unfold startNetworkCamera. rewrite Hv, Hi.
    destruct (String.eqb_spec (networkCameraUrl c) ""); [contradiction|].
    reflexivity. }
  rewrite Hs. clear Hs.
  set (u := snapshot_of (networkCameraUrl c)).
  set (px := proxy_of encodeURIComponent u).
  set (c1 := set_src px (set_handlers (ProxyOnload (hasPermission c) px)
                           (ProxyOnerror u) false c)).
  change (handle_all [ImgError] c1) with (handle c1 ImgError).
  change (handle_all [ImgError; ImgError] c1)
    with (handle (handle c1 ImgError) ImgError).
  change (handle_all [ImgError; ImgLoad] c1)
    with (handle (handle c1 ImgError) ImgLoad).
  change (handle_all [ImgError; ImgLoad; IntervalTick timestamp] c1)
    with (handle (handle (handle c1 ImgError) ImgLoad) (IntervalTick timestamp)).
  change (handle_all (ImgError :: ImgLoad :: evs) c1)
    with (handle_all evs (handle (handle c1 ImgError) ImgLoad)).
  assert (D2 : direct_strategy u (handle c1 ImgError)
               /\ refreshIntervalRef (handle c1 ImgError) = None
               /\ requests (handle c1 ImgError) = requests c1 ++ [u]).
  { subst c1. cbn [handle]. unfold img_onError, fire_onerror, direct_strategy.
    destruct (hasPermission _); cbn; rewrite Hi, Hr; repeat split;
      try (now left). }
  destruct D2 as (D2 & I2 & R2).
  split; [now apply requests_since_app|].
  split.
  { apply requests_since_app. subst c1. cbn. rewrite Hr. cbn.
    now rewrite app_nil_r. }
  split; [now apply requests_since_app|].
  generalize dependent (handle c1 ImgError). intros c2 D2 I2 _.
  assert (D3 : direct_strategy u (handle c2 ImgLoad)
               /\ refreshIntervalRef (handle c2 ImgLoad)
                  = Some (RefreshDirect u)).
  { destruct D2 as (Di & Dl & De & _).
    cbn [handle]. unfold fire_onload, direct_strategy. rewrite Dl. cbn.
    rewrite I2. cbn. rewrite Di. repeat split; auto. }
  destruct D3 as (D3 & I3).
  split.
  { destruct (direct_strategy_handle u c2 ImgError D2) as (_ & new & R & F).
    apply requests_since_app.
    cbn [handle] in *. unfold fire_onerror, img_onError in *.
    destruct D2 as (_ & _ & De & _).
    destruct (hasPermission c2); cbn in *; rewrite De in *; cbn in *;
      now rewrite app_nil_r. }
  split; [exact I3|].
  generalize dependent (handle c2 ImgLoad). intros c3 D3 I3.
  split.
  { apply requests_since_app. cbn [handle]. unfold fire_interval.
    destruct D3 as (Di & _). now rewrite I3, Di. }
  destruct (direct_strategy_handle_all u evs c3 D3) as (new & R & F).
  now rewrite (requests_since_app _ _ _ R).
Qed.

Lemma network_camera_fallback_witness :
  networkCameraUrl Sample.camera0 <> ""
  /\ Sample.http_url (networkCameraUrl Sample.camera0) = true
  /\ imgRef Sample.camera0 = true
  /\ refreshIntervalRef Sample.camera0 = None
  /\ requests_since Sample.camera0
       (startNetworkCamera Sample.http_url Sample.unescaped Sample.camera0)
     = ["http://localhost:8000/proxy/camera?url=http://192.168.1.100:8080/shot.jpg"]
  /\ requests_since
       (startNetworkCamera Sample.http_url Sample.unescaped Sample.camera0)
       (handle
          (startNetworkCamera Sample.http_url Sample.unescaped Sample.camera0)
          ImgError)
     = ["http://192.168.1.100:8080/shot.jpg"].
Proof.
  split; [discriminate|]. split; [reflexivity|].
  split; [reflexivity|]. split; [reflexivity|].
  destruct (network_camera_fallback Sample.http_url Sample.unescaped
              Sample.camera0 [IntervalTick 5; ImgLoad; IntervalTick 6] 7)
    as (H1 & _ & H3 & _); [discriminate | reflexivity ..|].
  split; [exact H1 | exact H3].
Defined.

Lemma monitor_app (mode : cameraMode) (l1 l2 : list tick) (st : stats) :
  monitor mode (l1 ++ l2) st = monitor mode l2 (monitor mode l1 st).
Proof. unfold monitor. apply fold_left_app. Qed.

(** One tick either leaves the statistics alone or applies the updater of
    an answered request. *)
Lemma tick_stats_cases (mode : cameraMode) (st : stats) (t : tick) :
  tick_stats mode st t = st
  \/ exists result,
       tick_attempt t = Answers result
       /\ source_ready mode (tick_elements t) = true
       /\ tick_stats mode st t = update_stats (tick_platform t) result st.
Proof.
  unfold tick_stats, captureAndDetect.
  destruct (source_ready mode (tick_elements t)); [|now left].
  destruct (tick_attempt t) as [| |result]; [now left .. |].
  right. exists result. repeat split.
Qed.

Lemma tick_stats_monotone (mode : cameraMode) (st : stats) (t : tick) :
  framesProcessed st <= framesProcessed (tick_stats mode st t)
  /\ fireDetections st <= fireDetections (tick_stats mode st t)
  /\ (fireDetections st <= framesProcessed st ->
      fireDetections (tick_stats mode st t)
      <= framesProcessed (tick_stats mode st t)).
Proof.
  destruct (tick_stats_cases mode st t) as [-> | (result & _ & _ & ->)].
  - repeat split; auto.
  - unfold update_stats. cbn. destruct (result_has_fire result);
      repeat split; lia.
Qed.

Lemma monitor_monotone (mode : cameraMode) (ticks : list tick) :
  forall st : stats,
  framesProcessed st <= framesProcessed (monitor mode ticks st)
  /\ fireDetections st <= fireDetections (monitor mode ticks st)
  /\ (fireDetections st <= framesProcessed st ->
      fireDetections (monitor mode ticks st)
      <= framesProcessed (monitor mode ticks st)).
Proof.
  induction ticks as [|t ticks IH]; intros st; [repeat split; auto|].
  change (monitor mode (t :: ticks) st)
    with (monitor mode ticks (tick_stats mode st t)).
  destruct (tick_stats_monotone mode st t) as (H1 & H2 & H3).
  destruct (IH (tick_stats mode st t)) as (I1 & I2 & I3).
  repeat split; lia.
Qed.

(** C10. The statistics of the capture loop: over every sequence of ticks
    from the initial statistics, [framesProcessed] and [fireDetections]
    never decrease from one point of the sequence to a later one, and
    [fireDetections] never exceeds [framesProcessed]; a tick changes the
    statistics only when its request was answered (a tick whose source is
    not ready, whose capture throws or whose request fails leaves them as
    they were), and changes [lastDetection] only when the answer has
    [has_fire]. *)
Theorem capture_statistics_invariant (mode : cameraMode)
    (before after : list tick) (t : tick) (st : stats) :
  framesProcessed (monitor mode before stats_initial)
  <= framesProcessed (monitor mode (before ++ after) stats_initial)
  /\ fireDetections (monitor mode before stats_initial)
     <= fireDetections (monitor mode (before ++ after) stats_initial)
  /\ fireDetections (monitor mode (before ++ after) stats_initial)
     <= framesProcessed (monitor mode (before ++ after) stats_initial)
  /\ (tick_stats mode st t = st
      \/ exists result,
           tick_attempt t = Answers result
           /\ source_ready mode (tick_elements t) = true
           /\ framesProcessed (tick_stats mode st t) = framesProcessed st + 1
           /\ fireDetections (tick_stats mode st t)
              = fireDetections st + (if result_has_fire result then 1 else 0))
  /\ (lastDetection (tick_stats mode st t) = lastDetection st
      \/ exists result,
           tick_attempt t = Answers result /\ result_has_fire result = true)
  /\ match tick_attempt t with
     | Answers _ => True
     | CaptureThrows | RequestFails => tick_stats mode st t = st
     end.
Proof.
  rewrite monitor_app.
  destruct (monitor_monotone mode after (monitor mode before stats_initial))
    as (H1 & H2 & _).
  destruct (monitor_monotone mode (before ++ after) stats_initial)
    as (_ & _ & H3).
  rewrite monitor_app in H3.
  split; [exact H1|]. split; [exact H2|]. split; [apply H3; cbn; lia|].
  destruct (tick_stats_cases mode st t) as [E | (result & Ha & Hr & E)].
  - rewrite E. split; [now left|]. split; [now left|].
    destruct (tick_attempt t); auto.
  - split.
    { right. exists result. rewrite E. unfold update_stats. cbn.
      repeat split; auto. destruct (result_has_fire result); lia. }
    split.
    { rewrite E. unfold update_stats. cbn.
      destruct (result_has_fire result) eqn:Ef; [right | now left].
      exists result. now split. }
    now rewrite Ha.
Qed.

End CameraClaims.

(** ** Persistence: the JSON text that is written reads back *)

Section JsonTextFacts.
Import Str JsonText.

Lemma length_append (a b : string) :
  String.length (a +:+ b) = String.length a + String.length b.
Proof.
  induction a as [|c a IH]; [reflexivity|].
  rewrite append_cons. cbn [String.length]. now rewrite IH.
Qed.

(** An escaped code unit reads back as the code unit. *)
Lemma parse_chars_escape_char (c : ascii) (tail : string) :
  parse_chars (escape_char c +:+ tail)
  = match parse_chars tail with
    | Some (str, after) => Some (String c str, after)
    | None => None
    end.
Proof.
  destruct c as [[] [] [] [] [] [] [] []]; reflexivity.
Qed.

Lemma parse_chars_escape (s rest : string) :
  parse_chars (escape s +:+ String dq rest) = Some (s, rest).
Proof.
  induction s as [|c s IH]; [reflexivity|].
  cbn [escape]. rewrite append_assoc, parse_chars_escape_char, IH.
  reflexivity.
Qed.

Lemma quote_app (s rest : string) :
  quote s +:+ rest = String dq (escape s +:+ String dq rest).
Proof.
  unfold quote. rewrite append_cons, append_assoc. reflexivity.
Qed.

(** A character of a numeric token starts nothing else. *)
Lemma number_char_head (c : ascii) :
  is_number_char c = true ->
  is_ws c = false /\ Ascii.eqb c dq = false /\ Ascii.eqb c "[" = false
  /\ Ascii.eqb c "{" = false /\ Ascii.eqb c "]" = false
  /\ Ascii.eqb c "}" = false /\ Ascii.eqb "n" c = false
  /\ Ascii.eqb "t" c = false /\ Ascii.eqb "f" c = false.
Proof.
  destruct c as [[] [] [] [] [] [] [] []]; intros H; try discriminate H;
    repeat split.
Qed.

Lemma span_number_token (tok rest : string) :
  all_number_chars tok = true -> follows rest = true ->
  span_number (tok +:+ rest) = (tok, rest).
Proof.
  intros Ht Hr. induction tok as [|c tok IH].
  - rewrite append_empty_l. destruct rest as [|c rest]; [reflexivity|].
    cbn [follows span_number] in *. now destruct (is_number_char c).
  - cbn [all_number_chars] in Ht. apply andb_true_iff in Ht as [Hc Ht].
    rewrite append_cons. cbn [span_number]. now rewrite Hc, (IH Ht).
Qed.

Lemma skip_ws_head (c : ascii) (s : string) :
  is_ws c = false -> skip_ws (String c s) = String c s.
Proof. intros H. cbn. now rewrite H. Qed.

(** Members read in order make the object they were written from, when
    no key is repeated. *)
Lemma set_field_fresh (fields : list (string * json)) (kv : string * json) :
  existsb (String.eqb (fst kv)) (map fst fields) = false ->
  set_field fields kv = fields ++ [kv].
Proof.
  intros H. unfold set_field.
  replace (existsb (fun f => String.eqb (fst f) (fst kv)) fields) with false;
    [reflexivity|].
  symmetry. rewrite <- H. clear H.
  induction fields as [|f fields IH]; [reflexivity|].
  cbn. rewrite IH. f_equal. apply String.eqb_sym.
Qed.

Lemma fold_set_field (members : list (string * json)) :
  forall acc : list (string * json),
  distinct (map fst (acc ++ members)) = true ->
  fold_left set_field members acc = acc ++ members.
Proof.
  induction members as [|kv members IH]; intros acc H;
    [now rewrite app_nil_r|].
  cbn [fold_left].
  assert (existsb (String.eqb (fst kv)) (map fst acc) = false) as Hf.
  { clear IH. induction acc as [|a acc IHa]; [reflexivity|].
    cbn in H. apply andb_true_iff in H as [Ha H].
    cbn. rewrite (IHa H), orb_false_r.
    apply negb_true_iff in Ha. rewrite map_app, existsb_app in Ha.
    apply orb_false_iff in Ha as [_ Ha]. cbn in Ha.
    apply orb_false_iff in Ha as [Ha _]. now rewrite String.eqb_sym. }
  rewrite (set_field_fresh _ _ Hf), IH, <- app_assoc; [reflexivity|].
  now rewrite <- app_assoc.
Qed.

End JsonTextFacts.

Section JsonInduction.

(** Induction on a value with the premise for every element. *)
Lemma json_ind2 (P : json -> Prop)
    (Hnull : P JNull) (Hbool : forall b, P (JBool b))
    (Hnum : forall x, P (JNum x)) (Hstr : forall s, P (JStr s))
    (Harr : forall items, Forall P items -> P (JArr items))
    (Hobj : forall fields,
        Forall (fun kv => P (snd kv)) fields -> P (JObj fields)) :
  forall v : json, P v.
Proof.
  fix IH 1. intros [ |b|x|s|items|fields].
  - exact Hnull.
  - apply Hbool.
  - apply Hnum.
  - apply Hstr.
  - apply Harr. induction items as [|v items IHitems]; constructor;
      [apply IH | exact IHitems].
  - apply Hobj. induction fields as [|[k v] fields IHfields]; constructor;
      [apply IH | exact IHfields].
Qed.

End JsonInduction.

Section JsonRoundTrip.
Import Str JsonText.

Variable Number_toString : float -> string.
Variable Number_parse : string -> option float.
Hypothesis law : number_text_law Number_toString Number_parse.


Lemma storable_number_finite (x : float) :
  storable_number x = true -> finite x = true.
Proof.
  unfold storable_number, finite. now destruct (FloatOps.Prim2SF x).
Qed.

Lemma number_text_head (x : float) :
  storable_number x = true ->
  exists c t, Number_toString x = String c t /\ is_number_char c = true
              /\ all_number_chars t = true.
Proof.
  intros Hx. destruct (law x Hx) as (Hne & Hall & _).
  destruct (Number_toString x) as [|c t]; [contradiction|].
  cbn in Hall. apply andb_true_iff in Hall as [Hc Ht]. eauto.
Qed.

(** The text of a value begins with a character that is not white space
    and closes nothing. *)
Lemma stringify_head (v : json) :
  Forall (fun x => storable_number x = true) (numbers v) ->
  exists c t, stringify Number_toString v = String c t /\ is_ws c = false
              /\ Ascii.eqb c "]" = false /\ Ascii.eqb c "}" = false.
Proof.
  intros Hn. destruct v as [ |[]|x|s|items|fields];
    try (eexists _, _; repeat split; reflexivity).
  cbn [numbers] in Hn. inversion Hn as [|? ? Hx _]; subst.
  cbn [JsonText.stringify]. rewrite (storable_number_finite x Hx).
  destruct (number_text_head x Hx) as (c & t & -> & Hc & _).
  destruct (number_char_head c Hc) as (H1 & _ & _ & _ & H2 & H3 & _).
  eauto 10.
Qed.

Lemma join_cons2 (sep x y : string) (l : list string) :
  join sep (x :: y :: l) = x +:+ sep +:+ join sep (y :: l).
Proof. reflexivity. Qed.

(** The elements of an array, from behind its bracket. *)
Lemma parse_elements_stringify (items : list json) :
  Forall (fun v => forall fuel rest,
            size v <= fuel -> follows rest = true ->
            parse_value Number_parse fuel (stringify Number_toString v +:+ rest) = Some (v, rest)) items ->
  items <> [] ->
  forall fuel rest,
    list_sum (map (fun x => S (size x)) items) <= fuel ->
    parse_elements Number_parse fuel
      (join "," (map (stringify Number_toString) items) +:+ String "]" rest)
    = Some (items, rest).
Proof.
  induction 1 as [|v items Hv _ IH]; intros Hne fuel rest Hfuel;
    [contradiction|].
  cbn [map list_sum fold_right] in Hfuel.
  destruct fuel as [|fuel]; [lia|]. cbn [JsonText.parse_elements].
  destruct items as [|v' items].
  - cbn [map join]. rewrite Hv by (cbn in Hfuel; (lia || reflexivity)).
    reflexivity.
  - cbn [map]. rewrite join_cons2, !append_assoc.
    change ("," +:+ ?x) with (String "," x).
    rewrite Hv by (lia || reflexivity).
    cbn [skip_ws is_ws Ascii.eqb orb]. cbn.
    rewrite IH; [reflexivity|discriminate|]. cbn [map list_sum fold_right] in *. lia.
Qed.

(** The members of an object, from behind its brace. *)
Lemma parse_members_stringify (fields : list (string * json)) :
  Forall (fun kv => forall fuel rest,
            size (snd kv) <= fuel -> follows rest = true ->
            parse_value Number_parse fuel
              (stringify Number_toString (snd kv) +:+ rest)
            = Some (snd kv, rest)) fields ->
  fields <> [] ->
  forall fuel rest,
    list_sum (map (fun kv => S (size (snd kv))) fields) <= fuel ->
    parse_members Number_parse fuel
      (join ","
         (map (fun kv => let (k, x) := kv : string * json in
                         quote k +:+ ":" +:+ stringify Number_toString x)
            fields)
       +:+ String "}" rest)
    = Some (fields, rest).
Proof.
  induction 1 as [|[k x] fields Hx _ IH]; intros Hne fuel rest Hfuel;
    [contradiction|].
  cbn [map list_sum fold_right snd] in Hfuel. cbn [snd] in Hx.
  destruct fuel as [|fuel]; [lia|]. cbn [JsonText.parse_members].
  destruct fields as [|kv' fields].
  - cbn [map join]. cbv beta iota. rewrite append_assoc, quote_app.
    change (skip_ws (String dq ?t)) with (String dq t).
    change (Ascii.eqb dq dq) with true. cbv iota.
    rewrite parse_chars_escape.
    change ((":" +:+ ?a) +:+ ?b) with (String ":" (a +:+ b)).
    change (skip_ws (String ":" ?t)) with (String ":" t).
    change (Ascii.eqb ":" ":") with true. cbv iota.
    rewrite Hx by (lia || reflexivity). reflexivity.
  - cbn [map]. rewrite join_cons2. cbv beta iota.
    rewrite !append_assoc, quote_app.
    change (skip_ws (String dq ?t)) with (String dq t).
    change (Ascii.eqb dq dq) with true. cbv iota.
    rewrite parse_chars_escape.
    change (":" +:+ ?a) with (String ":" a).
    change ("," +:+ ?a) with (String "," a).
    change (skip_ws (String ":" ?t)) with (String ":" t).
    change (Ascii.eqb ":" ":") with true. cbv iota.
    rewrite Hx by (lia || reflexivity).
    change (skip_ws (String "," ?t)) with (String "," t).
    change (Ascii.eqb "," ",") with true. cbv iota.
    rewrite IH; [reflexivity|discriminate|].
    cbn [map list_sum fold_right] in *. lia.
Qed.

Lemma Forall_flat_map_inv {A B : Type} (P : B -> Prop) (f : A -> list B)
    (l : list A) :
  Forall P (flat_map f l) -> Forall (fun x => Forall P (f x)) l.
Proof.
  induction l as [|x l IH]; intros H; constructor;
    cbn in H; apply Forall_app in H as [H1 H2]; auto.
Qed.

Lemma head_append (c : ascii) (t x rest : string) :
  x = String c t -> x +:+ rest = String c (t +:+ rest).
Proof. intros ->. apply append_cons. Qed.

(** The text of a value, followed by anything that does not extend a
    number, reads back as the value and leaves what follows. *)
Lemma parse_value_stringify (v : json) :
  Forall (fun x => storable_number x = true) (numbers v) ->
  plain_keys v = true ->
  forall fuel rest,
    size v <= fuel -> follows rest = true ->
    parse_value Number_parse fuel (stringify Number_toString v +:+ rest)
    = Some (v, rest).
Proof.
  induction v as [ |b|x|s|items IH|fields IH] using json_ind2;
    intros Hn Hk fuel rest Hfuel Hrest;
    (destruct fuel as [|fuel]; [cbn in Hfuel; lia|]).
  - reflexivity.
  - now destruct b.
  - cbn [numbers] in Hn. inversion Hn as [|? ? Hx _]; subst.
    cbn [JsonText.stringify]. rewrite (storable_number_finite x Hx).
    destruct (law x Hx) as (_ & Hall & Hparse).
    destruct (number_text_head x Hx) as (c & t & E & Hc & Ht).
    rewrite E in *. rewrite append_cons.
    destruct (number_char_head c Hc)
      as (W & Q & A & O & _ & _ & N & T & F).
    cbn [JsonText.parse_value]. rewrite (skip_ws_head c _ W), Q, A, O.
    cbn [startsWith]. rewrite N, T, F. cbn [andb].
    rewrite <- append_cons, (span_number_token _ _ Hall Hrest), Hparse.
    reflexivity.
  - cbn [JsonText.stringify]. rewrite quote_app.
    cbn [JsonText.parse_value].
    change (skip_ws (String dq ?t)) with (String dq t).
    change (Ascii.eqb dq dq) with true. cbv iota.
    now rewrite parse_chars_escape.
  - cbn [JsonText.stringify].
    change (("[" +:+ ?a) +:+ ?b) with (String "[" (a +:+ b)).
    rewrite append_assoc. change ("]" +:+ rest) with (String "]" rest).
    cbn [JsonText.parse_value].
    change (skip_ws (String "[" ?t)) with (String "[" t).
    change (Ascii.eqb "[" dq) with false.
    change (Ascii.eqb "[" "[") with true. cbv iota.
    destruct items as [|v items]; [reflexivity|].
    cbn [numbers] in Hn. apply Forall_flat_map_inv in Hn.
    cbn [plain_keys] in Hk.
    assert (Forall (fun v => forall fuel rest,
                      size v <= fuel -> follows rest = true ->
                      parse_value Number_parse fuel
                        (stringify Number_toString v +:+ rest)
                      = Some (v, rest)) (v :: items)) as Hall.
    { clear Hfuel. revert Hn Hk. induction IH as [|w l Hw _ IHl];
        intros Hn Hk; constructor.
      - inversion Hn; subst. cbn in Hk.
        apply andb_true_iff in Hk as [Hk _]. now apply Hw.
      - inversion Hn; subst. cbn in Hk.
        apply andb_true_iff in Hk as [_ Hk]. now apply IHl. }
    assert (startsWith "]"
              (skip_ws (join "," (map (stringify Number_toString) (v :: items))
                        +:+ String "]" rest)) = false) as ->.
    { inversion Hn as [|? ? Hv _]; subst.
      destruct (stringify_head v Hv) as (c & t & E & W & B & _).
      destruct items as [|v' items]; cbn [map]; [cbn [join]|rewrite join_cons2];
        rewrite E, !append_cons, (skip_ws_head c _ W); cbn [startsWith];
        now rewrite Ascii.eqb_sym, B. }
    rewrite (parse_elements_stringify _ Hall); [reflexivity|discriminate|].
    cbn [size] in Hfuel. lia.
  - cbn [JsonText.stringify].
    change (("{" +:+ ?a) +:+ ?b) with (String "{" (a +:+ b)).
    rewrite append_assoc. change ("}" +:+ rest) with (String "}" rest).
    cbn [JsonText.parse_value].
    change (skip_ws (String "{" ?t)) with (String "{" t).
    change (Ascii.eqb "{" dq) with false.
    change (Ascii.eqb "{" "[") with false.
    change (Ascii.eqb "{" "{") with true. cbv iota.
    destruct fields as [|[k x] fields]; [reflexivity|].
    cbn [numbers] in Hn. apply Forall_flat_map_inv in Hn.
    cbn [plain_keys] in Hk.
    apply andb_true_iff in Hk as [Hk Hsub].
    apply andb_true_iff in Hk as [_ Hdistinct].
    assert (Forall (fun kv => forall fuel rest,
                      size (snd kv) <= fuel -> follows rest = true ->
                      parse_value Number_parse fuel
                        (stringify Number_toString (snd kv) +:+ rest)
                      = Some (snd kv, rest)) ((k, x) :: fields)) as Hall.
    { clear Hfuel Hdistinct. revert Hn Hsub.
      induction IH as [|w l Hw _ IHl]; intros Hn Hsub; constructor.
      - inversion Hn; subst. cbn in Hsub.
        apply andb_true_iff in Hsub as [Hsub _]. now apply Hw.
      - inversion Hn; subst. cbn in Hsub.
        apply andb_true_iff in Hsub as [_ Hsub]. now apply IHl. }
    assert (startsWith "}"
              (skip_ws
                 (join ","
                    (map (fun kv => let (k, x) := kv : string * json in
                                    quote k +:+ ":"
                                    +:+ stringify Number_toString x)
                       ((k, x) :: fields))
                  +:+ String "}" rest)) = false) as ->.
    { destruct fields as [|kv' fields]; cbn [map];
        [cbn [join]|rewrite join_cons2];
        rewrite ?append_assoc, quote_app; reflexivity. }
    rewrite (parse_members_stringify _ Hall); [|discriminate|].
    + now rewrite fold_set_field.
    + cbn [size] in Hfuel. lia.
Qed.

Lemma size_join (texts : list string) (sizes : list nat) :
  Forall2 (fun n t => n <= String.length t) sizes texts ->
  list_sum (map S sizes) <= S (String.length (join "," texts)).
Proof.
  induction 1 as [|n t sizes texts Hn H IH]; [cbn; lia|].
  destruct H as [|n' t' sizes texts Hn' H].
  - cbn. lia.
  - rewrite join_cons2, !length_append.
    cbn [map list_sum fold_right String.length] in *. lia.
Qed.

(** The text is at least as long as the fuel the value needs. *)
Lemma size_le_length (v : json) :
  Forall (fun x => storable_number x = true) (numbers v) ->
  size v <= String.length (stringify Number_toString v).
Proof.
  induction v as [ |b|x|s|items IH|fields IH] using json_ind2; intros Hn.
  - cbn. lia.
  - destruct b; cbn; lia.
  - cbn [numbers] in Hn. inversion Hn as [|? ? Hx _]; subst.
    cbn [JsonText.stringify size]. rewrite (storable_number_finite x Hx).
    destruct (number_text_head x Hx) as (c & t & -> & _). cbn. lia.
  - cbn. lia.
  - cbn [JsonText.stringify size numbers] in *.
    apply Forall_flat_map_inv in Hn.
    rewrite !length_append. cbn [String.length].
    assert (list_sum (map (fun x => S (size x)) items)
            <= S (String.length
                    (join "," (map (stringify Number_toString) items)))) as H.
    { rewrite <- (map_map size S). apply size_join.
      clear - IH Hn. induction IH as [|w l Hw _ IHl]; cbn; constructor.
      - inversion Hn; subst. now apply Hw.
      - inversion Hn; subst. now apply IHl. }
    lia.
  - cbn [JsonText.stringify size numbers] in *.
    apply Forall_flat_map_inv in Hn.
    rewrite !length_append. cbn [String.length].
    assert (list_sum (map (fun kv => S (size (snd kv))) fields)
            <= S (String.length
                    (join ","
                       (map (fun kv => let (k, x) := kv : string * json in
                                       quote k +:+ ":"
                                       +:+ stringify Number_toString x)
                          fields)))) as H.
    { rewrite <- (map_map (fun kv => size (snd kv)) S). apply size_join.
      clear - IH Hn. induction IH as [|[k w] l Hw _ IHl]; cbn; constructor.
      - inversion Hn; subst. rewrite !length_append.
        cbn [snd] in *. specialize (Hw ltac:(assumption)). lia.
      - inversion Hn; subst. now apply IHl. }
    lia.
Qed.

(** [JSON.parse(JSON.stringify(v))] is [v], for a value whose numbers a
    text can carry and whose keys are plain. *)
Lemma parse_stringify (v : json) :
  Forall (fun x => storable_number x = true) (numbers v) ->
  plain_keys v = true ->
  parse Number_parse (stringify Number_toString v) = Some v.
Proof.
  intros Hn Hk. unfold parse.
  rewrite <- (append_empty_r (stringify Number_toString v)) at 2.
  rewrite parse_value_stringify; [reflexivity|exact Hn|exact Hk| |reflexivity].
  pose proof (size_le_length v Hn). lia.
Qed.

Lemma stringify_array_nonempty (items : list json) :
  stringify Number_toString (JArr items) <> EmptyString.
Proof. intros H. discriminate H. Qed.

End JsonRoundTrip.

(** ** The number text of the examples keeps the platform's promise *)

Section BinaryTextFacts.
Import JsonText BinaryText.

Lemma uint_text_number_chars (d : Decimal.uint) :
  all_number_chars (DecimalString.NilEmpty.string_of_uint d) = true.
Proof. induction d; cbn; auto. Qed.

Lemma split_e_uint (d : Decimal.uint) (behind : string) :
  split_e (DecimalString.NilEmpty.string_of_uint d +:+ String "e" behind)
  = (DecimalString.NilEmpty.string_of_uint d, Some behind).
Proof.
  induction d; cbn [DecimalString.NilEmpty.string_of_uint];
    rewrite ?append_cons; cbn [split_e Ascii.eqb Bool.eqb]; cbn;
    rewrite ?IHd; reflexivity.
Qed.

Lemma uint_text_head (d : Decimal.uint) (behind : string) :
  exists c t,
    DecimalString.NilEmpty.string_of_uint d +:+ String "e" behind
    = String c t
    /\ Ascii.eqb c "-" = false.
Proof. destruct d; eexists _, _; split; reflexivity. Qed.

Lemma all_number_chars_app (a b : string) :
  all_number_chars a = true -> all_number_chars b = true ->
  all_number_chars (a +:+ b) = true.
Proof.
  intros Ha Hb. induction a as [|c a IH]; [exact Hb|].
  cbn in Ha. apply andb_true_iff in Ha as [Hc Ha].
  rewrite append_cons. cbn. now rewrite Hc, IH.
Qed.

(** The text of a storable number is a numeric token that reads back as
    the number. *)
Lemma binary_text_law : number_text_law toString parse.
Proof.
  intros x Hx. unfold storable_number in Hx.
  pose proof (FloatAxioms.SF2Prim_Prim2SF x) as Hback.
  unfold toString.
  destruct (FloatOps.Prim2SF x) as [[]| | |s m e]; try discriminate Hx.
  - repeat split; [intros H; discriminate H|].
    cbn. now rewrite <- Hback.
  - assert (all_number_chars
              (DecimalString.NilEmpty.string_of_int (Z.to_int e)) = true)
      as He.
    { destruct (Z.to_int e); cbn; apply uint_text_number_chars. }
    split; [|split].
    + destruct s; [intros H; discriminate H|].
      rewrite append_empty_l.
      destruct (uint_text_head (Pos.to_uint m)
                  (DecimalString.NilEmpty.string_of_int (Z.to_int e)))
        as (c & t & -> & _).
      intros H; discriminate H.
    + apply all_number_chars_app; [now destruct s|].
      apply all_number_chars_app; [apply uint_text_number_chars|].
      cbn. exact He.
    + assert (of_parts s
                (DecimalString.NilEmpty.string_of_uint (Pos.to_uint m)
                 +:+ String "e"
                       (DecimalString.NilEmpty.string_of_int (Z.to_int e)))
              = Some x) as Hparts.
      { unfold of_parts.
        rewrite split_e_uint, DecimalString.NilEmpty.usu,
          DecimalString.NilEmpty.isi, DecimalPos.Unsigned.of_to,
          DecimalZ.of_to.
        now rewrite Hback. }
      destruct s.
      * exact Hparts.
      * rewrite append_empty_l.
        destruct (uint_text_head (Pos.to_uint m)
                    (DecimalString.NilEmpty.string_of_int (Z.to_int e)))
          as (c & t & E & Hc).
        unfold parse. rewrite E, Hc, <- E. exact Hparts.
Qed.

End BinaryTextFacts.

(** ** The two lists in local storage *)

Section PersistenceFacts.
Import Api App Storage JsonText.

Lemma restore_saved (JSON_parse : string -> option json) (key saved : string)
    (ls : gmap string string) :
  ls !! key = Some saved -> saved <> "" ->
  restore JSON_parse key ls = JSON_parse saved.
Proof.
  intros Hl Hn. unfold restore. rewrite Hl.
  destruct (String.eqb_spec saved ""); [contradiction | reflexivity].
Qed.

(** Nothing saved yet: both lists start empty. *)
Lemma restore_fresh (JSON_parse : string -> option json) (key : string) :
  restore JSON_parse key (∅ : gmap string string) = Some (JArr []).
Proof. unfold restore. now rewrite lookup_empty. Qed.

(** The objects the handlers build have plain, distinct keys. *)
Lemma Alert_json_plain_keys (show : text -> string) (a : Alert) :
  plain_keys (Alert_json show a) = true.
Proof.
  unfold Alert_json.
  destruct (alert_id a), (frameNumber a), (source a); reflexivity.
Qed.

Lemma detections_json_plain_keys (ds : list Detection) :
  plain_keys (detections_json ds) = true.
Proof.
  unfold detections_json. cbn [plain_keys].
  induction ds as [|d ds IH]; [reflexivity | exact IH].
Qed.

Lemma details_json_plain_keys (show : text -> string) (d : history_details) :
  plain_keys (details_json show d) = true.
Proof.
  destruct d as [ds n frames first avg|[ds|] n avg|[w|] risk|src msg];
    cbn -[detections_json];
    rewrite ?detections_json_plain_keys; try reflexivity.
  destruct first; reflexivity.
Qed.

Lemma detected_value_plain_keys (h : HistoryItem) (v : json) :
  detected_value h = Some v -> plain_keys v = true.
Proof.
  unfold detected_value.
  destruct (history_details_of h) as [? ? ? ? ?|[?|] ? ?|[w|] ?|? ?];
    try destruct (truthy (JNum w)); intros E; inversion E; reflexivity.
Qed.

Lemma HistoryItem_json_plain_keys (show : text -> string) (h : HistoryItem) :
  plain_keys (HistoryItem_json show h) = true.
Proof.
  unfold HistoryItem_json.
  pose proof (details_json_plain_keys show (history_details_of h)) as Hd.
  destruct (detected_value h) as [v|] eqn:E.
  - apply detected_value_plain_keys in E.
    cbn -[details_json]. now rewrite E, Hd.
  - cbn -[details_json]. now rewrite Hd.
Qed.

Lemma alerts_json_plain_keys (show : text -> string) (al : list Alert) :
  plain_keys (alerts_json show al) = true.
Proof.
  unfold alerts_json. cbn [plain_keys].
  induction al as [|a al IH]; [reflexivity|].
  cbn [map forallb]. now rewrite Alert_json_plain_keys.
Qed.

Lemma history_json_plain_keys (show : text -> string)
    (hs : list HistoryItem) :
  plain_keys (history_json show hs) = true.
Proof.
  unfold history_json. cbn [plain_keys].
  induction hs as [|h hs IH]; [reflexivity|].
  cbn [map forallb]. now rewrite HistoryItem_json_plain_keys.
Qed.

(** The properties the page reads of the two kinds of object. *)
Lemma Alert_fields_json (show : text -> string) (a : Alert) :
  Alert_fields (Alert_json show a)
  = [option_map ident_json (alert_id a);
     Some (JStr (show (message a)));
     Some (JStr (show (details a)));
     Some (JStr (severity a));
     Some (JStr (timestamp a));
     option_map JNum (frameNumber a);
     option_map JStr (source a)].
Proof.
  unfold Alert_fields, Alert_json.
  destruct (alert_id a), (frameNumber a), (source a); reflexivity.
Qed.

Lemma HistoryItem_fields_json (show : text -> string) (h : HistoryItem) :
  HistoryItem_fields (HistoryItem_json show h)
  = [Some (ident_json (history_id h));
     Some (JStr (history_type h));
     Some (JStr (filename h));
     Some (JStr (history_timestamp h));
     detected_value h;
     Some (details_json show (history_details_of h))].
Proof.
  unfold HistoryItem_fields, HistoryItem_json.
  destruct (detected_value h); reflexivity.
Qed.

(** What a batch run stores in [detected] is truthy exactly when the
    run found a threat. *)
Lemma handleDetection_settled_history (captured : bool) (pf : platform)
    (name : string) (result : batch_result) (s : state) :
  detectionHistory (handleDetection_settled captured pf name result s)
  = {| history_id := new_id "detection" pf;
       history_type := match result with
                       | FireSmokeResult _ => "Fire & Smoke Detection"
                       | SatelliteResult _ => "Satellite Analysis"
                       end;
       filename := name;
       history_timestamp := toLocaleString pf;
       detected := threatDetected result;
       history_details_of := batch_details result |} :: detectionHistory s.
Proof.
  destruct s as [al hs ia es mon ld dr ef].
  destruct pf as [now rnd ls lts [[| |]|] [| |]];
    lazy -[threatDetected batch_details batch_alert_details andb negb
           new_id];
    destruct (threatDetected result && negb captured);
    destruct result; reflexivity.
Qed.

Lemma detected_value_truthy (captured : bool) (pf : platform) (name : string)
    (result : batch_result) (s : state) :
  exists h,
    head (detectionHistory (handleDetection_settled captured pf name result s))
    = Some h
    /\ detected h = threatDetected result
    /\ truthy_opt (detected_value h) = threatDetected result.
Proof.
  rewrite handleDetection_settled_history.
  eexists. split; [reflexivity|]. split; [reflexivity|].
  destruct result as [[ds|]|[w|]]; try reflexivity.
  unfold detected_value, threatDetected, truthy.
  cbn [history_details_of batch_details detected].
  destruct (negb (PrimFloat.eqb w 0) && PrimFloat.eqb w w) eqn:E.
  - reflexivity.
  - cbn [truthy_opt truthy]. rewrite E. reflexivity.
Qed.

End PersistenceFacts.

Section PersistenceClaims.
Import Api App Storage JsonText.

(** C8. Round-trip persistence, for lists whose numbers a JSON text
    carries. The state's two lists are written to local storage
    (whatever it held before) with [JSON.stringify] and read back at
    startup with [JSON.parse]. When every number in the two lists is
    finite and not the negative zero, and the platform's number text
    reads back as the number, restoring yields under each key the array
    of the same objects in the same order, the two keys not disturbing
    each other; and every restored object has, property by property, what
    the handlers stored: for an alert its id, message, details, severity,
    timestamp, frame number and source, for a history item its id, type,
    file name, timestamp, the stored value of [detected] and its
    details. *)
Theorem persistence_round_trip (Number_toString : float -> string)
    (Number_parse : string -> option float) (show : text -> string)
    (ls : gmap string string) (s : state) :
  number_text_law Number_toString Number_parse ->
  Forall (fun x => storable_number x = true)
    (numbers (alerts_json show (alerts s))) ->
  Forall (fun x => storable_number x = true)
    (numbers (history_json show (detectionHistory s))) ->
  exists restored_alerts restored_history : list json,
    restore (parse Number_parse) alerts_key
      (save (stringify Number_toString) show s ls)
    = Some (JArr restored_alerts)
    /\ restore (parse Number_parse) history_key
         (save (stringify Number_toString) show s ls)
       = Some (JArr restored_history)
    /\ restored_alerts = map (Alert_json show) (alerts s)
    /\ restored_history = map (HistoryItem_json show) (detectionHistory s)
    /\ map Alert_fields restored_alerts
       = map (fun a => [option_map ident_json (alert_id a);
                        Some (JStr (show (message a)));
                        Some (JStr (show (details a)));
                        Some (JStr (severity a));
                        Some (JStr (timestamp a));
                        option_map JNum (frameNumber a);
                        option_map JStr (source a)])
           (alerts s)
    /\ map HistoryItem_fields restored_history
       = map (fun h => [Some (ident_json (history_id h));
                        Some (JStr (history_type h));
                        Some (JStr (filename h));
                        Some (JStr (history_timestamp h));
                        detected_value h;
                        Some (details_json show (history_details_of h))])
           (detectionHistory s).
Proof.
  intros law Ha Hh.
  exists (map (Alert_json show) (alerts s)),
         (map (HistoryItem_json show) (detectionHistory s)).
  unfold save, save_history, save_alerts. repeat split.
  - rewrite (restore_saved _ alerts_key
               (stringify Number_toString (alerts_json show (alerts s)))).
    + apply (parse_stringify _ _ law); [exact Ha|].
      apply alerts_json_plain_keys.
    + rewrite lookup_insert_ne by discriminate. apply lookup_insert_eq.
    + apply stringify_array_nonempty.
  - rewrite (restore_saved _ history_key
               (stringify Number_toString
                  (history_json show (detectionHistory s)))).
    + apply (parse_stringify _ _ law); [exact Hh|].
      apply history_json_plain_keys.
    + apply lookup_insert_eq.
    + apply stringify_array_nonempty.
  - rewrite map_map. apply map_ext. intros a. apply Alert_fields_json.
  - rewrite map_map. apply map_ext. intros h. apply HistoryItem_fields_json.
Qed.

(** The round trip on the page after a video run of ten frames and a
    satellite image rated 0.9, with the number text of [BinaryText]. *)
Lemma persistence_round_trip_witness :
  exists restored_alerts restored_history : list json,
    restore (parse BinaryText.parse) alerts_key
      (save (stringify BinaryText.toString) Sample.show_sample
         (Cases.satellite_state 0.9 Cases.video_state) ∅)
    = Some (JArr restored_alerts)
    /\ restore (parse BinaryText.parse) history_key
         (save (stringify BinaryText.toString) Sample.show_sample
            (Cases.satellite_state 0.9 Cases.video_state) ∅)
       = Some (JArr restored_history)
    /\ restored_alerts
       = map (Alert_json Sample.show_sample)
           (alerts (Cases.satellite_state 0.9 Cases.video_state))
    /\ restored_history
       = map (HistoryItem_json Sample.show_sample)
           (detectionHistory (Cases.satellite_state 0.9 Cases.video_state))
    /\ map Alert_fields restored_alerts
       = map (fun a => [option_map ident_json (alert_id a);
                        Some (JStr (Sample.show_sample (message a)));
                        Some (JStr (Sample.show_sample (details a)));
                        Some (JStr (severity a));
                        Some (JStr (timestamp a));
                        option_map JNum (frameNumber a);
                        option_map JStr (source a)])
           (alerts (Cases.satellite_state 0.9 Cases.video_state))
    /\ map HistoryItem_fields restored_history
       = map (fun h => [Some (ident_json (history_id h));
                        Some (JStr (history_type h));
                        Some (JStr (filename h));
                        Some (JStr (history_timestamp h));
                        detected_value h;
                        Some (details_json Sample.show_sample
                                (history_details_of h))])
           (detectionHistory (Cases.satellite_state 0.9 Cases.video_state)).
Proof.
  apply (persistence_round_trip BinaryText.toString BinaryText.parse
           Sample.show_sample ∅
           (Cases.satellite_state 0.9 Cases.video_state)).
  - exact binary_text_law.
  - apply List.Forall_forall, List.forallb_forall. vm_compute. reflexivity.
  - apply List.Forall_forall, List.forallb_forall. vm_compute. reflexivity.
Defined.

(** C8, as stated, fails on a number that a JSON text does not carry. A
    satellite image the backend rates [1e999], which the page reads as
    [Infinity], is logged with that probability and restored with [null]
    in its place; one rated [-0] is logged with the negative zero in
    [detected] and in the probability and restored with [0] in both. *)
Lemma persistence_round_trip_counterexample :
  history_json Sample.show_sample
    (detectionHistory (Cases.satellite_state infinity (initial [] [])))
  = JArr [JObj [("id", JStr "detection-1700000000000-k3j9x2m1q");
                ("type", JStr "Satellite Analysis");
                ("filename", JStr "tile.png");
                ("timestamp", JStr "1/1/2026, 12:00:00 PM");
                ("detected", JBool true);
                ("details", JObj [("wildfireProb", JNum infinity);
                                  ("riskLevel", JStr "High")])]]
  /\ restore (parse BinaryText.parse) history_key
       (save (stringify BinaryText.toString) Sample.show_sample
          (Cases.satellite_state infinity (initial [] [])) ∅)
     = Some (JArr [JObj [("id", JStr "detection-1700000000000-k3j9x2m1q");
                         ("type", JStr "Satellite Analysis");
                         ("filename", JStr "tile.png");
                         ("timestamp", JStr "1/1/2026, 12:00:00 PM");
                         ("detected", JBool true);
                         ("details", JObj [("wildfireProb", JNull);
                                           ("riskLevel", JStr "High")])]])
  /\ restore (parse BinaryText.parse) history_key
       (save (stringify BinaryText.toString) Sample.show_sample
          (Cases.satellite_state infinity (initial [] [])) ∅)
     <> Some (history_json Sample.show_sample
                (detectionHistory
                   (Cases.satellite_state infinity (initial [] []))))
  /\ history_json Sample.show_sample
       (detectionHistory (Cases.satellite_state neg_zero (initial [] [])))
     = JArr [JObj [("id", JStr "detection-1700000000000-k3j9x2m1q");
                   ("type", JStr "Satellite Analysis");
                   ("filename", JStr "tile.png");
                   ("timestamp", JStr "1/1/2026, 12:00:00 PM");
                   ("detected", JNum neg_zero);
                   ("details", JObj [("wildfireProb", JNum neg_zero);
                                     ("riskLevel", JStr "Low")])]]
  /\ restore (parse BinaryText.parse) history_key
       (save (stringify BinaryText.toString) Sample.show_sample
          (Cases.satellite_state neg_zero (initial [] [])) ∅)
     = Some (JArr [JObj [("id", JStr "detection-1700000000000-k3j9x2m1q");
                         ("type", JStr "Satellite Analysis");
                         ("filename", JStr "tile.png");
                         ("timestamp", JStr "1/1/2026, 12:00:00 PM");
                         ("detected", JNum 0);
                         ("details", JObj [("wildfireProb", JNum 0);
                                           ("riskLevel", JStr "Low")])]])
  /\ PrimFloat.div 1 neg_zero = neg_infinity
  /\ PrimFloat.div 1 0 = infinity.
Proof.
  repeat split; try (vm_compute; reflexivity).
  intros E.
  apply (f_equal (fun o => match o with
                           | Some (JArr [JObj [_; _; _; _; _;
                                (_, JObj ((_, JNull) :: _))]]) => true
                           | _ => false
                           end)) in E.
  vm_compute in E. discriminate E.
Qed.

End PersistenceClaims.

(** * Further properties *)

(** ** The decoder: what is delivered and what is dropped *)

Section DecoderBlockFacts.
Import Str Api.

Variable JSON_parse : string -> option json.

Lemma split_nn_blocks (blocks : list string) (tail : string) :
  Forall (fun b => has_LF b = false) blocks ->
  split_nn (concat (map (fun b => b +:+ String LF (String LF "")) blocks)
            +:+ tail)
  = blocks ++ split_nn tail.
Proof.
  induction 1 as [|b bs Hb _ IH]; [now rewrite append_empty_l|].
  cbn [map concat]. rewrite !append_assoc.
  change (String LF (String LF "") +:+ ?x) with (String LF (String LF x)).
  rewrite split_nn_no_LF by exact Hb. now rewrite IH.
Qed.

Lemma encode_events_blocks (payloads : list string) :
  encode_events payloads
  = concat (map (fun b => b +:+ String LF (String LF ""))
              (map (fun p => "data: " +:+ p) payloads)).
Proof.
  unfold encode_events. now rewrite map_map.
Qed.

Lemma Forall_has_LF_data (payloads : list string) :
  Forall (fun p => has_LF p = false) payloads ->
  Forall (fun b => has_LF b = false) (map (fun p => "data: " +:+ p) payloads).
Proof.
  induction 1 as [|p ps Hp _ IH]; constructor; [|exact IH].
  now rewrite has_LF_data.
Qed.

(** What the loop delivers from a body made of terminated blocks and a
    rest that holds no blank line. *)
Lemma read_loop_blocks (blocks chunks : list string) (tail : string) :
  Forall (fun b => has_LF b = false) blocks ->
  split_nn tail = [tail] ->
  concat chunks
  = concat (map (fun b => b +:+ String LF (String LF "")) blocks) +:+ tail ->
  read_loop JSON_parse "" chunks
  = flat_map (handle_event JSON_parse) blocks ++ [OnComplete].
Proof.
  intros Hb Ht Hc. rewrite read_loop_whole by reflexivity.
  rewrite append_empty_l, Hc, split_nn_blocks, Ht by exact Hb.
  now rewrite removelast_last.
Qed.

Lemma flat_map_handle_event_filter (blocks : list string) :
  flat_map (handle_event JSON_parse) blocks
  = flat_map (fun b => on_payload JSON_parse (substring_from 6 b))
      (List.filter (startsWith "data: ") blocks).
Proof.
  induction blocks as [|b bs IH]; [reflexivity|].
  cbn [flat_map List.filter]. unfold handle_event at 1.
  destruct (startsWith "data: " b); cbn [flat_map app]; now rewrite IH.
Qed.

End DecoderBlockFacts.

Section DecoderBlocks.
Import Str Api Sample.

(** X1. An event the body does not terminate with a blank line before the
    stream ends is never decoded: the callbacks are those of the
    terminated events, followed by the completion. *)
Theorem unterminated_event_is_dropped (JSON_parse : string -> option json)
    (payloads chunks : list string)
    (tail : string) :
  Forall (fun p => has_LF p = false) payloads ->
  split_nn tail = [tail] ->
  concat chunks = encode_events payloads +:+ tail ->
  read_loop JSON_parse "" chunks
  = flat_map (on_payload JSON_parse) payloads ++ [OnComplete].
Proof.
  intros Hp Ht Hc. rewrite encode_events_blocks in Hc.
  rewrite (read_loop_blocks _ _ _ _ (Forall_has_LF_data _ Hp) Ht Hc).
  now rewrite flat_map_handle_event.
Qed.

Lemma unterminated_event_is_dropped_witness :
  read_loop parse_samples ""
    [encode_events [frame1_text]; "data: " +:+ done_text +:+ String LF ""]
  = [OnFrameDetection frame1_value; OnComplete].
Proof.
  apply (unterminated_event_is_dropped parse_samples [frame1_text] _
           ("data: " +:+ done_text +:+ String LF ""));
    [repeat constructor | reflexivity | vm_compute; reflexivity].
Defined.

(** X2. Blocks of the body that do not begin with the marker (comments,
    other fields of the event-stream format, the marker without its
    space) are skipped without a trace: the callbacks are those of the
    marked blocks alone. *)
Theorem unmarked_blocks_are_ignored (JSON_parse : string -> option json)
    (blocks chunks : list string) :
  Forall (fun b => has_LF b = false) blocks ->
  concat chunks
  = concat (map (fun b => b +:+ String LF (String LF "")) blocks) ->
  read_loop JSON_parse "" chunks
  = flat_map (fun b => on_payload JSON_parse (substring_from 6 b))
      (List.filter (startsWith "data: ") blocks)
    ++ [OnComplete].
Proof.
  intros Hb Hc.
  rewrite <- flat_map_handle_event_filter.
  apply (read_loop_blocks JSON_parse blocks chunks ""); [exact Hb|reflexivity|].
  now rewrite append_empty_r.
Qed.

Lemma unmarked_blocks_are_ignored_witness :
  read_loop parse_samples ""
    [": keep-alive" +:+ String LF (String LF "data: " +:+ frame1_text);
     String LF (String LF "event: end") +:+ String LF (String LF "");
     "data:" +:+ done_text +:+ String LF (String LF "")]
  = [OnFrameDetection frame1_value; OnComplete].
Proof.
  apply (unmarked_blocks_are_ignored parse_samples
           [": keep-alive"; "data: " +:+ frame1_text; "event: end";
            "data:" +:+ done_text]);
    [repeat constructor | vm_compute; reflexivity].
Defined.

(** X3. A payload that is not JSON, or is the JSON text [null], costs
    one logged error and nothing else: the events before and after it are
    delivered as if it were absent. *)
Theorem malformed_event_is_skipped (JSON_parse : string -> option json)
    (before after chunks : list string)
    (bad : string) :
  Forall (fun p => has_LF p = false) (before ++ bad :: after) ->
  JSON_parse bad = None \/ JSON_parse bad = Some JNull ->
  concat chunks = encode_events (before ++ bad :: after) ->
  read_loop JSON_parse "" chunks
  = flat_map (on_payload JSON_parse) before
    ++ ConsoleError bad
    :: flat_map (on_payload JSON_parse) after ++ [OnComplete].
Proof.
  intros Hp Hbad Hc. rewrite (read_loop_encoded _ _ _ Hp Hc).
  rewrite flat_map_app. cbn [flat_map].
  assert (on_payload JSON_parse bad = [ConsoleError bad]) as ->.
  { unfold on_payload. now destruct Hbad as [-> | ->]. }
  now rewrite <- !app_assoc.
Qed.

Lemma malformed_event_is_skipped_witness :
  read_loop parse_samples ""
    [encode_events [frame1_text; "{not json"; frame2_text]]
  = [OnFrameDetection frame1_value; ConsoleError "{not json";
     OnFrameDetection frame2_value; OnComplete].
Proof.
  apply (malformed_event_is_skipped parse_samples [frame1_text] [frame2_text] _ "{not json");
    [repeat constructor | left; reflexivity | vm_compute; reflexivity].
Defined.

End DecoderBlocks.

(** ** The orchestrator: what a run gathers and records *)

Section RunFacts.
Import Api App.

Variable name : string.

Lemma onFrameDetection_run (c : bool) (pf : platform) (f : FrameData)
    (r : run) (s : state) :
  fst (onFrameDetection c name pf f (r, s))
  = if fires f
    then {| allDetections := allDetections r ++ detections f;
            firstFireFrame := if not_firstFireFrame (firstFireFrame r)
                              then Some (frame f) else firstFireFrame r;
            totalFramesWithFire := S (totalFramesWithFire r) |}
    else r.
Proof. unfold onFrameDetection. now destruct (fires f). Qed.

Lemma handle_frames_gathers (c : bool) (pf : nat -> platform)
    (frames : list FrameData) : forall (n : nat) (r : run) (s : state),
  let r' := fst (handle_frames c name pf n frames (r, s)) in
  totalFramesWithFire r'
  = totalFramesWithFire r + length (List.filter fires frames)
  /\ allDetections r'
     = allDetections r ++ flat_map detections (List.filter fires frames).
Proof.
  induction frames as [|f frames IH]; intros n r s; cbn zeta.
  - cbn. now rewrite Nat.add_0_r, app_nil_r.
  - cbn [handle_frames List.filter].
    pose proof (onFrameDetection_run c (pf n) f r s) as Hr.
    destruct (onFrameDetection c name (pf n) f (r, s)) as [r1 s1].
    cbn [fst] in Hr. subst r1.
    destruct (IH (S n) (if fires f
                        then {| allDetections := allDetections r ++ detections f;
                                firstFireFrame :=
                                  if not_firstFireFrame (firstFireFrame r)
                                  then Some (frame f) else firstFireFrame r;
                                totalFramesWithFire := S (totalFramesWithFire r) |}
                        else r) s1) as [Ht Ha].
    cbn zeta in Ht, Ha. rewrite Ht, Ha.
    destruct (fires f); cbn; [|now split].
    rewrite <- app_assoc. split; [lia|reflexivity].
Qed.

Lemma flat_map_detections_fires (frames : list FrameData) :
  Nat.ltb 0 (length (flat_map detections (List.filter fires frames)))
  = Nat.ltb 0 (length (List.filter fires frames)).
Proof.
  induction frames as [|f frames IH]; [reflexivity|].
  cbn [List.filter]. destruct (fires f) eqn:E; [|exact IH].
  cbn [flat_map length]. rewrite length_app.
  unfold fires in E. apply andb_true_iff in E as [_ E].
  destruct (length (detections f)); [discriminate|reflexivity].
Qed.

Lemma handle_frames_first_kept (c : bool) (pf : nat -> platform)
    (frames : list FrameData) : forall (n : nat) (r : run) (s : state),
  not_firstFireFrame (firstFireFrame r) = false ->
  firstFireFrame (fst (handle_frames c name pf n frames (r, s)))
  = firstFireFrame r.
Proof.
  induction frames as [|f frames IH]; intros n r s H; [reflexivity|].
  cbn [handle_frames].
  pose proof (onFrameDetection_run c (pf n) f r s) as Hr.
  destruct (onFrameDetection c name (pf n) f (r, s)) as [r1 s1].
  cbn [fst] in Hr. subst r1.
  destruct (fires f); [|now apply IH].
  rewrite IH; cbn [firstFireFrame]; now rewrite H.
Qed.

Lemma handle_frames_first_unset (c : bool) (pf : nat -> platform)
    (frames : list FrameData) : forall (n : nat) (r : run) (s : state),
  not_firstFireFrame (firstFireFrame r) = true ->
  Forall (fun g => fires g = true ->
                   not_firstFireFrame (Some (frame g)) = true) frames ->
  not_firstFireFrame
    (firstFireFrame (fst (handle_frames c name pf n frames (r, s)))) = true.
Proof.
  induction frames as [|f frames IH]; intros n r s H Hall; [exact H|].
  cbn [handle_frames]. inversion Hall as [|? ? Hf Hrest]; subst.
  pose proof (onFrameDetection_run c (pf n) f r s) as Hr.
  destruct (onFrameDetection c name (pf n) f (r, s)) as [r1 s1].
  cbn [fst] in Hr. subst r1.
  destruct (fires f); [|now apply IH].
  apply IH; [|exact Hrest]. cbn [firstFireFrame]. rewrite H. now apply Hf.
Qed.

Lemma handle_frames_history (c : bool) (pf : nat -> platform)
    (frames : list FrameData) : forall (n : nat) (r : run) (s : state),
  detectionHistory (snd (handle_frames c name pf n frames (r, s)))
  = detectionHistory s.
Proof.
  induction frames as [|f frames IH]; intros n r s; [reflexivity|].
  cbn [handle_frames].
  assert (detectionHistory (snd (onFrameDetection c name (pf n) f (r, s)))
          = detectionHistory s) as H1.
  { unfold onFrameDetection.
    destruct (fires f); [|reflexivity]. destruct c; cbn; [reflexivity|].
    destruct (totalFramesWithFire r); cbn; [|reflexivity].
    destruct (notification_granted (pf n)); reflexivity. }
  destruct (onFrameDetection c name (pf n) f (r, s)) as [r1 s1].
  cbn [snd] in H1. rewrite IH. exact H1.
Qed.

End RunFacts.

Section RunProperties.
Import Api App Sample.

(** X4. The run variables are gathered whatever the emergency-stop flag
    says: the count of fire frames and the detections of a run are those
    of all its frames that fire, and the log entry written at the end
    says so, also for a run during which no alert was raised. *)
Theorem run_gathers_every_fire_frame (c : bool) (name : string)
    (pf : nat -> platform) (pf_end : platform) (frames : list FrameData)
    (s : state) :
  let firing := List.filter fires frames in
  let rs := handle_frames c name pf 0 frames (run_start, s) in
  totalFramesWithFire (fst rs) = length firing
  /\ allDetections (fst rs) = flat_map detections firing
  /\ detectionHistory (snd rs) = detectionHistory s
  /\ exists item,
       detectionHistory (snd (onComplete name pf_end rs))
       = item :: detectionHistory s
       /\ detected item = Nat.ltb 0 (length firing)
       /\ history_details_of item
          = StreamingDetails (flat_map detections firing)
              (length (flat_map detections firing)) (length firing)
              (firstFireFrame (fst rs))
              (if Nat.ltb 0 (length firing)
               then average_confidence (flat_map detections firing)
               else 0%float).
Proof.
  cbn zeta.
  destruct (handle_frames_gathers name c pf frames 0 run_start s) as [Ht Ha].
  cbn zeta in Ht, Ha. cbn [run_start totalFramesWithFire allDetections] in Ht, Ha.
  cbn [app Nat.add] in Ht, Ha.
  pose proof (handle_frames_history name c pf frames 0 run_start s) as Hh.
  destruct (handle_frames c name pf 0 frames (run_start, s)) as [r1 s1].
  cbn [fst snd] in *.
  repeat split; [exact Ht|exact Ha|exact Hh|].
  eexists. unfold onComplete. cbn [snd detectionHistory setIsLoading
    setDetectionHistory setDetectionResult].
  split; [rewrite Hh; reflexivity|].
  cbn [detected history_details_of].
  rewrite Ha, Ht, flat_map_detections_fires. now split.
Qed.

(** X5. What a run remembers as its first fire frame is the number of the
    first firing frame whose number is truthy: a firing frame numbered 0
    (or not a number) is passed over, and a later firing frame takes its
    place. *)
Theorem first_fire_frame_skips_falsy_numbers (c : bool) (name : string)
    (pf : nat -> platform) (pre post : list FrameData) (f : FrameData)
    (s : state) :
  Forall (fun g => fires g = true ->
                   not_firstFireFrame (Some (frame g)) = true) pre ->
  fires f = true ->
  not_firstFireFrame (Some (frame f)) = false ->
  firstFireFrame
    (fst (handle_frames c name pf 0 (pre ++ f :: post) (run_start, s)))
  = Some (frame f).
Proof.
  intros Hpre Hf Hn. rewrite handle_frames_app. cbn [handle_frames].
  pose proof (handle_frames_first_unset name c pf pre 0 run_start s
                eq_refl Hpre) as H1.
  destruct (handle_frames c name pf 0 pre (run_start, s)) as [r1 s1].
  cbn [fst] in H1.
  pose proof (onFrameDetection_run name c (pf (0 + length pre)) f r1 s1) as Hr.
  destruct (onFrameDetection c name (pf (0 + length pre)) f (r1, s1))
    as [r2 s2].
  cbn [fst] in Hr. rewrite Hf, H1 in Hr. subst r2.
  now rewrite handle_frames_first_kept.
Qed.

Lemma first_fire_frame_skips_falsy_numbers_witness :
  firstFireFrame
    (fst (handle_frames false "clip.mp4" (fun _ => platform0) 0
            [fire_frame 0; quiet_frame 1; fire_frame 2; fire_frame 3]
            (run_start, initial [] [])))
  = Some 2%float.
Proof.
  apply (first_fire_frame_skips_falsy_numbers false "clip.mp4"
           (fun _ => platform0) [fire_frame 0; quiet_frame 1]
           [fire_frame 3] (fire_frame 2) (initial [] []));
    [repeat constructor; discriminate | reflexivity | reflexivity].
Defined.

End RunProperties.

(** ** The orchestrator: the ledger and the log over whole handlers *)

Section HandlerFacts.
Import Api App.

Variable name : string.

Lemma onFrameDetection_alerts (c : bool) (pf : platform) (f : FrameData)
    (r : run) (s : state) :
  alerts s `suffix_of` alerts (snd (onFrameDetection c name pf f (r, s)))
  /\ detectionHistory (snd (onFrameDetection c name pf f (r, s)))
     = detectionHistory s.
Proof.
  unfold onFrameDetection.
  destruct (fires f); [|now split]. destruct c; cbn; [now split|].
  destruct (totalFramesWithFire r); cbn;
    [destruct (notification_granted (pf)); cbn|];
    (split; [apply suffix_cons_r; reflexivity|reflexivity]).
Qed.

Lemma deliver_app (c : bool) (pf : nat -> platform) (l1 l2 : list callback) :
  forall (n : nat) (rs : run * state),
  deliver c name pf n (l1 ++ l2) rs
  = match deliver c name pf n l1 rs with
    | Some rs' => deliver c name pf (n + length l1) l2 rs'
    | None => None
    end.
Proof.
  induction l1 as [|cb l1 IH]; intros n rs; cbn [app deliver length].
  - now rewrite Nat.add_0_r.
  - rewrite <- Nat.add_succ_comm.
    destruct cb as [v| |e|d]; try apply IH.
    destruct (FrameData_of_json v); [apply IH|reflexivity].
Qed.

(** Over the callbacks of a run nothing leaves the ledger or the log, and
    the log grows by one entry for each completion. *)
Lemma deliver_keeps (c : bool) (pf : nat -> platform) (cbs : list callback) :
  forall (n : nat) (rs rs' : run * state),
  deliver c name pf n cbs rs = Some rs' ->
  alerts (snd rs) `suffix_of` alerts (snd rs')
  /\ detectionHistory (snd rs) `suffix_of` detectionHistory (snd rs')
  /\ length (detectionHistory (snd rs'))
     = length (detectionHistory (snd rs))
       + length (List.filter
                   (fun cb => match cb with OnComplete => true | _ => false end)
                   cbs).
Proof.
  induction cbs as [|cb cbs IH]; intros n rs rs' H.
  - injection H as <-. cbn. now rewrite Nat.add_0_r.
  - cbn [deliver] in H. destruct rs as [r s].
    destruct cb as [v| |e|d]; cbn [List.filter].
    + destruct (FrameData_of_json v) as [f|]; [|discriminate].
      destruct (onFrameDetection_alerts c (pf n) f r s) as [Ha Hh].
      destruct (onFrameDetection c name (pf n) f (r, s)) as [r1 s1].
      destruct (IH _ _ _ H) as (IHa & IHh & IHn). cbn [snd] in *.
      rewrite Hh in IHh, IHn. repeat split; [|exact IHh|exact IHn].
      now transitivity (alerts s1).
    + destruct (IH _ _ _ H) as (IHa & IHh & IHn).
      cbn [onComplete snd alerts detectionHistory setIsLoading
             setDetectionHistory setDetectionResult length] in *.
      repeat split; [exact IHa| |lia].
      etransitivity; [|exact IHh]. apply suffix_cons_r. reflexivity.
    + destruct (IH _ _ _ H) as (IHa & IHh & IHn). now repeat split.
    + destruct (IH _ _ _ H) as (IHa & IHh & IHn). now repeat split.
Qed.

Lemma read_loop_ends (JSON_parse : string -> option json)
    (chunks : list string) : forall buffer : string,
  exists cbs, read_loop JSON_parse buffer chunks = cbs ++ [OnComplete].
Proof.
  induction chunks as [|value rest IH]; intros buffer.
  - now exists [].
  - cbn [read_loop].
    destruct (IH (default "" (last (Str.split_nn (buffer +:+ value)))))
      as [cbs ->].
    eexists. now rewrite app_assoc.
Qed.

End HandlerFacts.

Section HandlerProperties.
Import Str Api App Sample.

(** X6. A response that is not [ok] is reported to the user twice, by the
    error callback and again by the handler's [catch]; nothing enters
    the ledger or the log, no result is shown, and the loading flag is
    lowered. *)
Theorem failed_response_is_reported_twice (JSON_parse : string -> option json)
    (pf : nat -> platform) (name : string) (st : nat) (chunks : list string)
    (s : state) :
  exists s',
    handleDetection_streaming JSON_parse pf name (Response false st chunks) s
    = Some s'
    /\ effects s'
       = effects s ++ [WindowAlert (ErrorDuringStreaming (JStr "HTTP error!"));
                       WindowAlert ErrorProcessingFile]
    /\ alerts s' = alerts s
    /\ detectionHistory s' = detectionHistory s
    /\ detectionResult s' = None
    /\ isLoading s' = false.
Proof.
  eexists. split; [reflexivity|]. cbn. rewrite <- app_assoc. now repeat split.
Qed.

(** X7. A streaming run whose stream ends is always logged and always
    shows a result, whether or not a completion event came and also after
    an error event: the log gains one entry for each completion event and
    one for the end of the stream, and nothing leaves the ledger or the
    log. *)
Theorem ended_stream_is_always_logged (JSON_parse : string -> option json)
    (pf : nat -> platform) (name : string) (st : nat) (chunks : list string)
    (s s' : state) :
  handleDetection_streaming JSON_parse pf name (Response true st chunks) s
  = Some s' ->
  length (detectionHistory s')
  = length (detectionHistory s)
    + length (List.filter
                (fun cb => match cb with OnComplete => true | _ => false end)
                (read_loop JSON_parse "" chunks))
  /\ length (detectionHistory s) < length (detectionHistory s')
  /\ alerts s `suffix_of` alerts s'
  /\ detectionHistory s `suffix_of` detectionHistory s'
  /\ (exists ds n first, detectionResult s' = Some (StreamSummary ds n first))
  /\ isLoading s' = false.
Proof.
  unfold handleDetection_streaming, detectFireSmokeStreaming.
  cbn [ok body]. intros H.
  destruct (deliver _ _ _ _ _ _) as [[r1 s1]|] eqn:E; [|discriminate].
  injection H as ->.
  destruct (deliver_keeps _ _ _ _ _ _ _ E) as (Ha & Hh & Hn).
  cbn [snd alerts detectionHistory setDetectionResult setIsLoading] in Ha, Hh, Hn.
  destruct (read_loop_ends JSON_parse chunks "") as [cbs Hc].
  rewrite Hc in E, Hn |- *. rewrite filter_app_bool, length_app in Hn |- *.
  cbn [List.filter length] in Hn |- *.
  repeat split; [exact Hn|lia|exact Ha|exact Hh| |].
  - rewrite deliver_app in E.
    destruct (deliver _ _ _ _ cbs _) as [[r2 s2]|]; [|discriminate].
    cbn in E. injection E as _ <-. cbn. eauto.
  - rewrite deliver_app in E.
    destruct (deliver _ _ _ _ cbs _) as [[r2 s2]|]; [|discriminate].
    cbn in E. now injection E as _ <-.
Qed.

Lemma ended_stream_is_always_logged_witness :
  exists s',
    handleDetection_streaming parse_samples (fun _ => platform0) "clip.mp4"
      (Response true 200 [encode_events [error_text]; "data: {"])
      (initial [] [])
    = Some s'
    /\ length (detectionHistory s') = 1
    /\ effects s' = [WindowAlert (ErrorDuringStreaming (JStr "model failed"))]
    /\ (exists ds n first, detectionResult s' = Some (StreamSummary ds n first)).
Proof.
  eexists. split; [vm_compute; reflexivity|].
  split; [reflexivity|]. split; [reflexivity|].
  refine (proj1 (proj2 (proj2 (proj2 (proj2
    (ended_stream_is_always_logged parse_samples (fun _ => platform0)
       "clip.mp4" 200 [encode_events [error_text]; "data: {"]
       (initial [] []) _ _)))))).
  vm_compute. reflexivity.
Defined.

(** X8. No detection path removes or reorders what the ledger and the log
    hold: after a batch run, a live-camera detection or the loading of
    the satellite alerts, the old ledger and the old log are the tails of
    the new ones. *)
Theorem detections_only_prepend (pf : platform) (name : string)
    (answer : option batch_result) (captured : bool) (alert : Alert)
    (count : float) (s : state) :
  (alerts s `suffix_of` alerts (handleDetection_batch pf name answer s)
   /\ detectionHistory s
        `suffix_of` detectionHistory (handleDetection_batch pf name answer s))
  /\ (alerts s `suffix_of` alerts (onFireDetected captured pf alert s)
      /\ detectionHistory s
           `suffix_of` detectionHistory (onFireDetected captured pf alert s))
  /\ (alerts s `suffix_of` alerts (loadSatelliteAlerts pf count s)
      /\ detectionHistory s
         = detectionHistory (loadSatelliteAlerts pf count s)).
Proof.
  split; [|split].
  - destruct answer as [result|]; [|now split].
    destruct s as [al hs ia es mon ld dr ef].
    destruct pf as [now rnd ls lts [[| |]|] [| |]];
      lazy -[threatDetected andb negb batch_alert_details batch_details
             suffix];
      destruct (threatDetected result && negb es);
      (split; [try reflexivity; apply suffix_cons_r; reflexivity
              |apply suffix_cons_r; reflexivity]).
  - unfold onFireDetected. destruct captured; cbn; [now split|].
    split; apply suffix_cons_r; reflexivity.
  - unfold loadSatelliteAlerts, handleSatelliteFireDetected.
    destruct (PrimFloat.ltb 0 count); [|now split].
    destruct (notification_granted pf); cbn;
      (split; [apply suffix_cons_r; reflexivity|reflexivity]).
Qed.

(** X9. The accounting of a batch run that was answered: exactly one log
    entry, which records the verdict also while the emergency stop is on;
    one alert and one alarm exactly when a threat was detected and the
    emergency stop is off, and then one notification exactly when the
    permission is granted or is granted on request. *)
Theorem batch_run_accounting (pf : platform) (name : string)
    (result : batch_result) (s : state) :
  let s' := handleDetection_batch pf name (Some result) s in
  let raised := threatDetected result && negb (isEmergencyStop s) in
  let notified :=
    match Notification_permission pf with
    | Some Granted => true
    | Some Default => match requestPermission pf with
                      | Granted => true
                      | _ => false
                      end
    | _ => false
    end in
  (exists item, detectionHistory s' = item :: detectionHistory s
                /\ detected item = threatDetected result)
  /\ length (alerts s') = length (alerts s) + (if raised then 1 else 0)
  /\ alarms s' = alarms s + (if raised then 1 else 0)
  /\ notifications s'
     = notifications s + (if raised && notified then 1 else 0)
  /\ isLoading s' = false.
Proof.
  unfold alarms, notifications. destruct s as [al hs ia es mon ld dr ef].
  destruct pf as [now rnd ls lts [[| |]|] [| |]];
    lazy -[threatDetected andb negb batch_alert_details batch_details length
           List.filter Nat.add app];
    destruct (threatDetected result && negb es);
    (split; [eauto|]);
    rewrite ?filter_app_bool, ?length_app; cbn; repeat split; lia.
Qed.

End HandlerProperties.

(** ** The thresholds on the wildfire probability *)

Section Thresholds.
Import SpecFloat FloatOps.

Lemma Prim2SF_half :
  Prim2SF 0.5%float = S754_finite false 4503599627370496 (-53).
Proof. vm_compute. reflexivity. Qed.

Lemma Prim2SF_seven_tenths :
  Prim2SF 0.7%float = S754_finite false 6305039478318694 (-53).
Proof. vm_compute. reflexivity. Qed.

Lemma Prim2SF_zero : Prim2SF 0%float = S754_zero false.
Proof. vm_compute. reflexivity. Qed.

(** A number above one half is truthy. *)
Lemma above_half_truthy (w : float) :
  PrimFloat.ltb 0.5%float w = true ->
  PrimFloat.eqb w 0%float = false /\ PrimFloat.eqb w w = true.
Proof.
  rewrite FloatAxioms.ltb_spec, !FloatAxioms.eqb_spec, Prim2SF_half, Prim2SF_zero.
  unfold SFltb, SFeqb.
  destruct (Prim2SF w) as [s|s| |s m e]; cbn; try discriminate.
  - destruct s; [discriminate|]. now split.
  - destruct s; [discriminate|]. intros _.
    rewrite Z.compare_refl, Pos.compare_cont_refl. now split.
Qed.

(** A number above seven tenths is above one half. *)
Lemma above_seven_tenths_above_half (w : float) :
  PrimFloat.ltb 0.7%float w = true -> PrimFloat.ltb 0.5%float w = true.
Proof.
  rewrite !FloatAxioms.ltb_spec, Prim2SF_half, Prim2SF_seven_tenths.
  unfold SFltb, SFcompare.
  destruct (Prim2SF w) as [s|s| |s m e]; [exact id|exact id|exact id|].
  destruct s; [exact id|].
  destruct (Z.compare (-53) e); [|exact id|exact id].
  change (PosDef.Pos.compare_cont Eq ?a m) with (Pos.compare a m).
  destruct (Pos.compare 6305039478318694 m) eqn:E1;
    [intros H; discriminate H| |intros H; discriminate H].
  intros _. apply Pos.compare_lt_iff in E1.
  assert (Pos.lt 4503599627370496 m) as E2.
  { apply Pos.lt_trans with (m := 6305039478318694%positive); [|exact E1].
    apply Pos.compare_lt_iff. vm_compute. reflexivity. }
  apply Pos.compare_lt_iff in E2. now rewrite E2.
Qed.

End Thresholds.

(** ** The verdict of a run: log, risk level and result card *)

Section Verdicts.
Import Api App DetectionResult Sample.

Lemma hasDetections_threat (ds : option (list Detection)) :
  hasDetections ds = threatDetected (FireSmokeResult ds).
Proof. now destruct ds. Qed.

Lemma isHighRisk_threat (w : option float) :
  isHighRisk w = threatDetected (SatelliteResult w).
Proof.
  destruct w as [w|]; [|reflexivity]. unfold isHighRisk, threatDetected.
  destruct (PrimFloat.ltb 0.5 w) eqn:E.
  - destruct (above_half_truthy w E) as [-> ->]. cbn. exact E.
  - rewrite andb_false_r.
    destruct (negb (PrimFloat.eqb w 0) && PrimFloat.eqb w w);
      [exact E|reflexivity].
Qed.

(** X10. The risk level written to the log agrees with the verdict of the
    same entry: the level is Low exactly when no threat was detected, so
    an entry marked High or Medium is always one that counts as a
    threat. *)
Theorem risk_level_agrees_with_verdict (w : option float) :
  match batch_details (SatelliteResult w) with
  | SatelliteDetails _ Low => threatDetected (SatelliteResult w) = false
  | SatelliteDetails _ _ => threatDetected (SatelliteResult w) = true
  | _ => False
  end.
Proof.
  rewrite <- isHighRisk_threat.
  destruct w as [w|]; [|reflexivity]. unfold batch_details, isHighRisk.
  destruct (PrimFloat.ltb 0.7 w) eqn:E7.
  - pose proof (above_seven_tenths_above_half w E7) as E5.
    destruct (above_half_truthy w E5) as [-> ->]. exact E5.
  - destruct (PrimFloat.ltb 0.5 w) eqn:E5.
    + destruct (above_half_truthy w E5) as [-> ->]. exact E5.
    + destruct (negb (PrimFloat.eqb w 0) && PrimFloat.eqb w w);
        [exact E5|reflexivity].
Qed.

(** X11. The result card and the log agree when the card is rendered
    under the tab the run was started from: it announces a threat exactly
    when the log entry the same run writes is marked as detected, for a
    batch run and at the completion of a streaming run. Rendered under
    the other tab, which the page allows since the tab buttons stay
    enabled during a run, the card announces no threat whatever the entry
    says. *)
Theorem result_card_agrees_with_log (pf : platform) (name : string)
    (result : batch_result) (s : state) (rs : run * state) :
  (exists item,
     head (detectionHistory (handleDetection_batch pf name (Some result) s))
     = Some item
     /\ option_map (shows_threat (run_tab result))
          (detectionResult (handleDetection_batch pf name (Some result) s))
        = Some (detected item)
     /\ option_map (shows_threat (other_tab (run_tab result)))
          (detectionResult (handleDetection_batch pf name (Some result) s))
        = Some false)
  /\ (exists item,
        head (detectionHistory (snd (onComplete name pf rs))) = Some item
        /\ option_map (shows_threat FireSmokeTab)
             (detectionResult (snd (onComplete name pf rs)))
           = Some (detected item)
        /\ option_map (shows_threat SatelliteTab)
             (detectionResult (snd (onComplete name pf rs)))
           = Some false).
Proof.
  split.
  - destruct s as [al hs ia es mon ld dr ef].
    destruct pf as [now rnd ls lts [[| |]|] [| |]];
      lazy -[threatDetected andb negb batch_alert_details batch_details
             shows_threat run_tab other_tab];
      destruct (threatDetected result && negb es);
      (eexists; split; [reflexivity|]);
      (destruct result as [ds|w]; cbn [shows_threat run_tab other_tab];
       [rewrite hasDetections_threat|rewrite isHighRisk_threat]);
      now split.
  - destruct rs as [r s0]. eexists. repeat split.
Qed.

End Verdicts.

(** ** The alert panel and the detection log *)

Section PanelFacts.
Import App AlertStatus.

Lemma remove_at_out_of_range {A : Type} (l : list A) : forall i : nat,
  length l <= i -> remove_at i l = l.
Proof.
  induction l as [|x l IH]; intros i H; [now destruct i|].
  destruct i as [|i]; cbn in *; [lia|]. rewrite IH; [reflexivity|lia].
Qed.

Lemma remove_at_middle {A : Type} (pre : list A) (x : A) (rest : list A) :
  remove_at (length pre) (pre ++ x :: rest) = pre ++ rest.
Proof. induction pre as [|y pre IH]; cbn; [reflexivity|now rewrite IH]. Qed.

Lemma clear_in_turn_out_of_range {A : Type} (n : nat) :
  forall (k : nat) (l : list A),
  length l <= k ->
  fold_left (fun l i => remove_at i l) (seq k n) l = l.
Proof.
  induction n as [|n IH]; intros k l H; [reflexivity|].
  cbn [seq fold_left]. rewrite remove_at_out_of_range by exact H.
  apply IH. lia.
Qed.

(** Removing the positions 0, 1, 2, ... in turn, each from the list the
    removal before it left, takes out every other element. *)
Lemma clear_in_turn {A : Type} (n : nat) :
  forall (pre rest : list A),
  length rest <= n ->
  fold_left (fun l i => remove_at i l) (seq (length pre) n) (pre ++ rest)
  = pre ++ odd_positions rest.
Proof.
  induction n as [|n IH]; intros pre rest H.
  - destruct rest; [reflexivity|cbn in H; lia].
  - cbn [seq fold_left]. destruct rest as [|x [|y rest]].
    + rewrite app_nil_r, remove_at_out_of_range by lia.
      rewrite clear_in_turn_out_of_range by lia.
      now rewrite app_nil_r.
    + rewrite remove_at_middle, app_nil_r.
      rewrite clear_in_turn_out_of_range by lia.
      now rewrite app_nil_r.
    + rewrite remove_at_middle. cbn [odd_positions].
      replace (pre ++ y :: rest) with ((pre ++ [y]) ++ rest)
        by now rewrite <- app_assoc.
      replace (S (length pre)) with (length (pre ++ [y]))
        by (rewrite length_app; cbn; lia).
      rewrite IH by (cbn in H; lia). now rewrite <- app_assoc.
Qed.

Lemma length_odd_positions {A : Type} (l : list A) :
  length (odd_positions l) = Nat.div2 (length l).
Proof.
  enough (forall x : A,
            length (odd_positions l) = Nat.div2 (length l)
            /\ length (odd_positions (x :: l)) = Nat.div2 (S (length l))) as H.
  { destruct l as [|x l]; [reflexivity|]. apply (H x). }
  induction l as [|y l IH]; intros x; [now split|].
  destruct (IH y) as [H1 H2]. split; [exact H2|].
  cbn [odd_positions length Nat.div2]. now rewrite H1.
Qed.

Lemma handleClearAlert_fold (idxs : list nat) : forall s : state,
  fold_left (fun s index => handleClearAlert index s) idxs s
  = setAlerts (fun l => fold_left (fun l i => remove_at i l) idxs l) s.
Proof.
  induction idxs as [|i idxs IH]; intros s; [now destruct s|].
  cbn [fold_left]. now rewrite IH.
Qed.

Lemma filter_remove_at {A : Type} (f : A -> bool) (l : list A) :
  forall (i : nat) (a : A),
  l !! i = Some a ->
  List.filter f (remove_at i l)
  = if f a then remove_at (length (List.filter f (take i l))) (List.filter f l)
    else List.filter f l.
Proof.
  induction l as [|x l IH]; intros i a H; [discriminate|].
  destruct i as [|i]; cbn in H.
  - injection H as ->. cbn. now destruct (f a).
  - cbn [remove_at List.filter take]. rewrite (IH i a H).
    destruct (f a), (f x); reflexivity.
Qed.

Lemma In_drop {A : Type} (x : A) (l : list A) : forall k : nat,
  In x (drop k l) -> In x l.
Proof.
  induction l as [|y l IH]; intros [|k] H; try exact H.
  right. exact (IH k H).
Qed.

Lemma In_filter_bool {A : Type} (f : A -> bool) (x : A) (l : list A) :
  In x (List.filter f l) -> In x l /\ f x = true.
Proof.
  induction l as [|y l IH]; [intros []|]. cbn. destruct (f y) eqn:E.
  - intros [->|H]; [now split; [left|]|]. destruct (IH H). now split; [right|].
  - intros H. destruct (IH H). now split; [right|].
Qed.

Lemma length_filter_bool {A : Type} (f : A -> bool) (l : list A) :
  length (List.filter f l) <= length l.
Proof.
  induction l as [|y l IH]; [reflexivity|]. cbn. destruct (f y); cbn; lia.
Qed.

Lemma all_high_active (Date_getTime : string -> float) (now : float)
    (l : list Alert) :
  Forall (fun a => severity a = "high") l ->
  activeAlerts Date_getTime now l = l.
Proof.
  induction 1 as [|a l Ha _ IH]; [reflexivity|].
  unfold activeAlerts in *. cbn [List.filter]. unfold is_active at 1.
  rewrite Ha, orb_true_r. now rewrite IH.
Qed.

End PanelFacts.

Section PanelProperties.
Import App AlertStatus DetectionLog Sample Cases.

(** X12. "Clear all" does not clear all: its removals of the positions
    0, 1, 2, ... apply in turn to a ledger that shrinks, so the alerts at
    the second, fourth, ... place survive, half of the ledger rounded
    down, and nothing else changes. It does what [handleClearAllAlerts]
    would do only on a ledger of at most one alert. *)
Theorem clearAllAlerts_leaves_every_other_alert (s : state) :
  clearAllAlerts true s = setAlerts odd_positions s
  /\ length (alerts (clearAllAlerts true s)) = Nat.div2 (length (alerts s))
  /\ (clearAllAlerts true s = handleClearAllAlerts s
      <-> length (alerts s) <= 1).
Proof.
  unfold clearAllAlerts. rewrite handleClearAlert_fold.
  pose proof (clear_in_turn (length (alerts s)) [] (alerts s) (le_n _)) as H.
  cbn [length app] in H.
  destruct s as [al hs ia es mon ld dr ef].
  unfold setAlerts, handleClearAllAlerts. cbn [alerts] in *. rewrite H.
  split; [reflexivity|]. split; [apply length_odd_positions|].
  destruct al as [|x [|y al]]; cbn; split; intros E; try reflexivity; try lia.
  discriminate E.
Qed.

(** X13. The dismiss button of the panel passes the position of an alert
    among the active ones, and the handler removes that position of the
    whole ledger. When the ledger holds an expired alert there, that one
    is removed and the list of active alerts stays as it was; when it
    holds an active alert, the active alert removed is the one that
    follows as many active alerts as the ledger has before that place,
    which is the dismissed one only if no expired alert comes before. *)
Theorem dismiss_removes_the_ledger_position (Date_getTime : string -> float)
    (now : float) (s : state) (index : nat) (a : Alert) :
  alerts s !! index = Some a ->
  activeAlerts Date_getTime now (alerts (handleClearAlert index s))
  = if is_active Date_getTime now a
    then remove_at
           (length (activeAlerts Date_getTime now (take index (alerts s))))
           (activeAlerts Date_getTime now (alerts s))
    else activeAlerts Date_getTime now (alerts s).
Proof.
  intros Hi. destruct s as [al hs ia es mon ld dr ef].
  cbn [alerts handleClearAlert setAlerts] in *. unfold activeAlerts.
  now rewrite (filter_remove_at _ _ _ _ Hi).
Qed.

Lemma dismiss_removes_the_ledger_position_witness :
  activeAlerts raised_at_zero later [satellite_alert0; camera_alert0]
  = [camera_alert0]
  /\ activeAlerts raised_at_zero later
       (alerts (handleClearAlert 0
                  (initial [satellite_alert0; camera_alert0] [])))
     = [camera_alert0]
  /\ alerts (handleClearAlert 0 (initial [satellite_alert0; camera_alert0] []))
     = [camera_alert0].
Proof.
  split; [reflexivity|]. split; [|reflexivity].
  rewrite (dismiss_removes_the_ledger_position raised_at_zero later
             (initial [satellite_alert0; camera_alert0] []) 0
             satellite_alert0 eq_refl).
  reflexivity.
Defined.

(** X14. The list of older alerts is cut from the ledger by the number of
    active alerts, not by which alerts are active: an expired alert at
    the head of the ledger is shown in neither list as long as an alert
    below it is active, while the two lists still show as many entries as
    the ledger has. *)
Theorem expired_head_is_shown_nowhere (Date_getTime : string -> float)
    (now : float) (old : Alert) (rest : list Alert) :
  is_active Date_getTime now old = false ->
  ~ In old rest ->
  activeAlerts Date_getTime now rest <> [] ->
  ~ In old (activeAlerts Date_getTime now (old :: rest)
            ++ olderAlerts Date_getTime now (old :: rest))
  /\ length (activeAlerts Date_getTime now (old :: rest)
             ++ olderAlerts Date_getTime now (old :: rest))
     = length (old :: rest).
Proof.
  intros Hold Hnot Hact. unfold olderAlerts, activeAlerts in *.
  cbn [List.filter]. rewrite Hold. split.
  - intros H. apply in_app_or in H as [H|H].
    + now apply In_filter_bool in H as [H _].
    + destruct (List.filter _ rest) as [|a l]; [congruence|].
      cbn [length drop] in H. now apply In_drop in H.
  - rewrite length_app, length_drop.
    pose proof (length_filter_bool (is_active Date_getTime now) rest).
    cbn [length]. lia.
Qed.

Lemma expired_head_is_shown_nowhere_witness :
  activeAlerts raised_at_zero later [satellite_alert0; camera_alert0]
  = [camera_alert0]
  /\ olderAlerts raised_at_zero later [satellite_alert0; camera_alert0]
     = [camera_alert0]
  /\ length (activeAlerts raised_at_zero later
               [satellite_alert0; camera_alert0]
             ++ olderAlerts raised_at_zero later
                  [satellite_alert0; camera_alert0])
     = 2.
Proof.
  split; [reflexivity|]. split; [reflexivity|].
  apply (expired_head_is_shown_nowhere raised_at_zero later satellite_alert0
           [camera_alert0]).
  - reflexivity.
  - intros [E|[]]. apply (f_equal severity) in E. discriminate E.
  - intros E. discriminate E.
Defined.

(** X15. The alerts of file and camera detections never expire: they are
    made with the severity that the panel keeps active whatever their
    age, so a ledger made of them is shown as active in full at any time,
    and stays so over a batch run, the frames of a streaming run and a
    tick of the camera. *)
Theorem file_and_camera_alerts_never_expire (Date_getTime : string -> float)
    (now : float) (pf : platform) (name : string)
    (answer : option batch_result) (c : bool) (pfs : nat -> platform)
    (n : nat) (frames : list FrameData) (r : run) (mode : Webcam.cameraMode)
    (t : Webcam.tick) (st : Webcam.stats) (s : state) :
  Forall (fun a => severity a = "high") (alerts s) ->
  activeAlerts Date_getTime now (alerts (handleDetection_batch pf name answer s))
  = alerts (handleDetection_batch pf name answer s)
  /\ activeAlerts Date_getTime now
       (alerts (snd (handle_frames c name pfs n frames (r, s))))
     = alerts (snd (handle_frames c name pfs n frames (r, s)))
  /\ activeAlerts Date_getTime now
       (alerts (snd (Webcam.tick_app c mode t (st, s))))
     = alerts (snd (Webcam.tick_app c mode t (st, s))).
Proof.
  intros H. repeat split; apply all_high_active.
  - destruct answer as [result|]; [|exact H].
    destruct s as [al hs ia es mon ld dr ef].
    destruct pf as [nw rnd ls lts [[| |]|] [| |]];
      lazy -[threatDetected andb negb batch_alert_details batch_details];
      destruct (threatDetected result && negb es);
      try exact H; now constructor.
  - revert n r s H. induction frames as [|f frames IH]; intros n r s H;
      [exact H|].
    cbn [handle_frames].
    assert (Forall (fun a => severity a = "high")
              (alerts (snd (onFrameDetection c name (pfs n) f (r, s))))) as H1.
    { unfold onFrameDetection. destruct (fires f); [|exact H].
      destruct c; cbn; [exact H|].
      destruct (totalFramesWithFire r); cbn;
        [destruct (notification_granted (pfs n)); cbn|]; now constructor. }
    destruct (onFrameDetection c name (pfs n) f (r, s)) as [r1 s1].
    now apply IH.
  - unfold Webcam.tick_app, Webcam.captureAndDetect.
    destruct (Webcam.source_ready _ _); [|exact H].
    destruct (Webcam.tick_attempt t) as [| |result]; try exact H.
    destruct (Webcam.result_detections result) as [ds|]; [|exact H].
    destruct (Webcam.result_has_fire result && Nat.ltb 0 (length ds));
      [|exact H].
    unfold onFireDetected. destruct c; cbn; [exact H|]. now constructor.
Qed.

Lemma file_and_camera_alerts_never_expire_witness :
  activeAlerts raised_at_zero later
    (alerts (handleDetection_batch platform0 "forest.jpg"
               (Some (FireSmokeResult
                        (Some [{| class := "fire"; confidence := 0.9 |}])))
               (initial [] [])))
  = alerts (handleDetection_batch platform0 "forest.jpg"
              (Some (FireSmokeResult
                       (Some [{| class := "fire"; confidence := 0.9 |}])))
              (initial [] [])).
Proof.
  apply (file_and_camera_alerts_never_expire raised_at_zero later
           platform0 "forest.jpg" _ false (fun _ => platform0) 0 []
           run_start Webcam.Local tick_fire Webcam.stats_initial
           (initial [] [])).
  constructor.
Defined.

(** X16. The Fire and Smoke filter of the log hides every entry the
    application writes: the filter word is looked for in the lowered type
    of the entry, and none of the types written (for a batch run, a
    streaming run, a camera detection) holds it; the Satellite filter
    does find the entries of satellite runs. *)
Theorem fire_smoke_filter_hides_every_entry (pf : platform) (name : string)
    (result : batch_result) (w : option float) (c : bool) (alert : Alert)
    (rs : run * state) (s : state) :
  filteredHistory "fire-smoke"
    (detectionHistory (handleDetection_batch pf name (Some result) s))
  = filteredHistory "fire-smoke" (detectionHistory s)
  /\ filteredHistory "fire-smoke" (detectionHistory (snd (onComplete name pf rs)))
     = filteredHistory "fire-smoke" (detectionHistory (snd rs))
  /\ filteredHistory "fire-smoke"
       (detectionHistory (onFireDetected c pf alert s))
     = filteredHistory "fire-smoke" (detectionHistory s)
  /\ length (filteredHistory "satellite"
               (detectionHistory
                  (handleDetection_batch pf name (Some (SatelliteResult w)) s)))
     = S (length (filteredHistory "satellite" (detectionHistory s))).
Proof.
  repeat split.
  - destruct s as [al hs ia es mon ld dr ef].
    destruct pf as [nw rnd ls lts [[| |]|] [| |]];
      lazy -[threatDetected andb negb batch_alert_details batch_details
             filteredHistory];
      destruct (threatDetected result && negb es);
      destruct result; reflexivity.
  - now destruct rs as [r s0].
  - unfold onFireDetected. now destruct c.
  - destruct s as [al hs ia es mon ld dr ef].
    destruct pf as [nw rnd ls lts [[| |]|] [| |]];
      lazy -[threatDetected andb negb batch_alert_details batch_details
             filteredHistory length];
      destruct (threatDetected (SatelliteResult w) && negb es); reflexivity.
Qed.

End PanelProperties.

(** ** The alarm engine: the end of a siren, and the stop *)

Section AlarmFacts.
Import Audio.

(** An [onended] handler keeps the flag raised as long as an oscillator
    it does not remove is in the array. *)
Lemma oscillator_onended_keeps (o b : OscillatorNode) (a : AudioAlertSystem) :
  isPlaying a = true ->
  b ∈ oscillators a ->
  (osc_voice o = Siren -> osc_id b <> osc_id o) ->
  isPlaying (oscillator_onended o a) = true
  /\ b ∈ oscillators (oscillator_onended o a).
Proof.
  intros Hp Hb Hne. unfold oscillator_onended.
  destruct (osc_voice o); [|now split].
  assert (b ∈ filter (fun x => osc_id x <> osc_id o) (oscillators a)) as Hin.
  { apply list_elem_of_filter. split; [now apply Hne|exact Hb]. }
  destruct (decide _) as [E|E].
  - apply length_zero_iff_nil in E. cbn [oscillators set_nodes] in E.
    rewrite E in Hin. now apply elem_of_nil in Hin.
  - now split.
Qed.

Lemma stopAlarm_nodes (now : float) (a : AudioAlertSystem) (ctx : AudioContext) :
  audioContext a = Some ctx ->
  isPlaying (stopAlarm now a) = false
  /\ clip_active (stopAlarm now a) = false
  /\ audioContext (stopAlarm now a) = Some ctx
  /\ map osc_id (oscillators (stopAlarm now a)) = map osc_id (oscillators a)
  /\ Forall (fun o => osc_stop o = (now + 0.1)%float)
       (oscillators (stopAlarm now a))
  /\ Forall (fun g => gain_fade g = Some (now + 0.1)%float)
       (gainNodes (stopAlarm now a)).
Proof.
  intros Hc. unfold stopAlarm, clip_active.
  destruct (audioElement a) as [e|] eqn:He;
    [destruct (paused e) eqn:Hp|]; cbn; rewrite Hc; cbn; rewrite ?He, ?Hp;
    (repeat split;
     [now rewrite map_map | apply Forall_map, Forall_true; reflexivity
     | apply Forall_map, Forall_true; reflexivity]).
Qed.

End AlarmFacts.

Section AlarmProperties.
Import Audio.

(** X17. After a synthesized siren the flag is never lowered by the end
    of the sound: the bass oscillator stays in the array whatever
    [onended] events of the siren's oscillators arrive, in any order and
    number, so the array never empties, [isPlaying] stays raised, and
    every later [playFireAlarm] returns at its guard. *)
Theorem siren_end_never_lowers_flag (d now : float) (a0 : AudioAlertSystem)
    (evs : list OscillatorNode) :
  oscillators a0 = [] ->
  Forall (fun o => o ∈ oscillators (playGeneratedSiren d now a0)) evs ->
  let a := fold_left (fun a o => oscillator_onended o a) evs
             (playGeneratedSiren d now a0) in
  isPlaying a = true
  /\ oscillators a <> []
  /\ forall d' : float, playFireAlarm_begin d' a = (a, None).
Proof.
  intros Ho Hevs. cbn zeta.
  set (n := match audioContext a0 with Some c => created c | None => 0 end).
  set (bass := {| osc_id := 6 + n; osc_voice := Bass; osc_type := Triangle;
                  osc_frequency := 200; osc_start := now;
                  osc_stop := (now + d / 1000)%float |}).
  assert (Hs : isPlaying (playGeneratedSiren d now a0) = true
               /\ bass ∈ oscillators (playGeneratedSiren d now a0)
               /\ forall o, o ∈ oscillators (playGeneratedSiren d now a0) ->
                    osc_voice o = Siren -> osc_id bass <> osc_id o).
  { subst bass n. destruct a0 as [[[k]|] p os gs el]; cbn in Ho; subst os;
      cbn; (split; [reflexivity|]);
      (split; [do 3 apply list_elem_of_further; apply list_elem_of_here|]);
      intros o Hin Hv;
      repeat (apply elem_of_cons in Hin as [->|Hin];
              [try discriminate Hv; cbn; lia|]);
      now apply elem_of_nil in Hin. }
  destruct Hs as (Hp & Hb & Hids).
  assert (isPlaying (fold_left (fun a o => oscillator_onended o a) evs
                       (playGeneratedSiren d now a0)) = true
          /\ bass ∈ oscillators
                      (fold_left (fun a o => oscillator_onended o a) evs
                         (playGeneratedSiren d now a0))) as [H1 H2].
  { generalize dependent (playGeneratedSiren d now a0). intros a Hevs Hp Hb Hids.
    clear Ho. revert Hp Hb. 
    assert (forall o, o ∈ evs -> osc_voice o = Siren -> osc_id bass <> osc_id o)
      as Hev.
    { intros o Ho. apply Hids. rewrite Forall_forall in Hevs. now apply Hevs. }
    clear Hevs Hids. revert a. induction evs as [|o evs IH]; intros a Hp Hb;
      [now split|].
    cbn [fold_left].
    destruct (oscillator_onended_keeps o bass a Hp Hb) as [Hp' Hb'].
    { apply Hev. now left. }
    apply IH; [|exact Hp'|exact Hb'].
    intros o' Ho'. apply Hev. now right. }
  split; [exact H1|]. split.
  - intros E. rewrite E in H2. now apply elem_of_nil in H2.
  - intros d'. unfold playFireAlarm_begin. now rewrite H1.
Qed.

Lemma siren_end_never_lowers_flag_witness :
  isPlaying
    (fold_left (fun a o => oscillator_onended o a)
       (oscillators (playGeneratedSiren 3000 0 constructor)
        ++ oscillators (playGeneratedSiren 3000 0 constructor))
       (playGeneratedSiren 3000 0 constructor))
  = true.
Proof.
  apply (siren_end_never_lowers_flag 3000 0 constructor
           (oscillators (playGeneratedSiren 3000 0 constructor)
            ++ oscillators (playGeneratedSiren 3000 0 constructor))
           eq_refl).
  apply Forall_forall. intros o Ho. apply elem_of_app in Ho. tauto.
Defined.

(** X18. On an engine that has an audio context, [stopAlarm] always ends
    in the idle state: the flag is lowered, the clip is paused, every
    oscillator in the array is told to stop and every gain to fade a
    tenth of a second later; the arrays keep their nodes, and the next
    [playFireAlarm] is accepted. *)
Theorem stopAlarm_with_context_resets (now d : float) (a : AudioAlertSystem)
    (ctx : AudioContext) :
  audioContext a = Some ctx ->
  isPlaying (stopAlarm now a) = false
  /\ clip_active (stopAlarm now a) = false
  /\ map osc_id (oscillators (stopAlarm now a)) = map osc_id (oscillators a)
  /\ Forall (fun o => osc_stop o = (now + 0.1)%float)
       (oscillators (stopAlarm now a))
  /\ Forall (fun g => gain_fade g = Some (now + 0.1)%float)
       (gainNodes (stopAlarm now a))
  /\ snd (playFireAlarm_begin d (stopAlarm now a)) = Some d.
Proof.
  intros Hc.
  destruct (stopAlarm_nodes now a ctx Hc) as (Hp & Hclip & _ & Hids & Ho & Hg).
  repeat split; try assumption.
  unfold playFireAlarm_begin. now rewrite Hp.
Qed.

Lemma stopAlarm_with_context_resets_witness :
  isPlaying (stopAlarm 1 (playGeneratedSiren 3000 0 constructor)) = false
  /\ snd (playFireAlarm_begin 3000
            (stopAlarm 1 (playGeneratedSiren 3000 0 constructor)))
     = Some 3000%float.
Proof.
  destruct (stopAlarm_with_context_resets 1 3000
              (playGeneratedSiren 3000 0 constructor) {| created := 8 |}
              eq_refl) as (H1 & _ & _ & _ & _ & H6).
  split; [exact H1|exact H6].
Defined.

End AlarmProperties.

(** ** The camera component: silence, the proxy snapshot, the timers *)

Section CameraFacts.
Import App Webcam Capture Monitoring.

Lemma inert_handle (c : camera) (ev : event) :
  inert c ->
  inert (handle c ev) /\ requests (handle c ev) = requests c
  /\ (hasPermission c = false -> hasPermission (handle c ev) = false).
Proof.
  intros (Hl & He & Hi). destruct ev as [| |t]; cbn [handle].
  - unfold fire_onload. rewrite Hl. now repeat split.
  - unfold img_onError, fire_onerror.
    destruct (hasPermission c) eqn:E; cbn; rewrite He; unfold inert; cbn;
      now repeat split.
  - unfold fire_interval. rewrite Hi. now repeat split.
Qed.

Lemma inert_handle_all (evs : list event) : forall c : camera,
  inert c ->
  requests (handle_all evs c) = requests c
  /\ refreshIntervalRef (handle_all evs c) = None
  /\ (hasPermission c = false -> hasPermission (handle_all evs c) = false).
Proof.
  induction evs as [|ev evs IH]; intros c Hc.
  - destruct Hc as (_ & _ & Hi). now repeat split.
  - destruct (inert_handle c ev Hc) as (Hc' & Hr & Hp).
    destruct (IH _ Hc') as (IHr & IHi & IHp).
    change (handle_all (ev :: evs) c) with (handle_all evs (handle c ev)).
    rewrite IHr, Hr. repeat split; auto.
Qed.

Lemma stopMonitoring_orphaned (id : nat) (w : component) :
  orphaned id w -> orphaned id (stopMonitoring w).
Proof.
  intros (Hin & Href & Hlt). unfold stopMonitoring, orphaned.
  destruct (intervalRef w) as [k|] eqn:E; [|now rewrite E].
  cbn. repeat split; [|discriminate|exact Hlt].
  apply filter_In. split; [exact Hin|].
  apply negb_true_iff, Nat.eqb_neq. congruence.
Qed.

Lemma stopCamera_orphaned (id : nat) (m : cameraMode) (w : component) :
  orphaned id w -> orphaned id (stopCamera m w).
Proof. now destruct m. Qed.

Lemma startMonitoring_timer (URL_valid : string -> bool)
    (encodeURIComponent : string -> string) (w : component) :
  running (startMonitoring URL_valid encodeURIComponent w)
  = running w ++ [next_timer w]
  /\ intervalRef (startMonitoring URL_valid encodeURIComponent w)
     = Some (next_timer w)
  /\ next_timer (startMonitoring URL_valid encodeURIComponent w)
     = S (next_timer w).
Proof.
  unfold startMonitoring.
  destruct (hasPermission (network w)); [|destruct (mode w)]; now cbn.
Qed.

Lemma startMonitoring_orphaned (URL_valid : string -> bool)
    (encodeURIComponent : string -> string) (id : nat) (w : component) :
  orphaned id w ->
  orphaned id (startMonitoring URL_valid encodeURIComponent w).
Proof.
  intros (Hin & Href & Hlt). unfold orphaned.
  destruct (startMonitoring_timer URL_valid encodeURIComponent w)
    as (-> & -> & ->).
  repeat split;
    [apply in_or_app; now left | intros E; injection E as E; lia | lia].
Qed.

Lemma apply_control_orphaned (URL_valid : string -> bool)
    (encodeURIComponent : string -> string) (id : nat)
    (controls : list control) : forall w : component,
  orphaned id w ->
  orphaned id
    (fold_left (apply_control URL_valid encodeURIComponent) controls w).
Proof.
  induction controls as [|c controls IH]; intros w H; [exact H|].
  cbn [fold_left]. apply IH. destruct c; cbn [apply_control].
  - now apply startMonitoring_orphaned.
  - now apply stopMonitoring_orphaned.
  - now apply stopCamera_orphaned.
  - unfold unmount. now apply stopMonitoring_orphaned, stopCamera_orphaned.
Qed.

End CameraFacts.

Section CameraProperties.
Import Str App Webcam Capture Monitoring Sample Cases.

(** X19. After "Stop Camera" in network mode the component is silent:
    whatever loads, errors and timer ticks still arrive, the image is
    asked for nothing more, no timer is installed again and the camera
    stays disconnected. *)
Theorem stopped_camera_is_silent (c : camera) (evs : list event) :
  imgRef c = true ->
  requests (handle_all evs (stopCamera_network c))
  = requests (stopCamera_network c)
  /\ refreshIntervalRef (handle_all evs (stopCamera_network c)) = None
  /\ hasPermission (handle_all evs (stopCamera_network c)) = false.
Proof.
  intros Hi.
  assert (inert (stopCamera_network c)) as H.
  { unfold stopCamera_network, inert. rewrite Hi. now repeat split. }
  destruct (inert_handle_all evs _ H) as (Hr & Ht & Hp).
  repeat split; [exact Hr|exact Ht|]. apply Hp.
  unfold stopCamera_network. now rewrite Hi.
Qed.

Lemma stopped_camera_is_silent_witness :
  requests
    (handle_all [ImgError; IntervalTick 5; ImgLoad; IntervalTick 6]
       (stopCamera_network
          (handle (startNetworkCamera http_url unescaped camera0) ImgLoad)))
  = ["http://localhost:8000/proxy/camera?url=http://192.168.1.100:8080/shot.jpg";
     EmptyString].
Proof.
  apply (stopped_camera_is_silent
           (handle (startNetworkCamera http_url unescaped camera0) ImgLoad)
           [ImgError; IntervalTick 5; ImgLoad; IntervalTick 6]).
  reflexivity.
Defined.

(** X20. A connection attempt with no URL or with a text that is not a
    URL asks the image for nothing, then or later: on a camera with no
    handler and no timer it installs none, reports an error, and no
    event makes a request afterwards. *)
Theorem rejected_url_makes_no_request (URL_valid : string -> bool)
    (encodeURIComponent : string -> string) (c : camera) (evs : list event) :
  inert c ->
  networkCameraUrl c = "" \/ URL_valid (networkCameraUrl c) = false ->
  requests (handle_all evs (startNetworkCamera URL_valid encodeURIComponent c))
  = requests c
  /\ error (startNetworkCamera URL_valid encodeURIComponent c) <> None
  /\ refreshIntervalRef
       (handle_all evs (startNetworkCamera URL_valid encodeURIComponent c))
     = None.
Proof.
  intros Hc Hurl.
  assert (inert (startNetworkCamera URL_valid encodeURIComponent c)
          /\ requests (startNetworkCamera URL_valid encodeURIComponent c)
             = requests c
          /\ error (startNetworkCamera URL_valid encodeURIComponent c) <> None)
    as (H & Hr & He).
  { destruct Hc as (Hl & He & Ht). unfold startNetworkCamera, inert.
    destruct (String.eqb_spec (networkCameraUrl c) "") as [E|E].
    - cbn. repeat split; try assumption. intros H; discriminate H.
    - destruct Hurl as [Hurl|Hurl]; [contradiction|]. rewrite Hurl.
      cbn. repeat split; try assumption. intros H; discriminate H. }
  destruct (inert_handle_all evs _ H) as (Hr' & Ht & _).
  repeat split; [now rewrite Hr'|exact He|exact Ht].
Qed.

Lemma rejected_url_makes_no_request_witness :
  requests
    (handle_all [ImgLoad; IntervalTick 5; ImgError]
       (startNetworkCamera http_url unescaped camera_typo))
  = []
  /\ error (startNetworkCamera http_url unescaped camera_typo)
     = Some InvalidUrl.
Proof.
  split; [|reflexivity].
  apply (rejected_url_makes_no_request http_url unescaped camera_typo
           [ImgLoad; IntervalTick 5; ImgError]).
  - now repeat split.
  - right. reflexivity.
Defined.

(** X21. The snapshot fetched through the proxy is never refreshed: the
    poller installed when the proxy request loads tests the value of
    [hasPermission] of the render that started the connection, which is
    false whenever the connection is started, so no tick and no later
    load asks for a new image. *)
Theorem proxy_snapshot_is_never_refreshed (URL_valid : string -> bool)
    (encodeURIComponent : string -> string) (c : camera) (evs : list event) :
  networkCameraUrl c <> "" ->
  URL_valid (networkCameraUrl c) = true ->
  imgRef c = true ->
  refreshIntervalRef c = None ->
  hasPermission c = false ->
  Forall (fun ev => ev <> ImgError) evs ->
  hasPermission
    (handle (startNetworkCamera URL_valid encodeURIComponent c) ImgLoad)
  = true
  /\ refreshIntervalRef
       (handle (startNetworkCamera URL_valid encodeURIComponent c) ImgLoad)
     = Some (RefreshSnapshot false
               (proxy_of encodeURIComponent (snapshot_of (networkCameraUrl c))))
  /\ requests
       (handle_all (ImgLoad :: evs)
          (startNetworkCamera URL_valid encodeURIComponent c))
     = requests c
       ++ [proxy_of encodeURIComponent (snapshot_of (networkCameraUrl c))].
Proof.
  intros Hne Hv Hi Hr Hp Hevs.
  assert (Hs : startNetworkCamera URL_valid encodeURIComponent c
               = set_src (proxy_of encodeURIComponent
                            (snapshot_of (networkCameraUrl c)))
                   (set_handlers
                      (ProxyOnload false
                         (proxy_of encodeURIComponent
                            (snapshot_of (networkCameraUrl c))))
                      (ProxyOnerror (snapshot_of (networkCameraUrl c)))
                      false c)).
  { unfold startNetworkCamera. rewrite Hv, Hi, Hp.
    destruct (String.eqb_spec (networkCameraUrl c) ""); [contradiction|].
    reflexivity. }
  rewrite Hs. clear Hs.
  set (px := proxy_of encodeURIComponent (snapshot_of (networkCameraUrl c))).
  change (handle_all (ImgLoad :: evs) ?x) with (handle_all evs (handle x ImgLoad)).
  set (c1 := handle _ ImgLoad).
  assert (H1 : onload c1 = ProxyOnload false px
               /\ refreshIntervalRef c1 = Some (RefreshSnapshot false px)
               /\ requests c1 = requests c ++ [px]
               /\ hasPermission c1 = true).
  { subst c1. cbn. rewrite Hr. now repeat split. }
  destruct H1 as (Hl & Ht & Hq & Hh).
  split; [exact Hh|]. split; [exact Ht|].
  rewrite <- Hq. clear Hq Hh. generalize dependent c1.
  induction Hevs as [|ev evs Hev _ IH]; intros c1 Hl Ht; [reflexivity|].
  change (handle_all (ev :: evs) c1) with (handle_all evs (handle c1 ev)).
  assert (onload (handle c1 ev) = ProxyOnload false px
          /\ refreshIntervalRef (handle c1 ev) = Some (RefreshSnapshot false px)
          /\ requests (handle c1 ev) = requests c1) as (Hl' & Ht' & Hq').
  { destruct ev as [| |t]; [|contradiction|]; cbn [handle].
    - unfold fire_onload. rewrite Hl. cbn. rewrite Ht. now repeat split.
    - unfold fire_interval. rewrite Ht, andb_false_r. now repeat split. }
  rewrite <- Hq'. now apply IH.
Qed.

Lemma proxy_snapshot_is_never_refreshed_witness :
  requests
    (handle_all [ImgLoad; IntervalTick 500; IntervalTick 1000; ImgLoad;
                 IntervalTick 1500]
       (startNetworkCamera http_url unescaped camera0))
  = ["http://localhost:8000/proxy/camera?url=http://192.168.1.100:8080/shot.jpg"].
Proof.
  apply (proxy_snapshot_is_never_refreshed http_url unescaped camera0
           [IntervalTick 500; IntervalTick 1000; ImgLoad; IntervalTick 1500]);
    try reflexivity; [discriminate|].
  repeat constructor; discriminate.
Defined.

(** X22. The ledger and the camera's own count: over any ticks of the
    capture timer, every alert the camera raises comes with exactly one
    log entry, and the alerts raised are at most the fire detections the
    statistics count, which also count an answer that reports fire with no
    detection and the detections made while the emergency stop is on. *)
Theorem camera_alerts_bounded_by_fire_count (captured : bool)
    (mode : cameraMode) (ticks : list tick) (st : stats) (s : state) :
  let st' := fst (run_ticks captured mode ticks (st, s)) in
  let s' := snd (run_ticks captured mode ticks (st, s)) in
  st' = monitor mode ticks st
  /\ length (alerts s') + length (detectionHistory s)
     = length (alerts s) + length (detectionHistory s')
  /\ length (alerts s') + fireDetections st
     <= length (alerts s) + fireDetections st'
  /\ alarms s' + length (alerts s) = alarms s + length (alerts s')
  /\ (if captured then alerts s' = alerts s else True).
Proof.
  cbn zeta. unfold run_ticks, monitor. revert st s.
  induction ticks as [|t ticks IH]; intros st s.
  - cbn. repeat split; try lia. now destruct captured.
  - cbn [fold_left].
    assert (exists s1,
              tick_app captured mode t (st, s) = (tick_stats mode st t, s1)
              /\ length (alerts s1) + length (detectionHistory s)
                 = length (alerts s) + length (detectionHistory s1)
              /\ length (alerts s1) + fireDetections st
                 <= length (alerts s) + fireDetections (tick_stats mode st t)
              /\ alarms s1 + length (alerts s) = alarms s + length (alerts s1)
              /\ (if captured then alerts s1 = alerts s else True))
      as (s1 & -> & H1 & H2 & H3 & H4).
    { unfold tick_app, tick_stats, captureAndDetect.
      destruct (source_ready mode (tick_elements t));
        [|exists s; repeat split; try lia; now destruct captured].
      destruct (tick_attempt t) as [| |result];
        try (exists s; repeat split; try lia; now destruct captured).
      cbn [fst update_stats fireDetections].
      destruct (result_has_fire result);
        destruct (result_detections result) as [ds|]; cbn [andb];
        try destruct (Nat.ltb 0 (length ds));
        try (exists s; repeat split; try lia; now destruct captured).
      eexists. split; [reflexivity|]. unfold onFireDetected.
      destruct captured; cbn [negb]; [repeat split; lia|].
      unfold alarms. cbn. rewrite filter_app_bool, length_app. cbn.
      repeat split; lia. }
    destruct (IH (tick_stats mode st t) s1) as (I0 & I1 & I2 & I3 & I4).
    repeat split; [exact I0|lia|lia|lia|].
    destruct captured; [congruence|exact I].
Qed.

(** X23. The capture timer outlives its handle: a second
    "Start Monitoring" overwrites the timer kept in [intervalRef], and
    from then on nothing the component does (stopping the monitoring or
    the camera, starting again, unmounting) stops the first timer. The
    second start is offered by the page whenever the parent's flag is
    lowered, which the emergency stop does without stopping the timer. *)
Theorem overwritten_timer_is_never_cleared (URL_valid : string -> bool)
    (encodeURIComponent : string -> string) (w : component)
    (controls : list control) (s : state) :
  In (next_timer w)
    (running
       (fold_left (apply_control URL_valid encodeURIComponent) controls
          (startMonitoring URL_valid encodeURIComponent
             (startMonitoring URL_valid encodeURIComponent w))))
  /\ offers_start (startMonitoring URL_valid encodeURIComponent w)
       (handleEmergencyStop s)
     = hasPermission
         (network (startMonitoring URL_valid encodeURIComponent w)).
Proof.
  split; [|unfold offers_start; cbn; now rewrite andb_true_r].
  apply (apply_control_orphaned URL_valid encodeURIComponent).
  unfold orphaned.
  destruct (startMonitoring_timer URL_valid encodeURIComponent
              (startMonitoring URL_valid encodeURIComponent w))
    as (-> & -> & ->).
  destruct (startMonitoring_timer URL_valid encodeURIComponent w)
    as (-> & _ & ->).
  repeat split;
    [apply in_or_app; left; apply in_or_app; right; now left
    | intros E; injection E as E; lia | lia].
Qed.

End CameraProperties.
